(** * The pointer, modal-session and blocking-wait core of the Mac platform
      layer (engine/src/mac-core.mm), embedded as executable definitions.

    Notifications sent through [m_callback], calls into AppKit and reference
    counting are recorded in a trace, in the order the source performs them.
    Readings taken from the host (window under a point, event time, mouse
    location, the engine's click and drag settings) are inputs of each
    operation. *)

From Stdlib Require Import ZArith QArith Bool Lia String SpecFloat.
From stdpp Require Import base tactics option list.

Local Open Scope Z_scope.

(** ** Fixed-width integers *)

Definition wrap_uint32 (z : Z) : Z := z mod 2 ^ 32.
Definition wrap_int16 (z : Z) : Z := (z + 2 ^ 15) mod 2 ^ 16 - 2 ^ 15.
Definition in_int16 (z : Z) : Prop := - 2 ^ 15 <= z < 2 ^ 15.
Definition in_uint32 (z : Z) : Prop := 0 <= z < 2 ^ 32.

(** MCPoint (typedefs.h): a pair of int16_t coordinates. *)
Record MCPoint : Type := MCPointMake { MCPoint_x : Z; MCPoint_y : Z }.

Definition MCPoint_valid (p : MCPoint) : Prop :=
  in_int16 (MCPoint_x p) /\ in_int16 (MCPoint_y p).

(** ** Screen coordinate mapping *)

Module Coord.

(** CGFloat is a double: the binary64 values of IEEE 754 (53 bits of
    precision, exponents below 1024), with the arithmetic of the Standard
    Library's specification of it, rounding to the nearest value, ties to
    even. *)
Definition CGFloat : Type := spec_float.

(** The conversion of an int to CGFloat. *)
Definition CGFloat_of_int (z : Z) : CGFloat := binary_normalize 53 1024 z 0 false.

Definition CGFloat_sub (a b : CGFloat) : CGFloat := SFsub 53 1024 a b.
Definition CGFloat_add (a b : CGFloat) : CGFloat := SFadd 53 1024 a b.

(** NSPoint: a pair of CGFloat. *)
Record NSPoint : Type := NSMakePoint { NSPoint_x : CGFloat; NSPoint_y : CGFloat }.

(** The conversion int16_t(f) of a CGFloat: truncation toward zero, then the
    low 16 bits (out of the int16_t range, and for an infinity or a NaN, the
    source's conversion is undefined; the model wraps, and gives 0). *)
Definition truncate (f : CGFloat) : Z :=
  match f with
  | S754_finite s m e => cond_Zopp s (Z.shiftl (Zpos m) e)
  | _ => 0
  end.

Definition int16_t (f : CGFloat) : Z := wrap_int16 (truncate f).

(** MapScreenMCPointToNSPoint, with GetDesktopHeight() = h; p.x and p.y are
    converted to CGFloat. *)
Definition MapScreenMCPointToNSPoint (h : CGFloat) (p : MCPoint) : NSPoint :=
  NSMakePoint (CGFloat_of_int (MCPoint_x p))
              (CGFloat_sub h (CGFloat_of_int (MCPoint_y p))).

(** MapScreenNSPointToMCPoint, with GetDesktopHeight() = h. *)
Definition MapScreenNSPointToMCPoint (h : CGFloat) (p : NSPoint) : MCPoint :=
  MCPointMake (int16_t (NSPoint_x p)) (int16_t (CGFloat_sub h (NSPoint_y p))).

(** A desktop height of 900.3 points: the double nearest to 9003 / 10. *)
Definition desktop_900_3 : CGFloat := S754_finite false 7919122547893862 (-43).

End Coord.

(** ** Pointer state machine *)

Module Pointer.

(** A platform window is known by its identity; [None] is nil. *)
Definition Window : Type := nat.

(** The upcalls made through [m_callback], the cursor operations and the
    reference counting of window handles, as they appear in a trace. *)
Inductive Notification : Type :=
| SendMouseDown (w : Window) (button count : Z)
| SendMouseUp (w : Window) (button count : Z)
| SendMouseRelease (w : Window) (button : Z) (was_menu : bool)
| SendMouseMove (w : Window) (loc : MCPoint)
| SendMouseDrag (w : Window) (button : Z)
| SendMouseEnter (w : Window)
| SendMouseLeave (w : Window)
| ResetCursor
| UpdateCursor (w : Window)
| Retain (w : Window)
| Release (w : Window).

(** What an operation reads from outside the pointer state: the window
    locator, the window's coordinate mapping, the time of the current event,
    the mouse location and desktop height, the engine's settings
    MCdoubletime, MCdoubledelta and MCdragdelta (uint2), and the modifier bit
    kMCPlatformModifierCommand (platform.h). *)
Record Host : Type := {
  GetWindowAtPoint : MCPoint -> option Window;
  MapPointFromScreenToWindow : Window -> MCPoint -> MCPoint;
  MapPointFromWindowToScreen : Window -> MCPoint -> MCPoint;
  GetEventTime : Z;
  mouseLocation : Coord.NSPoint;
  GetDesktopHeight : Coord.CGFloat;
  MCdoubletime : Z;
  MCdoubledelta : Z;
  MCdragdelta : Z;
  kMCPlatformModifierCommand : Z
}.

(** The m_mouse_* members of MCMacPlatformCore. Integers are uint32_t. *)
Record PointerState : Type := {
  m_mouse_window : option Window;
  m_mouse_buttons : Z;
  m_mouse_grabbed : bool;
  m_mouse_grabbed_explicit : bool;
  m_mouse_drag_button : Z;
  m_mouse_click_count : Z;
  m_mouse_last_click_time : Z;
  m_mouse_last_click_button : Z;
  m_mouse_last_click_screen_position : MCPoint;
  m_mouse_screen_position : MCPoint;
  m_mouse_position : MCPoint;
  m_mouse_was_control_click : bool;
  m_mouse_cursor_locked : bool;
  m_mouse_modifiers : Z
}.

Definition set_window v (s : PointerState) : PointerState :=
  let '(Build_PointerState _ bs g e d c t b lp sp p cc cl m) := s in
  Build_PointerState v bs g e d c t b lp sp p cc cl m.
Definition set_buttons v (s : PointerState) : PointerState :=
  let '(Build_PointerState w _ g e d c t b lp sp p cc cl m) := s in
  Build_PointerState w v g e d c t b lp sp p cc cl m.
Definition set_grabbed v (s : PointerState) : PointerState :=
  let '(Build_PointerState w bs _ e d c t b lp sp p cc cl m) := s in
  Build_PointerState w bs v e d c t b lp sp p cc cl m.
Definition set_grabbed_explicit v (s : PointerState) : PointerState :=
  let '(Build_PointerState w bs g _ d c t b lp sp p cc cl m) := s in
  Build_PointerState w bs g v d c t b lp sp p cc cl m.
Definition set_drag_button v (s : PointerState) : PointerState :=
  let '(Build_PointerState w bs g e _ c t b lp sp p cc cl m) := s in
  Build_PointerState w bs g e v c t b lp sp p cc cl m.
Definition set_click_count v (s : PointerState) : PointerState :=
  let '(Build_PointerState w bs g e d _ t b lp sp p cc cl m) := s in
  Build_PointerState w bs g e d v t b lp sp p cc cl m.
Definition set_last_click_time v (s : PointerState) : PointerState :=
  let '(Build_PointerState w bs g e d c _ b lp sp p cc cl m) := s in
  Build_PointerState w bs g e d c v b lp sp p cc cl m.
Definition set_last_click_button v (s : PointerState) : PointerState :=
  let '(Build_PointerState w bs g e d c t _ lp sp p cc cl m) := s in
  Build_PointerState w bs g e d c t v lp sp p cc cl m.
Definition set_last_click_screen_position v (s : PointerState) : PointerState :=
  let '(Build_PointerState w bs g e d c t b _ sp p cc cl m) := s in
  Build_PointerState w bs g e d c t b v sp p cc cl m.
Definition set_screen_position v (s : PointerState) : PointerState :=
  let '(Build_PointerState w bs g e d c t b lp _ p cc cl m) := s in
  Build_PointerState w bs g e d c t b lp v p cc cl m.
Definition set_position v (s : PointerState) : PointerState :=
  let '(Build_PointerState w bs g e d c t b lp sp _ cc cl m) := s in
  Build_PointerState w bs g e d c t b lp sp v cc cl m.
Definition set_was_control_click v (s : PointerState) : PointerState :=
  let '(Build_PointerState w bs g e d c t b lp sp p _ cl m) := s in
  Build_PointerState w bs g e d c t b lp sp p v cl m.
Definition set_cursor_locked v (s : PointerState) : PointerState :=
  let '(Build_PointerState w bs g e d c t b lp sp p cc _ m) := s in
  Build_PointerState w bs g e d c t b lp sp p cc v m.
Definition set_modifiers v (s : PointerState) : PointerState :=
  let '(Build_PointerState w bs g e d c t b lp sp p cc cl _) := s in
  Build_PointerState w bs g e d c t b lp sp p cc cl v.

(** 0xffffffff: no drag in progress. *)
Definition no_button : Z := 4294967295.

(** Modelled from the spec: MCU_abs is declared outside this file; it is the
    absolute value giving the displacement along one axis. *)
Definition MCU_abs (z : Z) : Z := Z.abs z.

(** (1 << b) as it meets the uint32_t button mask, for 0 <= b < 32. *)
Definition button_bit (b : Z) : Z := wrap_uint32 (Z.shiftl 1 b).

(** (m_mouse_buttons & (1 << b)) != 0 *)
Definition button_down (buttons b : Z) : bool :=
  negb (Z.land buttons (button_bit b) =? 0).

(** m_mouse_buttons & ~(1 << b) *)
Definition clear_button (buttons b : Z) : Z :=
  Z.land buttons (wrap_uint32 (Z.lnot (button_bit b))).

Definition valid_button (b : Z) : bool := (0 <=? b) && (b <? 32).

Definition window_eqb (a b : option Window) : bool := bool_decide (a = b).

Definition LockCursor (s : PointerState) : PointerState := set_cursor_locked true s.

(** HandleMouseCursorChange: the choice of the cursor shown inside the window
    is AppKit's and the window's; the trace records that it was reached. *)
Definition HandleMouseCursorChange (p_window : option Window) (s : PointerState)
  : list Notification :=
  if negb (window_eqb (m_mouse_window s) p_window) then []
  else if m_mouse_cursor_locked s then []
  else match p_window with
       | Some w => [UpdateCursor w]
       | None => []
       end.

Definition UnlockCursor (s : PointerState) : PointerState * list Notification :=
  let s := set_cursor_locked false s in
  match m_mouse_window s with
  | None => (s, [ResetCursor])
  | Some w => (s, HandleMouseCursorChange (Some w) s)
  end.

Definition GrabPointer (p_window : option Window) (s : PointerState) : PointerState :=
  if m_mouse_grabbed s && window_eqb p_window (m_mouse_window s)
  then set_grabbed_explicit true s
  else if window_eqb p_window (m_mouse_window s)
  then set_grabbed_explicit true (set_grabbed true s)
  else s.

Definition UngrabPointer (s : PointerState) : PointerState :=
  if negb (m_mouse_buttons s =? 0) then s
  else set_grabbed_explicit false (set_grabbed false s).

(** The test deciding whether a press continues a click sequence. *)
Definition is_multi_click (h : Host) (p_button : Z) (s : PointerState) : bool :=
  (wrap_uint32 (GetEventTime h - m_mouse_last_click_time s) <? MCdoubletime h)
  && (MCU_abs (MCPoint_x (m_mouse_last_click_screen_position s)
               - MCPoint_x (m_mouse_screen_position s)) <? MCdoubledelta h)
  && (MCU_abs (MCPoint_y (m_mouse_last_click_screen_position s)
               - MCPoint_y (m_mouse_screen_position s)) <? MCdoubledelta h)
  && (m_mouse_last_click_button s =? p_button).

(** HandleMousePress. [None] stands for what the source leaves undefined: a
    shift by 32 or more, and the call through a nil m_mouse_window. *)
Definition HandleMousePress (h : Host) (p_button : Z) (p_new_state : bool)
    (s : PointerState) : option (PointerState * list Notification) :=
  if negb (valid_button p_button) then None else
  let t_state := button_down (m_mouse_buttons s) p_button in
  if Bool.eqb p_new_state t_state then Some (s, []) else
  if p_new_state && window_eqb (m_mouse_window s) None then Some (s, []) else
  let s :=
    if p_new_state
    then set_buttons (Z.lor (m_mouse_buttons s) (button_bit p_button)) s
    else set_buttons (clear_button (m_mouse_buttons s) p_button) s in
  let t_grabbed_explicit := m_mouse_grabbed_explicit s in
  let s :=
    if m_mouse_buttons s =? 0
    then set_drag_button no_button (set_grabbed_explicit false (set_grabbed false s))
    else s in
  let s := if negb (m_mouse_buttons s =? 0) then set_grabbed true s else s in
  let control_click :=
    (p_button =? 0)
    && negb (Z.land (m_mouse_modifiers s) (kMCPlatformModifierCommand h) =? 0)
    && p_new_state in
  let s := if control_click then set_was_control_click true s else s in
  let p_button := if control_click then 2 else p_button in
  let p_button :=
    if negb p_new_state && m_mouse_was_control_click s && (p_button =? 0)
    then 2 else p_button in
  match m_mouse_window s with
  | None => None
  | Some w =>
    if p_new_state then
      let s :=
        if is_multi_click h p_button s
        then set_click_count (wrap_uint32 (m_mouse_click_count s + 1)) s
        else set_click_count 0 s in
      let s := set_last_click_button p_button s in
      let s := set_last_click_screen_position (m_mouse_screen_position s) s in
      Some (s, [SendMouseDown w p_button (m_mouse_click_count s)])
    else
      let t_global_pos := MapPointFromWindowToScreen h w (m_mouse_position s) in
      let t_new_mouse_window := GetWindowAtPoint h t_global_pos in
      let s := set_was_control_click false s in
      if window_eqb t_new_mouse_window (m_mouse_window s) || t_grabbed_explicit then
        let s :=
          if p_button =? m_mouse_last_click_button s
          then set_last_click_time (GetEventTime h) s else s in
        Some (s, [SendMouseUp w p_button (m_mouse_click_count s)])
      else
        let s := set_last_click_time 0 (set_click_count 0 s) in
        Some (s, [SendMouseRelease w p_button false])
  end.

(** The window HandleMouseMove settles on before comparing it with
    m_mouse_window. *)
Definition resolve_mouse_window (h : Host) (p_screen_loc : MCPoint)
    (s : PointerState) : option Window :=
  if m_mouse_grabbed s then m_mouse_window s
  else GetWindowAtPoint h p_screen_loc.

Definition send_leave (w : option Window) : list Notification :=
  match w with Some w => [SendMouseLeave w] | None => [] end.
Definition send_enter (w : option Window) : list Notification :=
  match w with Some w => [SendMouseEnter w] | None => [] end.
Definition release_handle (w : option Window) : list Notification :=
  match w with Some w => [Release w] | None => [] end.
Definition retain_handle (w : option Window) : list Notification :=
  match w with Some w => [Retain w] | None => [] end.

(** The body of [if (t_new_mouse_window != m_mouse_window)]. *)
Definition change_mouse_window (t_new_mouse_window : option Window)
    (s : PointerState) : PointerState * list Notification :=
  let leave := send_leave (m_mouse_window s) in
  let enter := send_enter t_new_mouse_window in
  let reset :=
    match t_new_mouse_window with
    | None => if negb (m_mouse_cursor_locked s) then [ResetCursor] else []
    | Some _ => []
    end in
  let released := release_handle (m_mouse_window s) in
  let s := set_window t_new_mouse_window s in
  let retained := retain_handle (m_mouse_window s) in
  (s, leave ++ enter ++ reset ++ released ++ retained).

(** The test for the start of a drag. *)
Definition is_drag_start (h : Host) (p_screen_loc : MCPoint) (s : PointerState) : bool :=
  negb (m_mouse_buttons s =? 0)
  && (m_mouse_drag_button s =? no_button)
  && ((MCU_abs (MCPoint_x p_screen_loc
                - MCPoint_x (m_mouse_last_click_screen_position s)) >=? MCdragdelta h)
      || (MCU_abs (MCPoint_y p_screen_loc
                   - MCPoint_y (m_mouse_last_click_screen_position s)) >=? MCdragdelta h)).

Definition HandleMouseMove (h : Host) (p_screen_loc : MCPoint) (s : PointerState)
  : PointerState * list Notification :=
  let t_new_mouse_window := resolve_mouse_window h p_screen_loc s in
  let t_window_changed := negb (window_eqb t_new_mouse_window (m_mouse_window s)) in
  let '(s, tr_window) :=
    if t_window_changed then change_mouse_window t_new_mouse_window s else (s, []) in
  let s := set_screen_position p_screen_loc s in
  match m_mouse_window s with
  | None => (s, tr_window)
  | Some w =>
    let t_window_loc := MapPointFromScreenToWindow h w p_screen_loc in
    let '(s, tr_move) :=
      if t_window_changed
         || negb (MCPoint_x t_window_loc =? MCPoint_x (m_mouse_position s))
         || negb (MCPoint_y t_window_loc =? MCPoint_y (m_mouse_position s))
      then
        let s := set_position t_window_loc s in
        if is_drag_start h p_screen_loc s
        then
          let s := set_drag_button (m_mouse_last_click_button s) s in
          (s, [SendMouseMove w t_window_loc; SendMouseDrag w (m_mouse_drag_button s)])
        else (s, [SendMouseMove w t_window_loc])
      else (s, []) in
    (s, tr_window ++ tr_move ++ HandleMouseCursorChange (m_mouse_window s) s)
  end.

(** The index reported for button i by HandleMouseSync. *)
Definition sync_button (s : PointerState) (i : Z) : Z :=
  if m_mouse_was_control_click s && (i =? 0) then 2 else i.

(** for (i = ...; i < ...; i++) of HandleMouseSync, [n] iterations from [i]. *)
Fixpoint sync_release_loop (w : Window) (n : nat) (i : Z) (s : PointerState)
  : PointerState * list Notification :=
  match n with
  | O => (s, [])
  | S n' =>
    let '(s, tr) :=
      if button_down (m_mouse_buttons s) i
      then (set_buttons (clear_button (m_mouse_buttons s) i) s,
            [SendMouseRelease w (sync_button s i) true])
      else (s, []) in
    let '(s, tr') := sync_release_loop w n' (i + 1) s in
    (s, tr ++ tr')
  end.

(** The five assignments after the loop of HandleMouseSync. *)
Definition sync_reset (s : PointerState) : PointerState :=
  set_was_control_click false
    (set_last_click_time 0
      (set_click_count 0
        (set_drag_button no_button
          (set_grabbed false s)))).

Definition HandleMouseSync (h : Host) (s : PointerState)
  : PointerState * list Notification :=
  let '(s, tr_release) :=
    match m_mouse_window s with
    | Some w => sync_release_loop w 3 0 s
    | None => (s, [])
    end in
  let s := sync_reset s in
  let t_location := Coord.MapScreenNSPointToMCPoint (GetDesktopHeight h) (mouseLocation h) in
  let '(s, tr_move) := HandleMouseMove h t_location s in
  (s, tr_release ++ tr_move).

(** *** Sequences of pointer operations *)

Inductive PointerOp : Type :=
| OpPress (h : Host) (p_button : Z) (p_new_state : bool)
| OpMove (h : Host) (p_screen_loc : MCPoint)
| OpGrab (p_window : option Window)
| OpUngrab
| OpSync (h : Host).

Definition step (op : PointerOp) (s : PointerState)
  : option (PointerState * list Notification) :=
  match op with
  | OpPress h b st => HandleMousePress h b st s
  | OpMove h p => Some (HandleMouseMove h p s)
  | OpGrab w => Some (GrabPointer w s, [])
  | OpUngrab => Some (UngrabPointer s, [])
  | OpSync h => Some (HandleMouseSync h s)
  end.

(** The state and the notifications after each operation, in order; the
    sequence ends where an operation has no defined outcome. *)
Fixpoint trajectory (ops : list PointerOp) (s : PointerState)
  : list (PointerState * list Notification) :=
  match ops with
  | [] => []
  | op :: ops' =>
    match step op s with
    | None => []
    | Some (s', tr) => (s', tr) :: trajectory ops' s'
    end
  end.

Definition is_sync (op : PointerOp) : bool :=
  match op with OpSync _ => true | _ => false end.

Definition op_valid (op : PointerOp) : bool :=
  match op with OpPress _ b _ => valid_button b | _ => true end.

Definition is_enter_or_leave (n : Notification) : bool :=
  match n with SendMouseEnter _ | SendMouseLeave _ => true | _ => false end.

(** The relation between the grab flags and the button mask. *)
Definition grab_invariant (s : PointerState) : Prop :=
  m_mouse_grabbed s
  = negb (m_mouse_buttons s =? 0) || m_mouse_grabbed_explicit s.

Definition grabbed_has_cause (s : PointerState) : Prop :=
  m_mouse_grabbed s = true ->
  m_mouse_buttons s <> 0 \/ m_mouse_grabbed_explicit s = true.

(** The button index a press is reported with: a primary press with the
    Command modifier bit set is reported as button 2. *)
Definition press_button (h : Host) (p_button : Z) (s : PointerState) : Z :=
  if (p_button =? 0)
     && negb (Z.land (m_mouse_modifiers s) (kMCPlatformModifierCommand h) =? 0)
  then 2 else p_button.

(** The button index a release is reported with. *)
Definition release_button (p_button : Z) (s : PointerState) : Z :=
  if m_mouse_was_control_click s && (p_button =? 0) then 2 else p_button.

(** A press of [button] continues the click sequence: same button as the
    last click, time since the last click below the double-click interval,
    and displacement from it below the double-click radius on both axes. *)
Definition continues_click (h : Host) (button : Z) (s : PointerState) : Prop :=
  m_mouse_last_click_button s = button
  /\ wrap_uint32 (GetEventTime h - m_mouse_last_click_time s) < MCdoubletime h
  /\ Z.abs (MCPoint_x (m_mouse_last_click_screen_position s)
            - MCPoint_x (m_mouse_screen_position s)) < MCdoubledelta h
  /\ Z.abs (MCPoint_y (m_mouse_last_click_screen_position s)
            - MCPoint_y (m_mouse_screen_position s)) < MCdoubledelta h.

(** The window under the pointer as a release looks it up. *)
Definition window_under_pointer (h : Host) (w : Window) (s : PointerState)
  : option Window :=
  GetWindowAtPoint h (MapPointFromWindowToScreen h w (m_mouse_position s)).

(** The drag notifications of a trace, in order. *)
Fixpoint drags (tr : list Notification) : list Notification :=
  match tr with
  | [] => []
  | SendMouseDrag w b :: tr' => SendMouseDrag w b :: drags tr'
  | _ :: tr' => drags tr'
  end.

(** The indices visited by a loop of [n] iterations starting at [i]. *)
Fixpoint loop_indices (n : nat) (i : Z) : list Z :=
  match n with
  | O => []
  | S n' => i :: loop_indices n' (i + 1)
  end.

(** The release HandleMouseSync reports for button [i] of state [s] when
    its bit is set. *)
Definition sync_release (w : Window) (s : PointerState) (i : Z) : list Notification :=
  if Z.testbit (m_mouse_buttons s) i
  then [SendMouseRelease w (sync_button s i) true] else [].

(** The releases HandleMouseSync reports: one for each of the buttons 0, 1
    and 2 that is down, in this order, when there is a mouse window. *)
Definition sync_releases (s : PointerState) : list Notification :=
  match m_mouse_window s with
  | Some w => flat_map (sync_release w s) [0; 1; 2]
  | None => []
  end.

(** The button mask HandleMouseSync leaves: bits 0, 1 and 2 cleared when
    there is a mouse window. *)
Definition sync_buttons (s : PointerState) : Z :=
  match m_mouse_window s with
  | Some _ => Z.ldiff (m_mouse_buttons s) (Z.ones 3)
  | None => m_mouse_buttons s
  end.

Definition is_button_or_move (op : PointerOp) : bool :=
  match op with OpPress _ _ _ | OpMove _ _ => true | _ => false end.

(** The drag notifications of a run, in order. *)
Definition all_drags (run : list (PointerState * list Notification))
  : list Notification :=
  flat_map (fun r => drags r.2) run.

(** A run within one press/release cycle: the button mask is non-zero after
    every step but possibly the last one, where it may return to zero. *)
Fixpoint stays_down (run : list (PointerState * list Notification)) : Prop :=
  match run with
  | [] => True
  | r :: rest =>
    match rest with
    | [] => True
    | _ :: _ => m_mouse_buttons r.1 <> 0 /\ stays_down rest
    end
  end.

(** *** A host and states to run the machine on

    One window, numbered 1, covers the whole screen, its window coordinates
    are the screen's; the mouse is reported at screen point (100, 100) of a
    desktop 900 high; the engine's settings have their default values. *)
Definition example_host : Host := {|
  GetWindowAtPoint := fun _ => Some 1%nat;
  MapPointFromScreenToWindow := fun _ p => p;
  MapPointFromWindowToScreen := fun _ p => p;
  GetEventTime := 1000;
  mouseLocation := Coord.NSMakePoint (Coord.CGFloat_of_int 100) (Coord.CGFloat_of_int 800);
  GetDesktopHeight := Coord.CGFloat_of_int 900;
  MCdoubletime := 250;
  MCdoubledelta := 2;
  MCdragdelta := 4;
  kMCPlatformModifierCommand := 8
|}.

(** No window, no button, no grab. *)
Definition idle_state : PointerState := {|
  m_mouse_window := None;
  m_mouse_buttons := 0;
  m_mouse_grabbed := false;
  m_mouse_grabbed_explicit := false;
  m_mouse_drag_button := no_button;
  m_mouse_click_count := 0;
  m_mouse_last_click_time := 0;
  m_mouse_last_click_button := 0;
  m_mouse_last_click_screen_position := MCPointMake 0 0;
  m_mouse_screen_position := MCPointMake 0 0;
  m_mouse_position := MCPointMake 0 0;
  m_mouse_was_control_click := false;
  m_mouse_cursor_locked := false;
  m_mouse_modifiers := 0
|}.

(** The pointer resting over window 1 at (100, 100). *)
Definition over_window_state : PointerState :=
  (HandleMouseMove example_host (MCPointMake 100 100) idle_state).1.

Definition at_100_100 : MCPoint := MCPointMake 100 100.

(** The example host when window 2 lies over every point of the screen. *)
Definition second_window_host : Host := {|
  GetWindowAtPoint := fun _ => Some 2%nat;
  MapPointFromScreenToWindow := MapPointFromScreenToWindow example_host;
  MapPointFromWindowToScreen := MapPointFromWindowToScreen example_host;
  GetEventTime := GetEventTime example_host;
  mouseLocation := mouseLocation example_host;
  GetDesktopHeight := GetDesktopHeight example_host;
  MCdoubletime := MCdoubletime example_host;
  MCdoubledelta := MCdoubledelta example_host;
  MCdragdelta := MCdragdelta example_host;
  kMCPlatformModifierCommand := kMCPlatformModifierCommand example_host
|}.

(** The flags the grab relation is about. *)
Definition grab_flags (s : PointerState) : bool * Z * bool :=
  (m_mouse_grabbed s, m_mouse_buttons s, m_mouse_grabbed_explicit s).

(** Buttons 0 and 2 down over window 1, after a control-click. *)
Definition two_buttons_state : PointerState :=
  set_was_control_click true (set_grabbed true (set_buttons 5 over_window_state)).

(** The first click of button 0 over window 1, not yet released. *)
Definition pressed_state : PointerState :=
  set_last_click_time 900
    (set_last_click_screen_position at_100_100
      (set_grabbed true (set_buttons 1 over_window_state))).

(** The same click after its release. *)
Definition clicked_state : PointerState :=
  set_last_click_time 900
    (set_last_click_screen_position at_100_100 over_window_state).

(** The state reached by the last step of a run. *)
Definition final_state (run : list (PointerState * list Notification))
  : option PointerState :=
  option_map fst (last run).

(** While a button is down there is a mouse window and the pointer is
    grabbed. *)
Definition down_is_owned (s : PointerState) : Prop :=
  m_mouse_buttons s <> 0 ->
  m_mouse_window s <> None /\ m_mouse_grabbed s = true.

(** The number of drags a run may still send, given the drag latch. *)
Definition drag_allowance (s : PointerState) : nat :=
  if m_mouse_drag_button s =? no_button then 1%nat else 0%nat.

(** Sequences the machine is run on. *)
Definition enter_grab_sync : list PointerOp :=
  [OpMove example_host at_100_100; OpGrab (Some 1%nat); OpSync example_host].

Definition click_with_grab : list PointerOp :=
  [OpMove example_host at_100_100; OpPress example_host 0 true;
   OpGrab (Some 1%nat); OpPress example_host 0 false; OpUngrab].

Definition enter_press_3 : list PointerOp :=
  [OpMove example_host at_100_100; OpPress example_host 3 true].

Definition enter_press_0 : list PointerOp :=
  [OpMove example_host at_100_100; OpPress example_host 0 true].

Definition press_drag_release : list PointerOp :=
  [OpPress example_host 0 true;
   OpMove example_host (MCPointMake 130 100);
   OpMove example_host (MCPointMake 140 100);
   OpPress example_host 0 false].

End Pointer.

(** ** Modal session stack *)

Module Modal.

Definition Window : Type := nat.
Definition NSModalSession : Type := nat.

(** One element of m_modal_sessions; a nil session is [None]. *)
Record MCModalSession : Type := {
  is_done : bool;
  window : Window;
  session : option NSModalSession
}.

Definition set_is_done (v : bool) (e : MCModalSession) : MCModalSession :=
  {| is_done := v; window := window e; session := session e |}.

Inductive ModalEffect : Type :=
| endModalSession (s : option NSModalSession)
| orderOut (w : Window)
| ReleaseWindow (w : Window).

(** The stack is the list of the first m_modal_session_count elements of
    m_modal_sessions, the most recent session last. *)

(** for (t_index = 0; t_index < count; t_index++) if (window == p_window)
    break; the result is the count when no element matches. *)
Fixpoint find_session_index (p_window : Window) (sessions : list MCModalSession) : nat :=
  match sessions with
  | [] => O
  | e :: rest =>
    if Nat.eqb (window e) p_window then O
    else S (find_session_index p_window rest)
  end.

(** The three calls made for an element that is torn down. *)
Definition teardown (e : MCModalSession) : list ModalEffect :=
  [endModalSession (session e); orderOut (window e); ReleaseWindow (window e)].

(** for (t_final_index = ...; t_final_index > 0; t_final_index--) *)
Fixpoint teardown_loop (t_final_index : nat) (sessions : list MCModalSession)
  : list MCModalSession * list ModalEffect :=
  match t_final_index with
  | O => (sessions, [])
  | S i =>
    match sessions !! i with
    | None => (sessions, [])
    | Some e =>
      if negb (is_done e) then (sessions, [])
      else
        let sessions := take (length sessions - 1) sessions in
        let '(sessions, tr) := teardown_loop i sessions in
        (sessions, teardown e ++ tr)
    end
  end.

Definition EndModalSession (p_window : Window) (sessions : list MCModalSession)
  : list MCModalSession * list ModalEffect :=
  let t_index := find_session_index p_window sessions in
  if Nat.eqb t_index (length sessions) then (sessions, [])
  else
    let sessions := alter (set_is_done true) t_index sessions in
    teardown_loop (length sessions) sessions.

Definition done_entry (e : MCModalSession) : Prop := is_done e = true.

(** A stack that is empty or whose most recent element is not complete. *)
Definition top_incomplete (l : list MCModalSession) : Prop :=
  l = [] \/ exists k e, l = k ++ [e] /\ is_done e = false.

End Modal.

(** ** Blocking wait and scheduled callbacks *)

Module Wait.

(** A scheduled callback: the method and its context, by identity. *)
Record MCCallback : Type := { method : nat; context : nat }.

Inductive NSEventType : Type :=
| NSLeftMouseDown | NSLeftMouseDragged | NSLeftMouseUp | NSOtherEventType.

Record NSEvent : Type := { event_type : NSEventType; event_number : nat }.

Inductive Effect : Type :=
| Scheduled (c : MCCallback)
| PostBreakEvent
| RunCallback (c : MCCallback)
| InstallObserver
| nextEventMatchingMask (p_blocking : bool) (p_duration : Q)
| runModalSession (s : Modal.NSModalSession)
| RetainEvent (e : NSEvent)
| ReleaseEvent (e : option NSEvent)
| sendEvent (e : NSEvent).

(** The members of MCMacPlatformCore the wait loop works on.
    m_event_checking_enabled is a uint32_t counter. *)
Record WaitState : Type := {
  m_event_checking_enabled : Z;
  m_wait_broken : bool;
  m_callbacks : list MCCallback;
  m_observer : bool;
  m_in_blocking_wait : bool;
  m_last_mouse_event : option NSEvent;
  m_modal_sessions : list Modal.MCModalSession
}.

Definition set_event_checking_enabled v (s : WaitState) : WaitState :=
  let '(Build_WaitState _ b q o i l m) := s in Build_WaitState v b q o i l m.
Definition set_wait_broken v (s : WaitState) : WaitState :=
  let '(Build_WaitState c _ q o i l m) := s in Build_WaitState c v q o i l m.
Definition set_callbacks v (s : WaitState) : WaitState :=
  let '(Build_WaitState c b _ o i l m) := s in Build_WaitState c b v o i l m.
Definition set_observer v (s : WaitState) : WaitState :=
  let '(Build_WaitState c b q _ i l m) := s in Build_WaitState c b q v i l m.
Definition set_in_blocking_wait v (s : WaitState) : WaitState :=
  let '(Build_WaitState c b q o _ l m) := s in Build_WaitState c b q o v l m.
Definition set_last_mouse_event v (s : WaitState) : WaitState :=
  let '(Build_WaitState c b q o i _ m) := s in Build_WaitState c b q o i v m.
Definition set_modal_sessions v (s : WaitState) : WaitState :=
  let '(Build_WaitState c b q o i l _) := s in Build_WaitState c b q o i l v.

Definition EnableEventChecking (s : WaitState) : WaitState :=
  set_event_checking_enabled (wrap_uint32 (m_event_checking_enabled s + 1)) s.

Definition DisableEventChecking (s : WaitState) : WaitState :=
  set_event_checking_enabled (wrap_uint32 (m_event_checking_enabled s - 1)) s.

Definition IsEventCheckingEnabled (s : WaitState) : bool :=
  m_event_checking_enabled s =? 0.

Definition BreakWait (s : WaitState) : WaitState * list Effect :=
  if m_wait_broken s then (s, [])
  else (set_wait_broken true s, [PostBreakEvent]).

Definition ScheduleCallback (c : MCCallback) (s : WaitState) : WaitState * list Effect :=
  let s := set_callbacks (m_callbacks s ++ [c]) s in
  let '(s, tr) := BreakWait s in
  (s, Scheduled c :: tr).

Section Callbacks.

(** The wait loop for callbacks that do nothing to the platform object but
    schedule callbacks: [schedules c] is what callback c schedules, in
    order. Callbacks that make other calls, WaitForEvent among them, are
    those of [Reentrant] below, of which this is the case [scheduling]. *)
Variable schedules : MCCallback -> list MCCallback.

Fixpoint schedule_all (cs : list MCCallback) (s : WaitState) : WaitState * list Effect :=
  match cs with
  | [] => (s, [])
  | c :: cs' =>
    let '(s, tr) := ScheduleCallback c s in
    let '(s, tr') := schedule_all cs' s in
    (s, tr ++ tr')
  end.

(** for (i = 0; i < t_callback_count; i++) t_callbacks[i].method(context),
    each method scheduling the callbacks [schedules] gives for it. *)
Fixpoint run_callbacks (t_callbacks : list MCCallback) (s : WaitState)
  : WaitState * list Effect :=
  match t_callbacks with
  | [] => (s, [])
  | c :: rest =>
    let '(s, tr) := schedule_all (schedules c) s in
    let '(s, tr') := run_callbacks rest s in
    (s, RunCallback c :: tr ++ tr')
  end.

(** The session run after the event was fetched, if any. *)
Definition modal_to_run (s : WaitState) : list Effect :=
  match last (m_modal_sessions s) with
  | Some e =>
    match Modal.session e with
    | Some ms => [runModalSession ms]
    | None => []
    end
  | None => []
  end.

(** Dispatch of the event that was fetched. *)
Definition dispatch_event (t_event : option NSEvent) (s : WaitState)
  : WaitState * list Effect :=
  match t_event with
  | None => (s, [])
  | Some e =>
    match event_type e with
    | NSLeftMouseDown | NSLeftMouseDragged =>
      (set_last_mouse_event (Some e) s, [RetainEvent e; sendEvent e])
    | NSLeftMouseUp =>
      (set_last_mouse_event None s, [ReleaseEvent (m_last_mouse_event s); sendEvent e])
    | NSOtherEventType => (s, [sendEvent e])
    end
  end.

(** WaitForEvent; [t_event] is what the host's nextEventMatchingMask returns
    to this call. The autorelease pool and m_animation_current_time take no
    part in what follows and are left out. *)
Definition WaitForEvent (p_duration : Q) (p_blocking : bool)
    (t_event : option NSEvent) (s : WaitState) : bool * WaitState * list Effect :=
  if negb (IsEventCheckingEnabled s) then (false, s, []) else
  let s := set_wait_broken false s in
  let t_callbacks := m_callbacks s in
  let s := set_callbacks [] s in
  let '(s, tr_callbacks) := run_callbacks t_callbacks s in
  let '(s, tr_observer) :=
    if m_observer s then (s, []) else (set_observer true s, [InstallObserver]) in
  let s := set_in_blocking_wait true s in
  let tr_next := [nextEventMatchingMask p_blocking p_duration] in
  let tr_modal := modal_to_run s in
  let s := set_in_blocking_wait false s in
  let '(s, tr_event) := dispatch_event t_event s in
  (bool_decide (t_event <> None), s,
   tr_callbacks ++ tr_observer ++ tr_next ++ tr_modal ++ tr_event).

Inductive WaitOp : Type :=
| OpSchedule (c : MCCallback)
| OpWait (p_duration : Q) (p_blocking : bool) (t_event : option NSEvent)
| OpEnable
| OpDisable
| OpBreak.

Definition wait_step (op : WaitOp) (s : WaitState) : WaitState * list Effect :=
  match op with
  | OpSchedule c => ScheduleCallback c s
  | OpWait d b e => let '(_, s, tr) := WaitForEvent d b e s in (s, tr)
  | OpEnable => (EnableEventChecking s, [])
  | OpDisable => (DisableEventChecking s, [])
  | OpBreak => BreakWait s
  end.

Fixpoint wait_run (ops : list WaitOp) (s : WaitState) : WaitState * list Effect :=
  match ops with
  | [] => (s, [])
  | op :: ops' =>
    let '(s, tr) := wait_step op s in
    let '(s, tr') := wait_run ops' s in
    (s, tr ++ tr')
  end.

End Callbacks.

(** The callbacks a trace shows as submitted, and as executed, in order. *)
Fixpoint submitted (tr : list Effect) : list MCCallback :=
  match tr with
  | [] => []
  | Scheduled c :: tr' => c :: submitted tr'
  | _ :: tr' => submitted tr'
  end.

Fixpoint executed (tr : list Effect) : list MCCallback :=
  match tr with
  | [] => []
  | RunCallback c :: tr' => c :: executed tr'
  | _ :: tr' => executed tr'
  end.

Definition is_next_event (e : Effect) : bool :=
  match e with nextEventMatchingMask _ _ => true | _ => false end.

(** An operation that only appends to the queue: it runs no callback and
    fetches no event. *)
Record queue_only (s s' : WaitState) (tr : list Effect) : Prop := {
  qo_executed : executed tr = [];
  qo_queue : m_callbacks s' = m_callbacks s ++ submitted tr;
  qo_next : forallb (fun e => negb (is_next_event e)) tr = true;
  qo_observer : m_observer s' = m_observer s;
  qo_sessions : m_modal_sessions s' = m_modal_sessions s;
  qo_last : m_last_mouse_event s' = m_last_mouse_event s
}.

(** EnableEventChecking calls minus DisableEventChecking calls. *)
Fixpoint enable_balance (ops : list WaitOp) : Z :=
  match ops with
  | [] => 0
  | OpEnable :: ops' => 1 + enable_balance ops'
  | OpDisable :: ops' => enable_balance ops' - 1
  | _ :: ops' => enable_balance ops'
  end.

(** A state with nothing queued and event checking on. *)
Definition quiet_state : WaitState := {|
  m_event_checking_enabled := 0;
  m_wait_broken := false;
  m_callbacks := [];
  m_observer := false;
  m_in_blocking_wait := false;
  m_last_mouse_event := None;
  m_modal_sessions := []
|}.

(** Two callbacks queued after one EnableEventChecking call. *)
Definition checking_off_state : WaitState :=
  set_callbacks [{| method := 1; context := 10 |}; {| method := 2; context := 20 |}]
    (EnableEventChecking quiet_state).

Definition callback_a : MCCallback := {| method := 1; context := 10 |}.
Definition callback_b : MCCallback := {| method := 2; context := 20 |}.
Definition callback_c : MCCallback := {| method := 3; context := 30 |}.

(** Callback a schedules callback c when it runs; the others schedule
    nothing. *)
Definition a_schedules_c (c : MCCallback) : list MCCallback :=
  if Nat.eqb (method c) 1 then [callback_c] else [].

End Wait.

(** ** Callbacks that call back into the wait loop *)

Module Reentrant.
Import Wait.

Section Callbacks.

(** What calling a callback's method does to the platform object: the calls
    it makes on it, in order. A callback may call WaitForEvent itself; the
    event of an [OpWait] is what the host hands to that call. *)
Variable behaviour : MCCallback -> list WaitOp.

Section Calls.

(** The call t_callbacks[i].method(t_callbacks[i].context), where it
    returns. *)
Variable call : MCCallback -> WaitState -> option (WaitState * list Effect).

(** for (i = 0; i < t_callback_count; i++) t_callbacks[i].method(context) *)
Fixpoint run_callbacks (t_callbacks : list MCCallback) (s : WaitState)
  : option (WaitState * list Effect) :=
  match t_callbacks with
  | [] => Some (s, [])
  | c :: rest =>
    match call c s with
    | None => None
    | Some (s, tr) =>
      match run_callbacks rest s with
      | None => None
      | Some (s, tr') => Some (s, RunCallback c :: tr ++ tr')
      end
    end
  end.

(** WaitForEvent; [t_event] is what the host's nextEventMatchingMask returns
    to this call. *)
Definition WaitForEvent (p_duration : Q) (p_blocking : bool)
    (t_event : option NSEvent) (s : WaitState)
  : option (bool * WaitState * list Effect) :=
  if negb (IsEventCheckingEnabled s) then Some (false, s, []) else
  let s := set_wait_broken false s in
  let t_callbacks := m_callbacks s in
  let s := set_callbacks [] s in
  match run_callbacks t_callbacks s with
  | None => None
  | Some (s, tr_callbacks) =>
    let '(s, tr_observer) :=
      if m_observer s then (s, []) else (set_observer true s, [InstallObserver]) in
    let s := set_in_blocking_wait true s in
    let tr_next := [nextEventMatchingMask p_blocking p_duration] in
    let tr_modal := modal_to_run s in
    let s := set_in_blocking_wait false s in
    let '(s, tr_event) := dispatch_event t_event s in
    Some (bool_decide (t_event <> None), s,
          tr_callbacks ++ tr_observer ++ tr_next ++ tr_modal ++ tr_event)
  end.

Definition wait_step (op : WaitOp) (s : WaitState) : option (WaitState * list Effect) :=
  match op with
  | OpSchedule c => Some (ScheduleCallback c s)
  | OpWait d b e =>
    match WaitForEvent d b e s with
    | Some (_, s, tr) => Some (s, tr)
    | None => None
    end
  | OpEnable => Some (EnableEventChecking s, [])
  | OpDisable => Some (DisableEventChecking s, [])
  | OpBreak => Some (BreakWait s)
  end.

Fixpoint wait_run (ops : list WaitOp) (s : WaitState) : option (WaitState * list Effect) :=
  match ops with
  | [] => Some (s, [])
  | op :: ops' =>
    match wait_step op s with
    | None => None
    | Some (s, tr) =>
      match wait_run ops' s with
      | None => None
      | Some (s, tr') => Some (s, tr ++ tr')
      end
    end
  end.

End Calls.

(** The call of a callback's method, with calls of callbacks nested at most
    [fuel] deep below it. *)
Fixpoint call_callback (fuel : nat) (c : MCCallback) (s : WaitState)
  : option (WaitState * list Effect) :=
  match fuel with
  | O => None
  | S fuel' => wait_run (call_callback fuel') (behaviour c) s
  end.

(** A sequence of calls made from outside any callback. *)
Definition run (fuel : nat) (ops : list WaitOp) (s : WaitState)
  : option (WaitState * list Effect) :=
  wait_run (call_callback fuel) ops s.

End Callbacks.

(** The callbacks a sequence of calls hands to ScheduleCallback, in order. *)
Definition requests (ops : list WaitOp) : list MCCallback :=
  flat_map (fun op => match op with OpSchedule c => [c] | _ => [] end) ops.

Definition is_wait (op : WaitOp) : bool :=
  match op with OpWait _ _ _ => true | _ => false end.

(** The callback queue as the specification describes it: a callback is
    submitted at the back of the queue, and a WaitForEvent call that passes
    the event-checking test runs the callbacks of the queue front to back,
    each once. *)
Record Fifo : Type := {
  fifo_pending : list MCCallback;
  fifo_checking : Z;
  fifo_executed : list MCCallback;
  fifo_submitted : list MCCallback
}.

(** A call other than WaitForEvent. *)
Definition fifo_call (q : Fifo) (op : WaitOp) : Fifo :=
  match op with
  | OpSchedule c =>
    {| fifo_pending := fifo_pending q ++ [c];
       fifo_checking := fifo_checking q;
       fifo_executed := fifo_executed q;
       fifo_submitted := fifo_submitted q ++ [c] |}
  | OpEnable =>
    {| fifo_pending := fifo_pending q;
       fifo_checking := wrap_uint32 (fifo_checking q + 1);
       fifo_executed := fifo_executed q;
       fifo_submitted := fifo_submitted q |}
  | OpDisable =>
    {| fifo_pending := fifo_pending q;
       fifo_checking := wrap_uint32 (fifo_checking q - 1);
       fifo_executed := fifo_executed q;
       fifo_submitted := fifo_submitted q |}
  | OpBreak | OpWait _ _ _ => q
  end.

Section Discipline.

Variable behaviour : MCCallback -> list WaitOp.

(** Running a callback that does not wait: it is executed, and what it
    submits joins the queue. *)
Definition fifo_execute (q : Fifo) (c : MCCallback) : Fifo :=
  fold_left fifo_call (behaviour c)
    {| fifo_pending := fifo_pending q;
       fifo_checking := fifo_checking q;
       fifo_executed := fifo_executed q ++ [c];
       fifo_submitted := fifo_submitted q |}.

Definition fifo_wait (q : Fifo) : Fifo :=
  if fifo_checking q =? 0 then
    fold_left fifo_execute (fifo_pending q)
      {| fifo_pending := [];
         fifo_checking := fifo_checking q;
         fifo_executed := fifo_executed q;
         fifo_submitted := fifo_submitted q |}
  else q.

Definition fifo_step (q : Fifo) (op : WaitOp) : Fifo :=
  match op with
  | OpWait _ _ _ => fifo_wait q
  | _ => fifo_call q op
  end.

Definition fifo_run (ops : list WaitOp) (q : Fifo) : Fifo := fold_left fifo_step ops q.

End Discipline.

(** The queue of a state, nothing executed or submitted yet. *)
Definition fifo_start (s : WaitState) : Fifo :=
  {| fifo_pending := m_callbacks s;
     fifo_checking := m_event_checking_enabled s;
     fifo_executed := [];
     fifo_submitted := [] |}.

(** Callback a schedules callback c and returns; the others do nothing. *)
Definition a_submits_c (c : MCCallback) : list WaitOp :=
  if Nat.eqb (method c) 1 then [OpSchedule callback_c] else [].

(** Callback a schedules callback c and waits for an event; the others do
    nothing. *)
Definition a_waits (c : MCCallback) : list WaitOp :=
  if Nat.eqb (method c) 1 then [OpSchedule callback_c; OpWait 0 false None] else [].

(** a and b are scheduled, then WaitForEvent is called. *)
Definition schedule_a_b_wait : list WaitOp :=
  [OpSchedule callback_a; OpSchedule callback_b; OpWait 0 false None].

(** The queue and the counter of a state are those of the discipline. *)
Definition fifo_matches (q : Fifo) (s : WaitState) : Prop :=
  fifo_pending q = m_callbacks s /\ fifo_checking q = m_event_checking_enabled s.

Definition no_next_event (tr : list Effect) : Prop :=
  forallb (fun e => negb (is_next_event e)) tr = true.

(** A callback that does nothing to the platform object but schedule
    callbacks. *)
Definition scheduling (schedules : MCCallback -> list MCCallback) (c : MCCallback)
  : list WaitOp :=
  map OpSchedule (schedules c).

End Reentrant.

(** ** The bytecode runner (toolchain/lc-compile/src/lc-run.cpp) *)

Module LcRun.

(** Possible exit statuses used by lc-run. *)
Definition kMCRunExitStatusSuccess : Z := 0.
Definition kMCRunExitStatusStartup : Z := 124.
Definition kMCRunExitStatusBadArgs : Z := 125.
Definition kMCRunExitStatusUncaughtError : Z := 126.

(** What is printed on stderr, by the function that prints it. *)
Inductive Message : Type :=
| Usage
| UnknownOption (p_arg : string)
| NoFilename
| StartupError (t_reason : string)
| UncaughtError (t_reason : string).

(** The foundation library as MCRunParseCommandLine and main use it: whether
    each call succeeds, the captured arguments, and the message of the
    pending error if there is one. *)
Record Library : Type := {
  MCSCommandLineCapture : bool;
  MCProperListCreateMutable : bool;
  MCSCommandLineGetArguments : option (list string);
  MCProperListPushElementOntoBack : list string -> string -> bool;
  MCSCommandLineSetName : string -> bool;
  MCSCommandLineSetArguments : list string -> bool;
  MCErrorCatch : option string;
  MCSFileGetContents : string -> bool;
  MCMemoryInputStreamCreate : string -> bool;
  MCScriptCreateModuleFromStream : string -> bool;
  MCScriptEnsureModuleIsUsable : string -> bool;
  MCScriptCreateInstanceOfModule : string -> bool;
  MCScriptCallHandlerOfInstance : string -> list string -> bool
}.

(** How a call ends: the process exits, or the function returns. *)
Inductive Outcome (A : Type) : Type :=
| Exit (status : Z) (stderr : list Message)
| Return (value : A).
Arguments Exit {A} status stderr.
Arguments Return {A} value.

(** MCRunUsage prints the usage and exits. *)
Definition MCRunUsage {A : Type} (p_exit_status : Z) (printed : list Message)
  : Outcome A :=
  Exit p_exit_status (printed ++ [Usage]).

Definition MCRunBadOptionError {A : Type} (p_arg : string) : Outcome A :=
  MCRunUsage kMCRunExitStatusBadArgs [UnknownOption p_arg].

Definition error_reason (lib : Library) : string :=
  match MCErrorCatch lib with
  | Some t_reason => t_reason
  | None => "Unknown error"%string
  end.

Definition MCRunStartupError {A : Type} (lib : Library) : Outcome A :=
  Exit kMCRunExitStatusStartup [StartupError (error_reason lib)].

Definition MCRunHandlerError {A : Type} (lib : Library) : Outcome A :=
  Exit kMCRunExitStatusUncaughtError [UncaughtError (error_reason lib)].

(** The locals of MCRunParseCommandLine that the loop updates. *)
Record ParseState : Type := {
  t_have_filename : bool;
  t_accept_options : bool;
  t_filename : string;
  t_args : list string
}.

(** The for loop of MCRunParseCommandLine over the remaining raw arguments;
    [Return None] is the function's [return false]. *)
Fixpoint parse_loop (lib : Library) (t_raw_args : list string) (st : ParseState)
  : Outcome (option ParseState) :=
  match t_raw_args with
  | [] => Return (Some st)
  | t_arg :: rest =>
    let after_options :=
      fun _ : unit =>
        if negb (t_have_filename st)
        then parse_loop lib rest
               {| t_have_filename := true; t_accept_options := false;
                  t_filename := t_arg; t_args := t_args st |}
        else if negb (MCProperListPushElementOntoBack lib (t_args st) t_arg)
        then Return None
        else parse_loop lib rest
               {| t_have_filename := t_have_filename st;
                  t_accept_options := t_accept_options st;
                  t_filename := t_filename st;
                  t_args := t_args st ++ [t_arg] |} in
    if t_accept_options st then
      if (t_arg =? "--help")%string || (t_arg =? "-h")%string
      then MCRunUsage kMCRunExitStatusSuccess []
      else if (t_arg =? "--")%string
      then parse_loop lib rest
             {| t_have_filename := t_have_filename st; t_accept_options := false;
                t_filename := t_filename st; t_args := t_args st |}
      else if String.prefix "-" t_arg
      then MCRunBadOptionError t_arg
      else after_options tt
    else after_options tt
  end.

(** What a successful parse leaves: x_config.m_filename, and the command
    name and arguments set for the script. *)
Record MCRunConfiguration : Type := {
  m_filename : string;
  command_name : string;
  command_arguments : list string
}.

(** MCRunParseCommandLine; [Return None] is [return false]. *)
Definition MCRunParseCommandLine (lib : Library) : Outcome (option MCRunConfiguration) :=
  if negb (MCSCommandLineCapture lib) then Return None else
  if negb (MCProperListCreateMutable lib) then Return None else
  match MCSCommandLineGetArguments lib with
  | None => Return None
  | Some t_raw_args =>
    match parse_loop lib t_raw_args
            {| t_have_filename := false; t_accept_options := true;
               t_filename := ""%string; t_args := [] |} with
    | Exit status printed => Exit status printed
    | Return None => Return None
    | Return (Some st) =>
      if negb (t_have_filename st)
      then MCRunUsage kMCRunExitStatusBadArgs [NoFilename]
      else if negb (MCSCommandLineSetName lib (t_filename st)) then Return None
      else if negb (MCSCommandLineSetArguments lib (t_args st)) then Return None
      else Return (Some {| m_filename := t_filename st;
                           command_name := t_filename st;
                           command_arguments := t_args st |})
    end
  end.

(** MCRunLoadModule: the four steps, each on the named file. *)
Definition MCRunLoadModule (lib : Library) (p_filename : string) : bool :=
  if negb (MCSFileGetContents lib p_filename) then false
  else if negb (MCMemoryInputStreamCreate lib p_filename) then false
  else if negb (MCScriptCreateModuleFromStream lib p_filename) then false
  else if negb (MCScriptEnsureModuleIsUsable lib p_filename) then false
  else true.

(** main: the exit status and what was printed on stderr. *)
Definition main (lib : Library) : Z * list Message :=
  match MCRunParseCommandLine lib with
  | Exit status printed => (status, printed)
  | Return None =>
    (kMCRunExitStatusStartup, [StartupError (error_reason lib)])
  | Return (Some t_config) =>
    if negb (MCRunLoadModule lib (m_filename t_config))
    then (kMCRunExitStatusStartup, [StartupError (error_reason lib)])
    else if negb (MCScriptCreateInstanceOfModule lib (m_filename t_config))
    then (kMCRunExitStatusStartup, [StartupError (error_reason lib)])
    else if negb (MCScriptCallHandlerOfInstance lib (m_filename t_config)
                    (command_arguments t_config))
    then (kMCRunExitStatusUncaughtError, [UncaughtError (error_reason lib)])
    else (0, [])
  end.

(** The outcome of the argument loop read off the first raw arguments. *)
Definition parse_by_first_argument (t_raw_args : list string)
  : Outcome (string * list string) :=
  match t_raw_args with
  | [] => MCRunUsage kMCRunExitStatusBadArgs [NoFilename]
  | t_arg :: rest =>
    if (t_arg =? "--help")%string || (t_arg =? "-h")%string
    then MCRunUsage kMCRunExitStatusSuccess []
    else if (t_arg =? "--")%string
    then match rest with
         | [] => MCRunUsage kMCRunExitStatusBadArgs [NoFilename]
         | filename :: arguments => Return (filename, arguments)
         end
    else if String.prefix "-" t_arg
    then MCRunBadOptionError t_arg
    else Return (t_arg, rest)
  end.

(** A library none of whose calls fails while the arguments are parsed. *)
Definition parsing_succeeds (lib : Library) (t_raw_args : list string) : Prop :=
  MCSCommandLineCapture lib = true
  /\ MCProperListCreateMutable lib = true
  /\ MCSCommandLineGetArguments lib = Some t_raw_args
  /\ (forall l a, MCProperListPushElementOntoBack lib l a = true)
  /\ (forall n, MCSCommandLineSetName lib n = true)
  /\ (forall l, MCSCommandLineSetArguments lib l = true).

(** A library whose calls all succeed, with the given raw arguments. *)
Definition working_library (t_raw_args : list string) : Library := {|
  MCSCommandLineCapture := true;
  MCProperListCreateMutable := true;
  MCSCommandLineGetArguments := Some t_raw_args;
  MCProperListPushElementOntoBack := fun _ _ => true;
  MCSCommandLineSetName := fun _ => true;
  MCSCommandLineSetArguments := fun _ => true;
  MCErrorCatch := None;
  MCSFileGetContents := fun _ => true;
  MCMemoryInputStreamCreate := fun _ => true;
  MCScriptCreateModuleFromStream := fun _ => true;
  MCScriptEnsureModuleIsUsable := fun _ => true;
  MCScriptCreateInstanceOfModule := fun _ => true;
  MCScriptCallHandlerOfInstance := fun _ _ => true
|}.

End LcRun.

(** ** More of the pointer state machine *)

Module PointerMore.
Import Pointer.

(** SyncMouseBeforeDragging. *)
Definition SyncMouseBeforeDragging (s : PointerState)
  : PointerState * list Notification :=
  let '(s, t_button_to_release) :=
    if negb (m_mouse_buttons s =? 0) then
      let t_button_to_release := m_mouse_drag_button s in
      let t_button_to_release :=
        if t_button_to_release =? no_button
        then m_mouse_last_click_button s else t_button_to_release in
      (set_was_control_click false
         (set_drag_button no_button
            (set_last_click_time 0
               (set_click_count 0
                  (set_grabbed false
                     (set_buttons 0 s))))),
       t_button_to_release)
    else (s, no_button) in
  match m_mouse_window s with
  | Some w =>
    let tr_release :=
      if negb (t_button_to_release =? no_button)
      then [SendMouseRelease w t_button_to_release false] else [] in
    (set_window None s, tr_release ++ [SendMouseLeave w] ++ [Release w])
  | None => (s, [])
  end.

Definition HandleMouseAfterWindowHidden (h : Host) (s : PointerState)
  : PointerState * list Notification :=
  HandleMouseMove h (m_mouse_screen_position s) s.

(** HandleModifiersChanged: the state and the masks sent with
    SendModifiersChanged. *)
Definition HandleModifiersChanged (p_modifiers : Z) (s : PointerState)
  : PointerState * list Z :=
  if negb (m_mouse_modifiers s =? p_modifiers)
  then (set_modifiers p_modifiers s, [p_modifiers])
  else (s, []).

Fixpoint modifiers_run (masks : list Z) (s : PointerState) : PointerState * list Z :=
  match masks with
  | [] => (s, [])
  | m :: masks' =>
    let '(s, sent) := HandleModifiersChanged m s in
    let '(s, sent') := modifiers_run masks' s in
    (s, sent ++ sent')
  end.

(** A list of masks without the elements equal to their predecessor, the
    predecessor of the first being [previous]. *)
Fixpoint without_repeats (previous : Z) (masks : list Z) : list Z :=
  match masks with
  | [] => []
  | m :: masks' =>
    if previous =? m then without_repeats previous masks'
    else m :: without_repeats m masks'
  end.

(** *** Sequences with the further operations *)

Inductive Operation : Type :=
| Basic (op : PointerOp)
| OpSyncBeforeDragging
| OpAfterWindowHidden (h : Host)
| OpLockCursor
| OpUnlockCursor.

Definition run_operation (op : Operation) (s : PointerState)
  : option (PointerState * list Notification) :=
  match op with
  | Basic op => step op s
  | OpSyncBeforeDragging => Some (SyncMouseBeforeDragging s)
  | OpAfterWindowHidden h => Some (HandleMouseAfterWindowHidden h s)
  | OpLockCursor => Some (LockCursor s, [])
  | OpUnlockCursor => Some (UnlockCursor s)
  end.

(** The states and notifications after each operation; the run ends where
    an operation has no defined outcome. *)
Fixpoint run (ops : list Operation) (s : PointerState)
  : list (PointerState * list Notification) :=
  match ops with
  | [] => []
  | op :: ops' =>
    match run_operation op s with
    | None => []
    | Some (s', tr) => (s', tr) :: run ops' s'
    end
  end.

(** Everything sent during a run, in order. *)
Definition sent (r : list (PointerState * list Notification)) : list Notification :=
  flat_map snd r.

(** The state a run ends in. *)
Definition end_state (s : PointerState) (r : list (PointerState * list Notification))
  : PointerState :=
  match last r with
  | Some (s', _) => s'
  | None => s
  end.

Definition is_unlock (op : Operation) : bool :=
  match op with OpUnlockCursor => true | _ => false end.

Definition is_cursor_change (n : Notification) : bool :=
  match n with ResetCursor | UpdateCursor _ => true | _ => false end.

(** A notification that opens (true) or closes (false) something held for a
    window. *)
Definition enter_leave (n : Notification) : option (bool * Window) :=
  match n with
  | SendMouseEnter w => Some (true, w)
  | SendMouseLeave w => Some (false, w)
  | _ => None
  end.

Definition retain_release (n : Notification) : option (bool * Window) :=
  match n with
  | Retain w => Some (true, w)
  | Release w => Some (false, w)
  | _ => None
  end.

(** Reading a trace from the holder [current]: an opening is accepted only
    while nothing is held, a closing only for the window that is held. The
    result is the holder at the end, or [None] when the trace is refused. *)
Fixpoint alternates (kind : Notification -> option (bool * Window))
    (current : option Window) (tr : list Notification) : option (option Window) :=
  match tr with
  | [] => Some current
  | n :: tr' =>
    match kind n with
    | None => alternates kind current tr'
    | Some (true, w) =>
      match current with
      | None => alternates kind (Some w) tr'
      | Some _ => None
      end
    | Some (false, w) =>
      if window_eqb current (Some w) then alternates kind None tr' else None
    end
  end.

(** A trace with no cursor change, enter, leave, retain or release. *)
Definition quiet (tr : list Notification) : Prop :=
  forallb (fun n => negb (is_cursor_change n)) tr = true
  /\ (forall kind c, (kind = enter_leave \/ kind = retain_release) ->
        alternates kind c tr = Some c).

(** The number of SendMouseDown, and of SendMouseUp and SendMouseRelease. *)
Fixpoint count_downs (tr : list Notification) : nat :=
  match tr with
  | [] => O
  | SendMouseDown _ _ _ :: tr' => S (count_downs tr')
  | _ :: tr' => count_downs tr'
  end.

Fixpoint count_ups (tr : list Notification) : nat :=
  match tr with
  | [] => O
  | SendMouseUp _ _ _ :: tr' => S (count_ups tr')
  | SendMouseRelease _ _ _ :: tr' => S (count_ups tr')
  | _ :: tr' => count_ups tr'
  end.

(** The number of bits set in the button mask among [n] bits from bit [i]. *)
Fixpoint bits_set (n : nat) (i : Z) (buttons : Z) : nat :=
  match n with
  | O => O
  | S n' => (if Z.testbit buttons i then 1 else 0) + bits_set n' (i + 1) buttons
  end.

Definition buttons_down (buttons : Z) : nat := bits_set 32 0 buttons.

Definition is_sync_before_dragging (op : Operation) : bool :=
  match op with OpSyncBeforeDragging => true | _ => false end.

Definition is_window_change (n : Notification) : bool :=
  match n with
  | SendMouseEnter _ | SendMouseLeave _ | Retain _ | Release _ => true
  | _ => false
  end.

(** The cursor locked with the pointer over window 1. *)
Definition locked_state : PointerState := LockCursor over_window_state.

Definition drag_out_while_locked : list Operation :=
  [Basic (OpMove example_host (MCPointMake 130 100));
   Basic (OpPress example_host 0 true);
   OpSyncBeforeDragging;
   Basic (OpSync example_host)].

Definition two_presses_then_sync : list Operation :=
  [Basic (OpPress example_host 0 true);
   Basic (OpPress example_host 3 true);
   Basic (OpPress example_host 0 false);
   Basic (OpPress example_host 1 true);
   Basic (OpSync example_host)].

(** The example host with no window under any point. *)
Definition empty_host : Host := {|
  GetWindowAtPoint := fun _ => None;
  MapPointFromScreenToWindow := MapPointFromScreenToWindow example_host;
  MapPointFromWindowToScreen := MapPointFromWindowToScreen example_host;
  GetEventTime := GetEventTime example_host;
  mouseLocation := mouseLocation example_host;
  GetDesktopHeight := GetDesktopHeight example_host;
  MCdoubletime := MCdoubletime example_host;
  MCdoubledelta := MCdoubledelta example_host;
  MCdragdelta := MCdragdelta example_host;
  kMCPlatformModifierCommand := kMCPlatformModifierCommand example_host
|}.

(** Button 3 down over window 1. *)
Definition button_3_state : PointerState :=
  set_grabbed true (set_buttons 8 over_window_state).

Definition click_and_grab : list PointerOp :=
  [OpMove example_host at_100_100; OpPress example_host 4 true;
   OpGrab (Some 1%nat); OpMove example_host (MCPointMake 2000 100);
   OpPress example_host 4 false; OpUngrab].

(** The example host at event time [t]. *)
Definition host_at (t : Z) : Host := {|
  GetWindowAtPoint := GetWindowAtPoint example_host;
  MapPointFromScreenToWindow := MapPointFromScreenToWindow example_host;
  MapPointFromWindowToScreen := MapPointFromWindowToScreen example_host;
  GetEventTime := t;
  mouseLocation := mouseLocation example_host;
  GetDesktopHeight := GetDesktopHeight example_host;
  MCdoubletime := MCdoubletime example_host;
  MCdoubledelta := MCdoubledelta example_host;
  MCdragdelta := MCdragdelta example_host;
  kMCPlatformModifierCommand := kMCPlatformModifierCommand example_host
|}.

(** Window 1 holds an explicit grab, no button down. *)
Definition grabbed_over_window_state : PointerState :=
  GrabPointer (Some 1%nat) over_window_state.

End PointerMore.

(** ** Modal sessions with their beginning *)

Module ModalMore.
Import Modal.

(** What BeginModalSession and EndModalSession do outside the stack: the
    notifications of the pointer synchronization, the reference counting of
    the window, the frame lock and the calls to NSApp. *)
Inductive Effect : Type :=
| Mouse (n : Pointer.Notification)
| RetainWindow (w : Window)
| SetFrameLocked (w : Window) (locked : bool)
| beginModalSessionForWindow (w : Window)
| Ending (e : ModalEffect).

(** The members of MCMacPlatformCore the two functions work on. *)
Record Core : Type := {
  pointer : Pointer.PointerState;
  m_modal_sessions : list MCModalSession
}.

(** BeginModalSession; [session] is what beginModalSessionForWindow returns.
    The array is resized by one (the source does not check the result). *)
Definition BeginModalSession (session : option NSModalSession) (p_window : Window)
    (c : Core) : Core * list Effect :=
  let '(p, tr) := PointerMore.SyncMouseBeforeDragging (pointer c) in
  ({| pointer := p;
      m_modal_sessions :=
        m_modal_sessions c
        ++ [{| is_done := false; window := p_window; session := session |}] |},
   map Mouse tr
   ++ [RetainWindow p_window; SetFrameLocked p_window true;
       beginModalSessionForWindow p_window; SetFrameLocked p_window false]).

Definition EndModalSession (p_window : Window) (c : Core) : Core * list Effect :=
  let '(l, tr) := Modal.EndModalSession p_window (m_modal_sessions c) in
  ({| pointer := pointer c; m_modal_sessions := l |}, map Ending tr).

Inductive ModalOp : Type :=
| OpBegin (session : option NSModalSession) (p_window : Window)
| OpEnd (p_window : Window).

Definition modal_step (op : ModalOp) (c : Core) : Core * list Effect :=
  match op with
  | OpBegin session w => BeginModalSession session w c
  | OpEnd w => EndModalSession w c
  end.

(** A sequence of calls: the final state and everything done, in order. *)
Fixpoint modal_run (ops : list ModalOp) (c : Core) : Core * list Effect :=
  match ops with
  | [] => (c, [])
  | op :: ops' =>
    let '(c, tr) := modal_step op c in
    let '(c, tr') := modal_run ops' c in
    (c, tr ++ tr')
  end.

Definition is_retain (e : Effect) : bool :=
  match e with RetainWindow _ => true | _ => false end.

Definition is_release (e : Effect) : bool :=
  match e with Ending (ReleaseWindow _) => true | _ => false end.

Definition is_end_session (e : Effect) : bool :=
  match e with Ending (endModalSession _) => true | _ => false end.

Definition is_begin_session (e : Effect) : bool :=
  match e with beginModalSessionForWindow _ => true | _ => false end.

(** EndModalSession called [n] times for the same window. *)
Fixpoint end_repeatedly (n : nat) (w : Window) (l : list MCModalSession)
  : list MCModalSession * list ModalEffect :=
  match n with
  | O => (l, [])
  | S n' =>
    let '(l, tr) := Modal.EndModalSession w l in
    let '(l, tr') := end_repeatedly n' w l in
    (l, tr ++ tr')
  end.

Definition session_A : MCModalSession :=
  {| is_done := false; window := 1%nat; session := Some 11%nat |}.

Definition core_with_A : Core :=
  {| pointer := Pointer.pressed_state; m_modal_sessions := [session_A] |}.

Definition nested_sessions : list ModalOp :=
  [OpBegin (Some 12%nat) 2%nat; OpBegin (Some 13%nat) 3%nat;
   OpEnd 2%nat; OpEnd 3%nat].

End ModalMore.

(** ** More on the wait loop *)

Module WaitMore.
Import Wait.

Definition is_wait (op : WaitOp) : bool :=
  match op with OpWait _ _ _ => true | _ => false end.

(** The calls that reach BreakWait. *)
Definition breaks_wait (op : WaitOp) : bool :=
  match op with OpSchedule _ | OpBreak => true | _ => false end.

Definition is_post_break (e : Effect) : bool :=
  match e with PostBreakEvent => true | _ => false end.

Definition is_install (e : Effect) : bool :=
  match e with InstallObserver => true | _ => false end.

(** What scheduling and running callbacks leaves in a trace. *)
Definition is_callback_effect (e : Effect) : bool :=
  match e with Scheduled _ | PostBreakEvent | RunCallback _ => true | _ => false end.

(** The events retained, and the arguments of the releases, in order. *)
Fixpoint retained (tr : list Effect) : list NSEvent :=
  match tr with
  | [] => []
  | RetainEvent e :: tr' => e :: retained tr'
  | _ :: tr' => retained tr'
  end.

Fixpoint released (tr : list Effect) : list (option NSEvent) :=
  match tr with
  | [] => []
  | ReleaseEvent e :: tr' => e :: released tr'
  | _ :: tr' => released tr'
  end.

(** One WaitForEvent call for each event of the list, each call fetching its
    event. *)
Definition fetch_each (p_duration : Q) (p_blocking : bool) (events : list NSEvent)
  : list WaitOp :=
  map (fun e => OpWait p_duration p_blocking (Some e)) events.

Definition left_down : NSEvent := {| event_type := NSLeftMouseDown; event_number := 1 |}.
Definition left_drag_2 : NSEvent :=
  {| event_type := NSLeftMouseDragged; event_number := 2 |}.
Definition left_drag_3 : NSEvent :=
  {| event_type := NSLeftMouseDragged; event_number := 3 |}.
Definition left_up : NSEvent := {| event_type := NSLeftMouseUp; event_number := 4 |}.

Definition schedule_and_break : list WaitOp :=
  [OpEnable; OpSchedule callback_a; OpBreak; OpSchedule callback_b; OpDisable].

Definition disable_then_enable : list WaitOp :=
  [OpDisable; OpSchedule callback_a; OpEnable].

End WaitMore.

(** ** Screen rectangle mapping *)

Module Rect.
Import Coord.

(** NSRect: origin and size, each a pair of CGFloat. *)
Record NSRect : Type := NSMakeRect {
  origin_x : CGFloat; origin_y : CGFloat; size_width : CGFloat; size_height : CGFloat
}.

(** MCRectangle (typedefs.h): int16_t x and y, uint16_t width and height. *)
Record MCRectangle : Type := MCRectangleMake {
  rect_x : Z; rect_y : Z; rect_width : Z; rect_height : Z
}.

Definition wrap_uint16 (z : Z) : Z := z mod 2 ^ 16.

(** The rectangles for which every conversion int16_t(f) of the way back is
    defined: int16_t x and y, width and height below 2^15. *)
Definition MCRectangle_valid (r : MCRectangle) : Prop :=
  in_int16 (rect_x r) /\ in_int16 (rect_y r)
  /\ 0 <= rect_width r < 2 ^ 15 /\ 0 <= rect_height r < 2 ^ 15.

(** MapScreenMCRectangleToNSRect, with GetDesktopHeight() = h; r.y + r.height
    is an int sum. *)
Definition MapScreenMCRectangleToNSRect (h : CGFloat) (r : MCRectangle) : NSRect :=
  NSMakeRect (CGFloat_of_int (rect_x r))
             (CGFloat_sub h (CGFloat_of_int (rect_y r + rect_height r)))
             (CGFloat_of_int (rect_width r))
             (CGFloat_of_int (rect_height r)).

(** MapScreenNSRectToMCRectangle, with GetDesktopHeight() = h; the int16_t
    values become the uint16_t width and height. *)
Definition MapScreenNSRectToMCRectangle (h : CGFloat) (r : NSRect) : MCRectangle :=
  MCRectangleMake (int16_t (origin_x r))
                  (int16_t (CGFloat_sub h (CGFloat_add (origin_y r) (size_height r))))
                  (wrap_uint16 (int16_t (size_width r)))
                  (wrap_uint16 (int16_t (size_height r))).

(** The top edge of a native rectangle. *)
Definition top_edge (r : NSRect) : CGFloat := CGFloat_add (origin_y r) (size_height r).

End Rect.

(** ** Screen rectangles and the desktop height *)

Module Screen.
Import Coord.

(** NSRect: the origin and the size of a screen's frame, by their values. *)
Record NSRect : Type := NSMakeRect {
  origin_x : Q; origin_y : Q; size_width : Q; size_height : Q
}.

(** The cached desktop height. *)
Record DesktopHeight : Type := {
  m_have_desktop_height : bool;
  m_desktop_height : Q
}.

(** origin.y + size.height of a screen's frame. *)
Definition screen_top (t_rect : NSRect) : Q := (origin_y t_rect + size_height t_rect)%Q.

(** The body of the loop over [NSScreen screens]. *)
Definition raise_to (m_desktop_height : Q) (t_rect : NSRect) : Q :=
  if negb (Qle_bool (screen_top t_rect) m_desktop_height)
  then screen_top t_rect else m_desktop_height.

(** GetDesktopHeight; [screens] are the frames of [NSScreen screens] at the
    time of the call. *)
Definition GetDesktopHeight (screens : list NSRect) (s : DesktopHeight)
  : Q * DesktopHeight :=
  if negb (m_have_desktop_height s) then
    let h := fold_left raise_to screens 0%Q in
    (h, {| m_have_desktop_height := true; m_desktop_height := h |})
  else (m_desktop_height s, s).




End Screen.

(** ** Key codes *)

Module Keys.

(** The tables taken from the Carbon implementation. *)
Definition keysyms : list Z :=
  [0x61; 0x73; 0x64; 0x66; 0x68; 0x67; 0x7A; 0x78; 0x63; 0x76;
   0; 0x62; 0x71; 0x77; 0x65; 0x72; 0x79; 0x74; 0x31; 0x32;
   0x33; 0x34; 0x36; 0x35; 0x3D; 0x39; 0x37; 0x2D; 0x38; 0x30;
   0x5D; 0x6F; 0x75; 0x5B; 0x69; 0x70; 0xFF0D; 0x6C; 0x6A; 0x27;
   0x6B; 0x3B; 0x5C; 0x2C; 0x2F; 0x6E; 0x6D; 0x2E; 0xFF09; 0x20;
   0x60; 0xFF08; 0xFF8D; 0xFF1B; 0; 0; 0xFFE1; 0xFFE5; 0; 0xFFE3;
   0; 0; 0; 0; 0; 0xFF9F; 0; 0xFFAA; 0; 0xFFAB;
   0; 0xFF7F; 0; 0; 0; 0xFFAF; 0xFF8D; 0; 0xFFAD; 0;
   0; 0xFFBD; 0xFF9E; 0xFF9C; 0xFF99; 0xFF9B; 0xFF96; 0xFF9D; 0xFF98; 0xFF95;
   0; 0xFF97; 0xFF9A; 0; 0; 0; 0xFFC2; 0xFFC3; 0xFFC4; 0xFFC0;
   0xFFC5; 0xFFC6; 0; 0xFFC8; 0; 0xFFCA; 0xFFCD; 0xFF14; 0; 0xFFC7;
   0; 0xFFC9; 0; 0xFF13; 0xFF6A; 0xFF50; 0xFF55; 0xFFFF; 0xFFC1; 0xFF57;
   0xFFBF; 0xFF56; 0xFFBE; 0xFF51; 0xFF53; 0xFF54; 0xFF52; 0; 0; 0;
   0; 0; 0; 0; 0; 0; 0; 0; 0; 0;
   0; 0; 0; 0; 0; 0; 0; 0; 0; 0;
   0; 0; 0; 0; 0; 0; 0; 0; 0; 0;
   0; 0; 0; 0; 0; 0; 0; 0; 0; 0;
   0; 0; 0; 0; 0; 0; 0; 0; 0; 0;
   0; 0; 0; 0; 0; 0; 0; 0; 0; 0;
   0; 0; 0; 0; 0; 0; 0; 0; 0; 0;
   0; 0; 0; 0; 0; 0; 0; 0; 0; 0;
   0; 0; 0; 0; 0; 0; 0; 0; 0; 0;
   0; 0; 0].

Definition shift_keysyms : list Z :=
  [0x41; 0x53; 0x44; 0x46; 0x48; 0x47; 0x5A; 0x58; 0x43; 0x56;
   0; 0x42; 0x51; 0x57; 0x45; 0x52; 0x59; 0x54; 0x21; 0x40;
   0x23; 0x24; 0x5E; 0x25; 0x2B; 0x28; 0x26; 0x5F; 0x2A; 0x29;
   0x7D; 0x4F; 0x55; 0x7B; 0x49; 0x50; 0xFF0D; 0x4C; 0x4A; 0x22;
   0x4B; 0x3A; 0x7C; 0x3C; 0x3F; 0x4E; 0x4D; 0x3E; 0xFF09; 0x20;
   0x7E; 0xFF08; 0xFF8D; 0xFF1B; 0; 0; 0xFFE1; 0xFFE5; 0; 0xFFE3;
   0; 0; 0; 0; 0; 0xFFAE; 0; 0xFFAA; 0; 0xFFAB;
   0; 0xFF7F; 0; 0; 0; 0xFFAF; 0xFF8D; 0; 0xFFAD; 0;
   0; 0xFFBD; 0xFFB0; 0xFFB1; 0xFFB2; 0xFFB3; 0xFFB4; 0xFFB5; 0xFFB6; 0xFFB7;
   0; 0xFFB8; 0xFFB9; 0; 0; 0; 0xFFC2; 0xFFC3; 0xFFC4; 0xFFC0;
   0xFFC5; 0xFFC6; 0; 0xFFC8; 0; 0xFF62; 0; 0xFF20; 0; 0xFFC7;
   0; 0xFFC9; 0; 0xFF6B; 0xFF6A; 0xFF50; 0xFF55; 0xFFFF; 0xFFC1; 0xFF57;
   0xFFBF; 0xFF56; 0xFFBE; 0xFF51; 0xFF53; 0xFF54; 0xFF52; 0; 0; 0;
   0; 0; 0; 0; 0; 0; 0; 0; 0; 0;
   0; 0; 0; 0; 0; 0; 0; 0; 0; 0;
   0; 0; 0; 0; 0; 0; 0; 0; 0; 0;
   0; 0; 0; 0; 0; 0; 0; 0; 0; 0;
   0; 0; 0; 0; 0; 0; 0; 0; 0; 0;
   0; 0; 0; 0; 0; 0; 0; 0; 0; 0;
   0; 0; 0; 0; 0; 0; 0; 0; 0; 0;
   0; 0; 0; 0; 0; 0; 0; 0; 0; 0;
   0; 0; 0; 0; 0; 0; 0; 0; 0; 0;
   0; 0; 0].

(** The MCPlatformKeyCode constants that s_mac_keycode_map names. Their
    values are declared in platform.h; the constants are kept by name, and an
    entry equals kMCPlatformKeyCodeUndefined when it is written so. *)
Inductive MCPlatformKeyCode : Type :=
| kMCPlatformKeyCodeA | kMCPlatformKeyCodeS
| kMCPlatformKeyCodeD | kMCPlatformKeyCodeF
| kMCPlatformKeyCodeH | kMCPlatformKeyCodeG
| kMCPlatformKeyCodeZ | kMCPlatformKeyCodeX
| kMCPlatformKeyCodeC | kMCPlatformKeyCodeV
| kMCPlatformKeyCodeISOSection | kMCPlatformKeyCodeB
| kMCPlatformKeyCodeQ | kMCPlatformKeyCodeW
| kMCPlatformKeyCodeE | kMCPlatformKeyCodeR
| kMCPlatformKeyCodeY | kMCPlatformKeyCodeT
| kMCPlatformKeyCode1 | kMCPlatformKeyCode2
| kMCPlatformKeyCode3 | kMCPlatformKeyCode4
| kMCPlatformKeyCode6 | kMCPlatformKeyCode5
| kMCPlatformKeyCodeEqual | kMCPlatformKeyCode9
| kMCPlatformKeyCode7 | kMCPlatformKeyCodeMinus
| kMCPlatformKeyCode8 | kMCPlatformKeyCode0
| kMCPlatformKeyCodeRightBracket | kMCPlatformKeyCodeO
| kMCPlatformKeyCodeU | kMCPlatformKeyCodeLeftBracket
| kMCPlatformKeyCodeI | kMCPlatformKeyCodeP
| kMCPlatformKeyCodeReturn | kMCPlatformKeyCodeL
| kMCPlatformKeyCodeJ | kMCPlatformKeyCodeQuote
| kMCPlatformKeyCodeK | kMCPlatformKeyCodeSemicolon
| kMCPlatformKeyCodeBackslash | kMCPlatformKeyCodeComma
| kMCPlatformKeyCodeSlash | kMCPlatformKeyCodeN
| kMCPlatformKeyCodeM | kMCPlatformKeyCodePeriod
| kMCPlatformKeyCodeTab | kMCPlatformKeyCodeSpace
| kMCPlatformKeyCodeGrave | kMCPlatformKeyCodeBackspace
| kMCPlatformKeyCodeUndefined | kMCPlatformKeyCodeEscape
| kMCPlatformKeyCodeRightCommand | kMCPlatformKeyCodeLeftCommand
| kMCPlatformKeyCodeLeftShift | kMCPlatformKeyCodeCapsLock
| kMCPlatformKeyCodeLeftOption | kMCPlatformKeyCodeLeftControl
| kMCPlatformKeyCodeRightShift | kMCPlatformKeyCodeRightOption
| kMCPlatformKeyCodeRightControl | kMCPlatformKeyCodeFunction
| kMCPlatformKeyCodeF17 | kMCPlatformKeyCodeKeypadDecimal
| kMCPlatformKeyCodeKeypadMultiply | kMCPlatformKeyCodeKeypadAdd
| kMCPlatformKeyCodeNumLock | kMCPlatformKeyCodeVolumeUp
| kMCPlatformKeyCodeVolumeDown | kMCPlatformKeyCodeMute
| kMCPlatformKeyCodeKeypadDivide | kMCPlatformKeyCodeKeypadEnter
| kMCPlatformKeyCodeKeypadSubtract | kMCPlatformKeyCodeF18
| kMCPlatformKeyCodeF19 | kMCPlatformKeyCodeKeypadEqual
| kMCPlatformKeyCodeKeypad0 | kMCPlatformKeyCodeKeypad1
| kMCPlatformKeyCodeKeypad2 | kMCPlatformKeyCodeKeypad3
| kMCPlatformKeyCodeKeypad4 | kMCPlatformKeyCodeKeypad5
| kMCPlatformKeyCodeKeypad6 | kMCPlatformKeyCodeKeypad7
| kMCPlatformKeyCodeF20 | kMCPlatformKeyCodeKeypad8
| kMCPlatformKeyCodeKeypad9 | kMCPlatformKeyCodeJISYen
| kMCPlatformKeyCodeJISUnderscore | kMCPlatformKeyCodeJISKeypadComma
| kMCPlatformKeyCodeF5 | kMCPlatformKeyCodeF6
| kMCPlatformKeyCodeF7 | kMCPlatformKeyCodeF3
| kMCPlatformKeyCodeF8 | kMCPlatformKeyCodeF9
| kMCPlatformKeyCodeJISEisu | kMCPlatformKeyCodeF11
| kMCPlatformKeyCodeJISKana | kMCPlatformKeyCodeF13
| kMCPlatformKeyCodeF16 | kMCPlatformKeyCodeF14
| kMCPlatformKeyCodeF10 | kMCPlatformKeyCodeF12
| kMCPlatformKeyCodeF15 | kMCPlatformKeyCodeHelp
| kMCPlatformKeyCodeBegin | kMCPlatformKeyCodePrevious
| kMCPlatformKeyCodeDelete | kMCPlatformKeyCodeF4
| kMCPlatformKeyCodeEnd | kMCPlatformKeyCodeF2
| kMCPlatformKeyCodeNext | kMCPlatformKeyCodeF1
| kMCPlatformKeyCodeLeft | kMCPlatformKeyCodeRight
| kMCPlatformKeyCodeDown | kMCPlatformKeyCodeUp.

Definition s_mac_keycode_map : list MCPlatformKeyCode :=
  [kMCPlatformKeyCodeA; kMCPlatformKeyCodeS;
   kMCPlatformKeyCodeD; kMCPlatformKeyCodeF;
   kMCPlatformKeyCodeH; kMCPlatformKeyCodeG;
   kMCPlatformKeyCodeZ; kMCPlatformKeyCodeX;
   kMCPlatformKeyCodeC; kMCPlatformKeyCodeV;
   kMCPlatformKeyCodeISOSection; kMCPlatformKeyCodeB;
   kMCPlatformKeyCodeQ; kMCPlatformKeyCodeW;
   kMCPlatformKeyCodeE; kMCPlatformKeyCodeR;
   kMCPlatformKeyCodeY; kMCPlatformKeyCodeT;
   kMCPlatformKeyCode1; kMCPlatformKeyCode2;
   kMCPlatformKeyCode3; kMCPlatformKeyCode4;
   kMCPlatformKeyCode6; kMCPlatformKeyCode5;
   kMCPlatformKeyCodeEqual; kMCPlatformKeyCode9;
   kMCPlatformKeyCode7; kMCPlatformKeyCodeMinus;
   kMCPlatformKeyCode8; kMCPlatformKeyCode0;
   kMCPlatformKeyCodeRightBracket; kMCPlatformKeyCodeO;
   kMCPlatformKeyCodeU; kMCPlatformKeyCodeLeftBracket;
   kMCPlatformKeyCodeI; kMCPlatformKeyCodeP;
   kMCPlatformKeyCodeReturn; kMCPlatformKeyCodeL;
   kMCPlatformKeyCodeJ; kMCPlatformKeyCodeQuote;
   kMCPlatformKeyCodeK; kMCPlatformKeyCodeSemicolon;
   kMCPlatformKeyCodeBackslash; kMCPlatformKeyCodeComma;
   kMCPlatformKeyCodeSlash; kMCPlatformKeyCodeN;
   kMCPlatformKeyCodeM; kMCPlatformKeyCodePeriod;
   kMCPlatformKeyCodeTab; kMCPlatformKeyCodeSpace;
   kMCPlatformKeyCodeGrave; kMCPlatformKeyCodeBackspace;
   kMCPlatformKeyCodeUndefined; kMCPlatformKeyCodeEscape;
   kMCPlatformKeyCodeRightCommand; kMCPlatformKeyCodeLeftCommand;
   kMCPlatformKeyCodeLeftShift; kMCPlatformKeyCodeCapsLock;
   kMCPlatformKeyCodeLeftOption; kMCPlatformKeyCodeLeftControl;
   kMCPlatformKeyCodeRightShift; kMCPlatformKeyCodeRightOption;
   kMCPlatformKeyCodeRightControl; kMCPlatformKeyCodeFunction;
   kMCPlatformKeyCodeF17; kMCPlatformKeyCodeKeypadDecimal;
   kMCPlatformKeyCodeUndefined; kMCPlatformKeyCodeKeypadMultiply;
   kMCPlatformKeyCodeUndefined; kMCPlatformKeyCodeKeypadAdd;
   kMCPlatformKeyCodeUndefined; kMCPlatformKeyCodeNumLock;
   kMCPlatformKeyCodeVolumeUp; kMCPlatformKeyCodeVolumeDown;
   kMCPlatformKeyCodeMute; kMCPlatformKeyCodeKeypadDivide;
   kMCPlatformKeyCodeKeypadEnter; kMCPlatformKeyCodeUndefined;
   kMCPlatformKeyCodeKeypadSubtract; kMCPlatformKeyCodeF18;
   kMCPlatformKeyCodeF19; kMCPlatformKeyCodeKeypadEqual;
   kMCPlatformKeyCodeKeypad0; kMCPlatformKeyCodeKeypad1;
   kMCPlatformKeyCodeKeypad2; kMCPlatformKeyCodeKeypad3;
   kMCPlatformKeyCodeKeypad4; kMCPlatformKeyCodeKeypad5;
   kMCPlatformKeyCodeKeypad6; kMCPlatformKeyCodeKeypad7;
   kMCPlatformKeyCodeF20; kMCPlatformKeyCodeKeypad8;
   kMCPlatformKeyCodeKeypad9; kMCPlatformKeyCodeJISYen;
   kMCPlatformKeyCodeJISUnderscore; kMCPlatformKeyCodeJISKeypadComma;
   kMCPlatformKeyCodeF5; kMCPlatformKeyCodeF6;
   kMCPlatformKeyCodeF7; kMCPlatformKeyCodeF3;
   kMCPlatformKeyCodeF8; kMCPlatformKeyCodeF9;
   kMCPlatformKeyCodeJISEisu; kMCPlatformKeyCodeF11;
   kMCPlatformKeyCodeJISKana; kMCPlatformKeyCodeF13;
   kMCPlatformKeyCodeF16; kMCPlatformKeyCodeF14;
   kMCPlatformKeyCodeUndefined; kMCPlatformKeyCodeF10;
   kMCPlatformKeyCodeUndefined; kMCPlatformKeyCodeF12;
   kMCPlatformKeyCodeUndefined; kMCPlatformKeyCodeF15;
   kMCPlatformKeyCodeHelp; kMCPlatformKeyCodeBegin;
   kMCPlatformKeyCodePrevious; kMCPlatformKeyCodeDelete;
   kMCPlatformKeyCodeF4; kMCPlatformKeyCodeEnd;
   kMCPlatformKeyCodeF2; kMCPlatformKeyCodeNext;
   kMCPlatformKeyCodeF1; kMCPlatformKeyCodeLeft;
   kMCPlatformKeyCodeRight; kMCPlatformKeyCodeDown;
   kMCPlatformKeyCodeUp; kMCPlatformKeyCodeUndefined].

Definition is_undefined (c : MCPlatformKeyCode) : bool :=
  match c with kMCPlatformKeyCodeUndefined => true | _ => false end.

(** What the two functions read from AppKit and Quartz: the modifier masks
    NSShiftKeyMask and NSAlphaShiftKeyMask, [NSEvent modifierFlags], the
    state of each key, and whether the array of 128 codes could be
    allocated. *)
Record KeyHost : Type := {
  NSShiftKeyMask : Z;
  NSAlphaShiftKeyMask : Z;
  modifierFlags : Z;
  CGEventSourceKeyState : Z -> bool;
  MCMemoryNewArray : bool
}.

Definition set_modifierFlags (v : Z) (h : KeyHost) : KeyHost :=
  {| NSShiftKeyMask := NSShiftKeyMask h;
     NSAlphaShiftKeyMask := NSAlphaShiftKeyMask h;
     modifierFlags := v;
     CGEventSourceKeyState := CGEventSourceKeyState h;
     MCMemoryNewArray := MCMemoryNewArray h |}.

(** MCMacPlatformMapKeyCode for a uint32_t key code; [None] is the result
    false, [Some c] the result true with r_keycode = c. *)
Definition MCMacPlatformMapKeyCode (h : KeyHost) (p_mac_keycode p_modifier_flags : Z)
  : option Z :=
  if 0x7f <? p_mac_keycode then None
  else
    match s_mac_keycode_map !! Z.to_nat p_mac_keycode with
    | None => None
    | Some c =>
      if is_undefined c then None
      else
        let t_is_shift :=
          negb (Z.land p_modifier_flags
                  (Z.lor (NSShiftKeyMask h) (NSAlphaShiftKeyMask h)) =? 0) in
        if t_is_shift then shift_keysyms !! Z.to_nat p_mac_keycode
        else keysyms !! Z.to_nat p_mac_keycode
    end.

(** for (i = ...; i < 127; i++) of GetKeyState, [n] iterations from [i]: the
    codes stored in t_codes, in order. *)
Fixpoint key_state_loop (h : KeyHost) (t_flags : Z) (n : nat) (i : Z) : list Z :=
  match n with
  | O => []
  | S n' =>
    (if negb (CGEventSourceKeyState h i) then []
     else match MCMacPlatformMapKeyCode h i t_flags with
          | Some t_code => [t_code]
          | None => []
          end)
    ++ key_state_loop h t_flags n' (i + 1)
  end.

(** GetKeyState: [None] is the result false. The modifier flags are stored
    in a bool, which is what MCMacPlatformMapKeyCode receives. *)
Definition GetKeyState (h : KeyHost) : option (list Z) :=
  if negb (MCMemoryNewArray h) then None
  else
    let t_flags : bool := negb (modifierFlags h =? 0) in
    Some (key_state_loop h (if t_flags then 1 else 0) 127 0).

(** The key codes for which s_mac_keycode_map has
    kMCPlatformKeyCodeUndefined. *)
Definition undefined_keycodes : list Z :=
  [0x34; 0x42; 0x44; 0x46; 0x4D; 0x6C; 0x6E; 0x70; 0x7F].

Definition member (z : Z) (l : list Z) : bool := existsb (Z.eqb z) l.

(** The keys that are down, by key code below [n], with the unshifted key
    symbol of each one the map defines. *)
Definition keys_down (h : KeyHost) (n : nat) : list Z :=
  flat_map (fun i : nat =>
              if CGEventSourceKeyState h (Z.of_nat i)
                 && negb (member (Z.of_nat i) undefined_keycodes)
              then [nth i keysyms 0] else [])
           (seq 0 n).

(** AppKit's masks; shift is held and the keys A (0x00) and 1 (0x12) are
    down. *)
Definition shift_A_1_host : KeyHost := {|
  NSShiftKeyMask := 131072;
  NSAlphaShiftKeyMask := 65536;
  modifierFlags := 131072;
  CGEventSourceKeyState := fun i => (i =? 0) || (i =? 0x12);
  MCMemoryNewArray := true
|}.

End Keys.

(** ** The window being moved *)

Module Moving.
Import Pointer.

(** An NSWindow, by identity. *)
Definition NSWindow : Type := nat.

(** The events ApplicationSendEvent tells apart: the application-defined
    event with subtype kMCMacPlatformMouseSyncEvent, the left-mouse-dragged
    and left-mouse-up events, and all others. *)
Inductive EventKind : Type :=
| MouseSyncEvent
| LeftMouseDragged
| LeftMouseUp
| OtherEvent.

Record AppEvent : Type := {
  kind : EventKind;
  event_window : option NSWindow
}.

Inductive Effect : Type :=
| Mouse (n : Notification)
| RetainWindow (w : Window)
| ReleaseWindow (w : Window)
| windowMoveFinished (w : Window)
| WindowMoved (w : Window).

Record Core : Type := {
  pointer : PointerState;
  m_moving_window : option Window
}.

Definition ApplicationWindowIsMoving (p_window : Window) (c : Core) : bool :=
  window_eqb (Some p_window) (m_moving_window c).

Definition ApplicationWindowStoppedMoving (p_window : option Window) (c : Core)
  : Core * list Effect :=
  match m_moving_window c with
  | None => (c, [])
  | Some w =>
    ({| pointer := pointer c; m_moving_window := None |},
     [windowMoveFinished w; ReleaseWindow w])
  end.

Definition ApplicationWindowStartedMoving (p_window : Window) (c : Core)
  : Core * list Effect :=
  let '(c, tr) :=
    match m_moving_window c with
    | Some _ => ApplicationWindowStoppedMoving (m_moving_window c) c
    | None => (c, [])
    end in
  ({| pointer := pointer c; m_moving_window := Some p_window |},
   tr ++ [RetainWindow p_window]).

(** ApplicationSendEvent; [GetHandle] gives the NSWindow of a platform
    window. *)
Definition ApplicationSendEvent (h : Host) (GetHandle : Window -> NSWindow)
    (p_event : AppEvent) (c : Core) : bool * Core * list Effect :=
  match kind p_event with
  | MouseSyncEvent =>
    let '(p, tr) := HandleMouseSync h (pointer c) in
    (true, {| pointer := p; m_moving_window := m_moving_window c |}, map Mouse tr)
  | k =>
    match m_moving_window c with
    | Some w =>
      if bool_decide (event_window p_event = Some (GetHandle w)) then
        match k with
        | LeftMouseDragged => (false, c, [WindowMoved w])
        | LeftMouseUp =>
          let '(c, tr) := ApplicationWindowStoppedMoving (m_moving_window c) c in
          (false, c, tr)
        | _ => (false, c, [])
        end
      else (false, c, [])
    | None => (false, c, [])
    end
  end.

Inductive MovingOp : Type :=
| OpStarted (p_window : Window)
| OpStopped (p_window : option Window)
| OpSendEvent (h : Host) (GetHandle : Window -> NSWindow) (p_event : AppEvent).

Definition moving_step (op : MovingOp) (c : Core) : Core * list Effect :=
  match op with
  | OpStarted w => ApplicationWindowStartedMoving w c
  | OpStopped w => ApplicationWindowStoppedMoving w c
  | OpSendEvent h g e => let '(_, c, tr) := ApplicationSendEvent h g e c in (c, tr)
  end.

Fixpoint moving_run (ops : list MovingOp) (c : Core) : Core * list Effect :=
  match ops with
  | [] => (c, [])
  | op :: ops' =>
    let '(c, tr) := moving_step op c in
    let '(c, tr') := moving_run ops' c in
    (c, tr ++ tr')
  end.

(** The reference counting of the moving window, as notifications. *)
Definition handle_effect (e : Effect) : list Notification :=
  match e with
  | RetainWindow w => [Retain w]
  | ReleaseWindow w => [Release w]
  | _ => []
  end.

(** Every release of a window comes right after windowMoveFinished for it. *)
Fixpoint finished_before_release (tr : list Effect) : bool :=
  match tr with
  | [] => true
  | windowMoveFinished w :: ReleaseWindow w' :: tr' =>
    Nat.eqb w w' && finished_before_release tr'
  | windowMoveFinished _ :: _ => false
  | ReleaseWindow _ :: _ => false
  | _ :: tr' => finished_before_release tr'
  end.

End Moving.

(** ** The backdrop window *)

Module Backdrop.
Import Pointer.

Definition NSWindow : Type := nat.

(** What AppKit reports during one SyncBackdrop call: the window numbers of
    [NSWindow windowNumbersWithOptions: 0], front to back, each with the
    window NSApp finds for it (nil is [None]). *)
Definition WindowList : Type := list (Z * option NSWindow).

Inductive Effect : Type :=
| ReleaseWindow (w : Window)
| RetainWindow (w : Window)
| NSDisableScreenUpdates
| orderOut (t_window : NSWindow)
| orderWindowBelow (t_window : option NSWindow) (relativeTo : Z)
| NSEnableScreenUpdates.

(** The loop of SyncBackdrop from [t_window_above_id]: the calls made and the
    value of t_window_above_id after it. *)
Fixpoint backdrop_loop (t_backdrop : NSWindow) (windows : WindowList)
    (t_window_above_id : Z) : Z * list Effect :=
  match windows with
  | [] => (t_window_above_id, [])
  | (t_window_id, t_window) :: rest =>
    if bool_decide (t_window = Some t_backdrop)
    then backdrop_loop t_backdrop rest t_window_above_id
    else
      let tr :=
        if negb (t_window_above_id =? -1)
        then [orderWindowBelow t_window t_window_above_id] else [] in
      let '(above, tr') := backdrop_loop t_backdrop rest t_window_id in
      (above, tr ++ tr')
  end.

(** SyncBackdrop; [GetHandle] gives the NSWindow of a platform window. *)
Definition SyncBackdrop (GetHandle : Window -> NSWindow) (windows : WindowList)
    (m_backdrop_window : option Window) : list Effect :=
  match m_backdrop_window with
  | None => []
  | Some b =>
    let t_backdrop := GetHandle b in
    let '(t_window_above_id, tr) := backdrop_loop t_backdrop windows (-1) in
    [NSDisableScreenUpdates; orderOut t_backdrop] ++ tr
    ++ [orderWindowBelow (Some t_backdrop) t_window_above_id; NSEnableScreenUpdates]
  end.

(** ConfigureBackdrop: the new m_backdrop_window and what is done. *)
Definition ConfigureBackdrop (GetHandle : Window -> NSWindow) (windows : WindowList)
    (p_backdrop_window : option Window) (m_backdrop_window : option Window)
  : option Window * list Effect :=
  let released :=
    match m_backdrop_window with Some w => [ReleaseWindow w] | None => [] end in
  let m_backdrop_window := p_backdrop_window in
  let retained :=
    match m_backdrop_window with Some w => [RetainWindow w] | None => [] end in
  (m_backdrop_window,
   released ++ retained ++ SyncBackdrop GetHandle windows m_backdrop_window).

(** A sequence of ConfigureBackdrop calls, each with the window list of its
    moment. *)
Fixpoint configure_run (GetHandle : Window -> NSWindow)
    (calls : list (WindowList * option Window)) (m_backdrop_window : option Window)
  : option Window * list Effect :=
  match calls with
  | [] => (m_backdrop_window, [])
  | (windows, p) :: calls' =>
    let '(b, tr) := ConfigureBackdrop GetHandle windows p m_backdrop_window in
    let '(b, tr') := configure_run GetHandle calls' b in
    (b, tr ++ tr')
  end.

(** The windows of the list other than the backdrop. *)
Definition other_windows (t_backdrop : NSWindow) (windows : WindowList) : WindowList :=
  List.filter (fun x => negb (bool_decide (x.2 = Some t_backdrop))) windows.

(** Each window of the list ordered below the one before it, the first below
    the window numbered [above]. *)
Fixpoint chain (above : Z) (windows : WindowList) : list Effect :=
  match windows with
  | [] => []
  | (id, w) :: rest => orderWindowBelow w above :: chain id rest
  end.

(** The number of the last window of the list, [above] if there is none. *)
Definition last_number (above : Z) (windows : WindowList) : Z :=
  List.last (map fst windows) above.

Definition handle_effect (e : Effect) : list Notification :=
  match e with
  | RetainWindow w => [Retain w]
  | ReleaseWindow w => [Release w]
  | _ => []
  end.

(** Windows 11, 12 (the backdrop's) and 13, front to back. *)
Definition three_windows : WindowList :=
  [(101, Some 11%nat); (102, Some 12%nat); (103, Some 13%nat)].

End Backdrop.

(** * Properties *)

(** ** Fixed-width integers *)

Lemma wrap_int16_id z : in_int16 z -> wrap_int16 z = z.
Proof.
  unfold in_int16, wrap_int16. intros Hz.
  rewrite Z.mod_small; lia.
Qed.

Lemma wrap_uint32_id z : in_uint32 z -> wrap_uint32 z = z.
Proof. unfold in_uint32, wrap_uint32. intros Hz. apply Z.mod_small. lia. Qed.

Lemma wrap_uint32_range z : in_uint32 (wrap_uint32 z).
Proof. unfold in_uint32, wrap_uint32. apply Z.mod_pos_bound. lia. Qed.

(** ** Screen coordinate mapping *)

Section Binary64.
Import Coord.

(** *** Integers in binary64 *)

Lemma digits2_pos_size (p : positive) : digits2_pos p = Pos.size p.
Proof. induction p; simpl; congruence. Qed.

Lemma Zpos_iter_xO (m d : positive) : Zpos (Pos.iter xO m d) = Zpos m * 2 ^ Zpos d.
Proof.
  rewrite <- Z.shiftl_mul_pow2 by lia. cbn [Z.shiftl].
  apply (Pos.iter_swap_gen _ _ Zpos xO (Z.mul 2)). reflexivity.
Qed.

Lemma digits_iter_xO (m d : positive) :
  Zpos (digits2_pos (Pos.iter xO m d)) = Zpos (digits2_pos m) + Zpos d.
Proof.
  rewrite (Pos.iter_swap_gen _ _ digits2_pos xO Pos.succ) by reflexivity.
  revert m. induction d using Pos.peano_ind; intros m.
  - cbn. lia.
  - rewrite Pos.iter_succ. rewrite Pos2Z.inj_succ, IHd. lia.
Qed.

Lemma digits_bounds (k : positive) :
  2 ^ (Zpos (digits2_pos k) - 1) <= Zpos k < 2 ^ Zpos (digits2_pos k).
Proof.
  rewrite digits2_pos_size. split.
  - pose proof (Pos.size_le k) as H.
    assert (H2 : 2 ^ Zpos (Pos.size k) <= 2 * Zpos k).
    { change (2 * Zpos k) with (Zpos k~0). rewrite <- Pos2Z.inj_pow. 
      now apply Pos2Z.pos_le_pos. }
    replace (Zpos (Pos.size k)) with (Z.succ (Zpos (Pos.size k) - 1)) in H2 by lia.
    rewrite Z.pow_succ_r in H2 by lia. lia.
  - pose proof (Pos.size_gt k) as H. rewrite <- Pos2Z.inj_pow. now apply Pos2Z.pos_lt_pos.
Qed.

Lemma iter_pos_iter {A : Type} (f : A -> A) (p : positive) :
  forall x, SpecFloat.iter_pos f p x = Pos.iter f x p.
Proof.
  induction p as [p IH|p IH|]; intros x; cbn [SpecFloat.iter_pos Pos.iter].
  - rewrite !IH. now rewrite !Pos.iter_swap.
  - now rewrite !IH.
  - reflexivity.
Qed.

Lemma shr_1_iter (K : positive) (p : positive) :
  SpecFloat.iter_pos shr_1 p (Build_shr_record (Zpos (Pos.iter xO K p)) false false)
  = Build_shr_record (Zpos K) false false.
Proof.
  rewrite iter_pos_iter. revert K.
  induction p as [|p IH] using Pos.peano_ind; intros K.
  - reflexivity.
  - rewrite Pos.iter_succ_r, Pos.iter_succ. cbn [shr_1 orb]. apply IH.
Qed.

Lemma pos_of_scaled (M K : positive) (n : Z) :
  Zpos M = Zpos K * 2 ^ n ->
  match n with
  | 0 => M = K
  | Zpos p => M = Pos.iter xO K p
  | Zneg _ => True
  end.
Proof.
  destruct n as [|p|p]; intros H; [| |exact I].
  - rewrite Z.mul_1_r in H. now injection H.
  - rewrite <- Zpos_iter_xO in H. now injection H.
Qed.

Lemma digits_scaled (M K : positive) (n : Z) :
  0 <= n -> Zpos M = Zpos K * 2 ^ n ->
  Zpos (digits2_pos M) = Zpos (digits2_pos K) + n.
Proof.
  intros Hn H. apply pos_of_scaled in H. destruct n as [|p|p]; try lia.
  - subst. lia.
  - subst. apply digits_iter_xO.
Qed.

(** A mantissa of 53 digits at exponent t, scaled by a power of two and given
    at the lower exponent E, is rounded to itself. *)
Lemma binary_round_aux_exact (s : bool) (M K : positive) (E t : Z) :
  Zpos (digits2_pos K) = 53 -> -1074 <= t <= 971 -> E <= t ->
  Zpos M = Zpos K * 2 ^ (t - E) ->
  binary_round_aux 53 1024 s (Zpos M) E loc_Exact = S754_finite s K t.
Proof.
  intros HK Ht HE HM.
  pose proof (digits_scaled M K (t - E) ltac:(lia) HM) as HdM.
  unfold binary_round_aux, shr_fexp. cbn [Zdigits2 shr_record_of_loc].
  assert (Hf : forall M' E', Zpos (digits2_pos M') + E' = 53 + t ->
                 fexp 53 1024 (Zpos (digits2_pos M') + E') - E' = t - E').
  { intros M' E' ->. unfold fexp, emin. lia. }
  rewrite (Hf M E) by lia.
  assert (Hshr : shr (Build_shr_record (Zpos M) false false) E (t - E)
                 = (Build_shr_record (Zpos K) false false, t)).
  { apply pos_of_scaled in HM. unfold shr. destruct (t - E) as [|p|p] eqn:Hn; try lia.
    - subst M. f_equal. lia.
    - subst M. rewrite shr_1_iter. f_equal. lia. }
  rewrite Hshr. cbn [shr_m loc_of_shr_record round_nearest_even shr_record_of_loc Zdigits2].
  rewrite (Hf K t) by lia. rewrite Z.sub_diag. cbn [shr shr_m].
  replace (t <=? 1024 - 53) with true by (symmetry; apply Z.leb_le; lia).
  reflexivity.
Qed.

Lemma binary_round_scaled (s : bool) (m k : positive) (j : Z) :
  0 <= j -> Zpos m = Zpos k * 2 ^ j -> Zpos k < 2 ^ 53 ->
  exists K,
    Zpos K = Zpos k * 2 ^ (53 - Zpos (digits2_pos k))
    /\ binary_round 53 1024 s m (- j)
       = S754_finite s K (Zpos (digits2_pos k) - 53).
Proof.
  intros Hj Hm Hk.
  pose proof (digits_bounds k) as [Hlo _].
  assert (Hd : 1 <= Zpos (digits2_pos k) <= 53).
  { split; [lia|]. 
    assert (2 ^ (Zpos (digits2_pos k) - 1) < 2 ^ 53) by lia.
    apply Z.pow_lt_mono_r_iff in H; lia. }
  set (d := Zpos (digits2_pos k)) in *.
  assert (HKpos : 0 < Zpos k * 2 ^ (53 - d)).
  { apply Z.mul_pos_pos; [lia|]. apply Z.pow_pos_nonneg; lia. }
  exists (Z.to_pos (Zpos k * 2 ^ (53 - d))).
  assert (HK : Zpos (Z.to_pos (Zpos k * 2 ^ (53 - d))) = Zpos k * 2 ^ (53 - d))
    by (apply Z2Pos.id; exact HKpos).
  split; [exact HK|].
  set (K := Z.to_pos (Zpos k * 2 ^ (53 - d))) in *.
  assert (HdK : Zpos (digits2_pos K) = 53).
  { rewrite (digits_scaled K k (53 - d)) by (lia || exact HK). fold d. lia. }
  pose proof (digits_scaled m k j Hj Hm) as Hdm. fold d in Hdm.
  unfold binary_round.
  assert (Hfexp : fexp 53 1024 (Zpos (digits2_pos m) + - j) = d - 53).
  { rewrite Hdm. unfold fexp, emin. lia. }
  rewrite Hfexp. unfold shl_align.
  assert (Hpow : forall a b, 0 <= a -> 0 <= b -> 2 ^ (a + b) = 2 ^ a * 2 ^ b)
    by (intros; apply Z.pow_add_r; lia).
  destruct (d - 53 - - j) as [|p|p] eqn:Hn.
  - apply binary_round_aux_exact; try lia.
    rewrite HK, Hm. replace (d - 53 - - j) with 0 by lia.
    replace (53 - d) with j by lia. cbn. lia.
  - apply binary_round_aux_exact; try lia.
    rewrite HK, Hm. replace j with ((53 - d) + (d - 53 - - j)) at 1 by lia.
    rewrite Hpow by lia. lia.
  - apply binary_round_aux_exact; try lia.
    rewrite Z.sub_diag, Z.mul_1_r, Zpos_iter_xO, HK, Hm.
    replace (53 - d) with (j + Zpos p) by lia. rewrite Hpow by lia. lia.
Qed.

(** The binary64 value of an integer below 2^53 in magnitude. *)
Lemma CGFloat_of_int_form (z : Z) :
  z <> 0 -> Z.abs z < 2 ^ 53 ->
  exists K t,
    CGFloat_of_int z = S754_finite (z <? 0) K t
    /\ -52 <= t <= 0
    /\ Zpos K = Z.abs z * 2 ^ (- t).
Proof.
  intros Hz Hbound. unfold CGFloat_of_int, binary_normalize.
  destruct z as [|k|k]; [congruence| |].
  - destruct (binary_round_scaled false k k 0 ltac:(lia) ltac:(cbn; lia) Hbound)
      as (K & HK & Hround).
    pose proof (digits_bounds k) as [Hlo _].
    assert (Hd : 1 <= Zpos (digits2_pos k) <= 53).
    { split; [lia|].
      assert (H : 2 ^ (Zpos (digits2_pos k) - 1) < 2 ^ 53) by (cbn in Hbound; lia).
      apply Z.pow_lt_mono_r_iff in H; lia. }
    exists K, (Zpos (digits2_pos k) - 53). change (- 0) with 0 in Hround.
    repeat split; [exact Hround| lia | lia |].
    rewrite HK. cbn [Z.abs]. f_equal. f_equal. lia.
  - destruct (binary_round_scaled true k k 0 ltac:(lia) ltac:(cbn; lia) Hbound)
      as (K & HK & Hround).
    pose proof (digits_bounds k) as [Hlo _].
    assert (Hd : 1 <= Zpos (digits2_pos k) <= 53).
    { split; [lia|].
      assert (H : 2 ^ (Zpos (digits2_pos k) - 1) < 2 ^ 53) by (cbn in Hbound; lia).
      apply Z.pow_lt_mono_r_iff in H; lia. }
    exists K, (Zpos (digits2_pos k) - 53). change (- 0) with 0 in Hround.
    repeat split; [exact Hround| lia | lia |].
    rewrite HK. cbn [Z.abs]. f_equal. f_equal. lia.
Qed.

Lemma binary_normalize_scaled (z j : Z) :
  0 <= j -> Z.abs z < 2 ^ 53 ->
  binary_normalize 53 1024 (z * 2 ^ j) (- j) false = CGFloat_of_int z.
Proof.
  intros Hj Hbound. unfold CGFloat_of_int.
  assert (Hp : 0 < 2 ^ j) by (apply Z.pow_pos_nonneg; lia).
  destruct z as [|k|k]; [reflexivity| |].
  - destruct (Zpos k * 2 ^ j) as [|m|m] eqn:Hm; try lia.
    cbn [binary_normalize].
    destruct (binary_round_scaled false m k j Hj (eq_sym Hm) Hbound) as (K & HK & ->).
    destruct (binary_round_scaled false k k 0 ltac:(lia) ltac:(cbn; lia) Hbound)
      as (K' & HK' & Hr).
    change (- 0) with 0 in Hr. rewrite Hr. f_equal.
    rewrite <- HK' in HK. now injection HK.
  - destruct (Zneg k * 2 ^ j) as [|m|m] eqn:Hm; try lia.
    cbn [binary_normalize].
    assert (Hm' : Zpos m = Zpos k * 2 ^ j) by lia.
    destruct (binary_round_scaled true m k j Hj Hm' Hbound) as (K & HK & ->).
    destruct (binary_round_scaled true k k 0 ltac:(lia) ltac:(cbn; lia) Hbound)
      as (K' & HK' & Hr).
    change (- 0) with 0 in Hr. rewrite Hr. f_equal.
    rewrite <- HK' in HK. now injection HK.
Qed.

Lemma shl_align_value (K : positive) (t ez : Z) :
  ez <= t ->
  Zpos (fst (shl_align K t ez)) = Zpos K * 2 ^ (t - ez).
Proof.
  intros Hle. unfold shl_align. destruct (ez - t) as [|p|p] eqn:Hn; try lia.
  - replace (t - ez) with 0 by lia. cbn [fst]. lia.
  - cbn [fst]. rewrite Zpos_iter_xO. f_equal. f_equal. lia.
Qed.

Lemma aligned_value (z : Z) (K : positive) (t ez : Z) :
  z <> 0 -> ez <= t -> t <= 0 -> Zpos K = Z.abs z * 2 ^ (- t) ->
  cond_Zopp (z <? 0) (Zpos (fst (shl_align K t ez))) = z * 2 ^ (- ez).
Proof.
  intros Hz Hle Ht HK. rewrite (shl_align_value K t ez Hle), HK.
  replace (- ez) with (- t + (t - ez)) by lia.
  rewrite Z.pow_add_r by lia.
  destruct (z <? 0) eqn:Hs; cbn [cond_Zopp].
  - apply Z.ltb_lt in Hs. rewrite Z.abs_neq by lia. lia.
  - apply Z.ltb_ge in Hs. rewrite Z.abs_eq by lia. lia.
Qed.

Lemma CGFloat_of_int_opp (z : Z) :
  z <> 0 -> Z.abs z < 2 ^ 53 -> CGFloat_of_int (- z) = SFopp (CGFloat_of_int z).
Proof.
  intros Hz0 Hz. unfold CGFloat_of_int, binary_normalize.
  destruct z as [|k|k];
    [congruence | change (- Z.pos k) with (Z.neg k) | change (- Z.neg k) with (Z.pos k)].
  - destruct (binary_round_scaled false k k 0 ltac:(lia) ltac:(cbn; lia) Hz)
      as (K1 & HK1 & Hr1).
    destruct (binary_round_scaled true k k 0 ltac:(lia) ltac:(cbn; lia) Hz)
      as (K2 & HK2 & Hr2).
    change (- 0) with 0 in Hr1, Hr2. rewrite Hr1, Hr2. cbn [SFopp negb].
    rewrite <- HK2 in HK1. injection HK1 as ->. reflexivity.
  - destruct (binary_round_scaled false k k 0 ltac:(lia) ltac:(cbn; lia) Hz)
      as (K1 & HK1 & Hr1).
    destruct (binary_round_scaled true k k 0 ltac:(lia) ltac:(cbn; lia) Hz)
      as (K2 & HK2 & Hr2).
    change (- 0) with 0 in Hr1, Hr2. rewrite Hr1, Hr2. cbn [SFopp negb].
    rewrite <- HK2 in HK1. injection HK1 as ->. reflexivity.
Qed.

(** Subtraction and addition of integers are exact while everything stays
    below 2^53. *)
Lemma CGFloat_sub_int (a b : Z) :
  Z.abs a < 2 ^ 53 -> Z.abs b < 2 ^ 53 -> Z.abs (a - b) < 2 ^ 53 ->
  CGFloat_sub (CGFloat_of_int a) (CGFloat_of_int b) = CGFloat_of_int (a - b).
Proof.
  intros Ha Hb Hab.
  destruct (Z.eq_dec b 0) as [->|Hb0].
  { rewrite Z.sub_0_r. change (CGFloat_of_int 0) with (S754_zero false).
    destruct (Z.eq_dec a 0) as [->|Ha0]; [reflexivity|].
    destruct (CGFloat_of_int_form a Ha0 Ha) as (K & t & -> & _). reflexivity. }
  destruct (CGFloat_of_int_form b Hb0 Hb) as (Kb & tb & Hfb & Htb & HKb).
  destruct (Z.eq_dec a 0) as [->|Ha0].
  { change (0 - b) with (- b). rewrite (CGFloat_of_int_opp b Hb0 Hb), Hfb. reflexivity. }
  destruct (CGFloat_of_int_form a Ha0 Ha) as (Ka & ta & Hfa & Hta & HKa).
  rewrite Hfa, Hfb. unfold CGFloat_sub. cbn [SFsub].
  set (ez := Z.min ta tb).
  rewrite (aligned_value a Ka ta ez Ha0 ltac:(lia) ltac:(lia) HKa).
  rewrite (aligned_value b Kb tb ez Hb0 ltac:(lia) ltac:(lia) HKb).
  rewrite <- Z.mul_sub_distr_r.
  replace ez with (- - ez) at 2 by lia.
  apply binary_normalize_scaled; lia.
Qed.

Lemma CGFloat_add_int (a b : Z) :
  Z.abs a < 2 ^ 53 -> Z.abs b < 2 ^ 53 -> Z.abs (a + b) < 2 ^ 53 ->
  CGFloat_add (CGFloat_of_int a) (CGFloat_of_int b) = CGFloat_of_int (a + b).
Proof.
  intros Ha Hb Hab.
  destruct (Z.eq_dec b 0) as [->|Hb0].
  { rewrite Z.add_0_r. change (CGFloat_of_int 0) with (S754_zero false).
    destruct (Z.eq_dec a 0) as [->|Ha0]; [reflexivity|].
    destruct (CGFloat_of_int_form a Ha0 Ha) as (K & t & -> & _). reflexivity. }
  destruct (CGFloat_of_int_form b Hb0 Hb) as (Kb & tb & Hfb & Htb & HKb).
  destruct (Z.eq_dec a 0) as [->|Ha0].
  { change (0 + b) with b. rewrite Hfb. reflexivity. }
  destruct (CGFloat_of_int_form a Ha0 Ha) as (Ka & ta & Hfa & Hta & HKa).
  rewrite Hfa, Hfb. unfold CGFloat_add. cbn [SFadd].
  set (ez := Z.min ta tb).
  rewrite (aligned_value a Ka ta ez Ha0 ltac:(lia) ltac:(lia) HKa).
  rewrite (aligned_value b Kb tb ez Hb0 ltac:(lia) ltac:(lia) HKb).
  rewrite <- Z.mul_add_distr_r.
  replace ez with (- - ez) at 2 by lia.
  apply binary_normalize_scaled; lia.
Qed.

Lemma truncate_of_int (z : Z) : Z.abs z < 2 ^ 53 -> truncate (CGFloat_of_int z) = z.
Proof.
  intros Hz. destruct (Z.eq_dec z 0) as [->|Hz0]; [reflexivity|].
  destruct (CGFloat_of_int_form z Hz0 Hz) as (K & t & -> & Ht & HK).
  cbn [truncate]. rewrite Z.shiftl_div_pow2 by lia. rewrite HK.
  rewrite Z.div_mul by (apply Z.pow_nonzero; lia).
  destruct (z <? 0) eqn:Hs; cbn [cond_Zopp].
  - apply Z.ltb_lt in Hs. lia.
  - apply Z.ltb_ge in Hs. lia.
Qed.

Lemma int16_t_of_int (z : Z) : in_int16 z -> int16_t (CGFloat_of_int z) = z.
Proof.
  intros Hz. unfold int16_t. rewrite truncate_of_int.
  - now apply wrap_int16_id.
  - unfold in_int16 in Hz. change (2 ^ 15) with 32768 in Hz.
    change (2 ^ 53) with 9007199254740992. lia.
Qed.

End Binary64.

(** C9. At the desktop height 900.3 the point (5, -8192) goes to native
    coordinates and comes back as (5, -8191): the subtraction
    900.3 - (-8192) is rounded, so the way back finds -8191.999999999999
    and truncates it. *)
Lemma screen_point_roundtrip_fails_at_900_3 :
  MCPoint_valid (MCPointMake 5 (-8192))
  /\ SFdiv 53 1024 (Coord.CGFloat_of_int 9003) (Coord.CGFloat_of_int 10)
     = Coord.desktop_900_3
  /\ Coord.MapScreenNSPointToMCPoint Coord.desktop_900_3
       (Coord.MapScreenMCPointToNSPoint Coord.desktop_900_3 (MCPointMake 5 (-8192)))
     = MCPointMake 5 (-8191)
  /\ Coord.MapScreenNSPointToMCPoint Coord.desktop_900_3
       (Coord.MapScreenMCPointToNSPoint Coord.desktop_900_3 (MCPointMake 5 (-8192)))
     <> MCPointMake 5 (-8192).
Proof.
  assert (Hback : Coord.MapScreenNSPointToMCPoint Coord.desktop_900_3
            (Coord.MapScreenMCPointToNSPoint Coord.desktop_900_3 (MCPointMake 5 (-8192)))
          = MCPointMake 5 (-8191)) by (vm_compute; reflexivity).
  split; [unfold MCPoint_valid, in_int16; simpl; lia|].
  split; [vm_compute; reflexivity|].
  split; [exact Hback|].
  rewrite Hback. discriminate.
Qed.

(** C9. For a desktop height that is a whole number H of at most 2^52 in
    magnitude and every point p with int16_t coordinates, mapping p to
    native coordinates and back gives p; the native x is x and the native y
    is H - y, both exactly. The x coordinate comes back whatever the desktop
    height is. *)
Theorem screen_point_roundtrip (H : Z) (p : MCPoint) :
  - 2 ^ 52 <= H <= 2 ^ 52 ->
  MCPoint_valid p ->
  Coord.MapScreenNSPointToMCPoint (Coord.CGFloat_of_int H)
    (Coord.MapScreenMCPointToNSPoint (Coord.CGFloat_of_int H) p) = p
  /\ Coord.NSPoint_x (Coord.MapScreenMCPointToNSPoint (Coord.CGFloat_of_int H) p)
     = Coord.CGFloat_of_int (MCPoint_x p)
  /\ Coord.NSPoint_y (Coord.MapScreenMCPointToNSPoint (Coord.CGFloat_of_int H) p)
     = Coord.CGFloat_of_int (H - MCPoint_y p)
  /\ (forall h : Coord.CGFloat,
        MCPoint_x (Coord.MapScreenNSPointToMCPoint h (Coord.MapScreenMCPointToNSPoint h p))
        = MCPoint_x p).
Proof.
  destruct p as [px py]. intros HH [Hx Hy]. simpl in Hx, Hy.
  unfold in_int16 in Hx, Hy.
  change (2 ^ 15) with 32768 in Hx, Hy. change (2 ^ 52) with 4503599627370496 in HH.
  assert (Hy' : Coord.CGFloat_sub (Coord.CGFloat_of_int H) (Coord.CGFloat_of_int py)
                = Coord.CGFloat_of_int (H - py)).
  { apply CGFloat_sub_int; change (2 ^ 53) with 9007199254740992; lia. }
  assert (Hback : Coord.CGFloat_sub (Coord.CGFloat_of_int H) (Coord.CGFloat_of_int (H - py))
                = Coord.CGFloat_of_int py).
  { rewrite CGFloat_sub_int by (change (2 ^ 53) with 9007199254740992; lia).
    f_equal. lia. }
  unfold Coord.MapScreenNSPointToMCPoint, Coord.MapScreenMCPointToNSPoint.
  cbn [Coord.NSPoint_x Coord.NSPoint_y MCPoint_x MCPoint_y].
  rewrite Hy', Hback.
  rewrite !int16_t_of_int by (unfold in_int16; change (2 ^ 15) with 32768; lia).
  repeat split; reflexivity.
Qed.

Lemma screen_point_roundtrip_witness :
  - 2 ^ 52 <= 900 <= 2 ^ 52
  /\ MCPoint_valid (MCPointMake 100 250)
  /\ Coord.MapScreenNSPointToMCPoint (Coord.CGFloat_of_int 900)
       (Coord.MapScreenMCPointToNSPoint (Coord.CGFloat_of_int 900) (MCPointMake 100 250))
     = MCPointMake 100 250.
Proof.
  assert (Hh : - 2 ^ 52 <= 900 <= 2 ^ 52) by (simpl; lia).
  assert (Hvalid : MCPoint_valid (MCPointMake 100 250))
    by (unfold MCPoint_valid, in_int16; simpl; lia).
  split; [exact Hh|]. split; [exact Hvalid|].
  exact (proj1 (screen_point_roundtrip 900 (MCPointMake 100 250) Hh Hvalid)).
Defined.

(** ** Pointer state machine *)

Section PointerMachine.
Import Pointer.

Ltac pm_simpl :=
  cbn -[Z.eqb Z.ltb Z.geb Z.leb Z.land Z.lor Z.lnot Z.shiftl Z.abs Z.sub Z.add
        wrap_uint32 button_bit clear_button window_eqb].

Lemma button_bit_pow (b : Z) :
  valid_button b = true -> button_bit b = 2 ^ b /\ 0 < 2 ^ b < 2 ^ 32.
Proof.
  unfold valid_button, button_bit, wrap_uint32. intros Hb.
  apply andb_true_iff in Hb as [Hlo Hhi].
  apply Z.leb_le in Hlo. apply Z.ltb_lt in Hhi.
  rewrite Z.shiftl_1_l.
  assert (0 < 2 ^ b) by (apply Z.pow_pos_nonneg; lia).
  assert (2 ^ b < 2 ^ 32) by (apply Z.pow_lt_mono_r; lia).
  split; [apply Z.mod_small|]; lia.
Qed.

Lemma press_sets_button (bs b : Z) :
  valid_button b = true -> (Z.lor bs (button_bit b) =? 0) = false.
Proof.
  intros Hb. apply Z.eqb_neq. intros Hz.
  apply Z.lor_eq_0_iff in Hz as [_ Hz].
  destruct (button_bit_pow b Hb) as [Hbit Hpos]. lia.
Qed.

(** An effective press: the button was up and there is a mouse window. *)
Lemma HandleMousePress_press (h : Host) (b : Z) (s : PointerState) (w : Window) :
  valid_button b = true ->
  button_down (m_mouse_buttons s) b = false ->
  m_mouse_window s = Some w ->
  let button := press_button h b s in
  let count :=
    if is_multi_click h button s
    then wrap_uint32 (m_mouse_click_count s + 1) else 0 in
  HandleMousePress h b true s
  = Some (Build_PointerState (Some w) (Z.lor (m_mouse_buttons s) (button_bit b)) true
            (m_mouse_grabbed_explicit s) (m_mouse_drag_button s) count
            (m_mouse_last_click_time s) button (m_mouse_screen_position s)
            (m_mouse_screen_position s) (m_mouse_position s)
            (m_mouse_was_control_click s
             || ((b =? 0) && negb (Z.land (m_mouse_modifiers s)
                                     (kMCPlatformModifierCommand h) =? 0)))
            (m_mouse_cursor_locked s) (m_mouse_modifiers s),
          [SendMouseDown w button count]).
Proof.
  intros Hb Hup Hw. destruct s as [mw bs g e dr c t lb lp sp p cc cl m].
  simpl in *. subst mw.
  unfold HandleMousePress, press_button, is_multi_click. simpl.
  rewrite Hb, Hup. simpl.
  repeat (rewrite (press_sets_button bs b Hb); simpl).
  rewrite !andb_true_r.
  destruct ((b =? 0) && negb (Z.land m (kMCPlatformModifierCommand h) =? 0)) eqn:Hctl;
    simpl; rewrite ?orb_true_r, ?orb_false_r;
    match goal with
    | |- context [if ?c then _ else _] => destruct c
    end; reflexivity.
Qed.

(** An effective release: the button was down and there is a mouse window. *)
Lemma HandleMousePress_release (h : Host) (b : Z) (s : PointerState) (w : Window) :
  valid_button b = true ->
  button_down (m_mouse_buttons s) b = true ->
  m_mouse_window s = Some w ->
  let buttons := clear_button (m_mouse_buttons s) b in
  let button := release_button b s in
  let owned :=
    window_eqb (window_under_pointer h w s) (Some w) || m_mouse_grabbed_explicit s in
  HandleMousePress h b false s
  = Some (Build_PointerState (Some w) buttons
            (negb (buttons =? 0))
            (if buttons =? 0 then false else m_mouse_grabbed_explicit s)
            (if buttons =? 0 then no_button else m_mouse_drag_button s)
            (if owned then m_mouse_click_count s else 0)
            (if owned
             then if button =? m_mouse_last_click_button s
                  then GetEventTime h else m_mouse_last_click_time s
             else 0)
            (m_mouse_last_click_button s) (m_mouse_last_click_screen_position s)
            (m_mouse_screen_position s) (m_mouse_position s)
            false (m_mouse_cursor_locked s) (m_mouse_modifiers s),
          if owned
          then [SendMouseUp w button (m_mouse_click_count s)]
          else [SendMouseRelease w button false]).
Proof.
  intros Hb Hdown Hw. destruct s as [mw bs g e dr c t lb lp sp p cc cl m].
  simpl in *. subst mw.
  unfold HandleMousePress, release_button, window_under_pointer. pm_simpl.
  rewrite Hb, Hdown. pm_simpl.
  destruct (clear_button bs b =? 0) eqn:Hzero;
    repeat (progress (rewrite ?Hzero, ?andb_false_r; pm_simpl));
    destruct (cc && (b =? 0)); pm_simpl;
    destruct (window_eqb _ _); pm_simpl;
    destruct e; pm_simpl;
    try match goal with
        | |- context [?x =? lb] => destruct (x =? lb)
        end; reflexivity.
Qed.

(** A press or release that changes nothing: wrong state, or a press with no
    mouse window. *)
Lemma HandleMousePress_ignored (h : Host) (b : Z) (st : bool) (s : PointerState) :
  valid_button b = true ->
  button_down (m_mouse_buttons s) b = st \/ (st = true /\ m_mouse_window s = None) ->
  HandleMousePress h b st s = Some (s, []).
Proof.
  intros Hb Hcase. unfold HandleMousePress. rewrite Hb. simpl.
  destruct Hcase as [<- | [-> Hw]].
  - now rewrite eqb_reflx.
  - rewrite Hw. destruct (Bool.eqb true _); reflexivity.
Qed.

Lemma is_multi_click_continues (h : Host) (button : Z) (s : PointerState) :
  is_multi_click h button s = true <-> continues_click h button s.
Proof.
  unfold is_multi_click, continues_click, MCU_abs.
  rewrite !andb_true_iff, !Z.ltb_lt, Z.eqb_eq. tauto.
Qed.

(** C6. On a press that takes effect (valid button, not already down, a
    mouse window present), the count reported with the press is the old
    count plus one when the press is on the button of the last click, less
    than the double-click interval after it and less than the double-click
    radius away from it on both axes; in every other case it is zero. The
    button compared is the one the press is reported with. *)
Theorem press_click_count (h : Host) (b : Z) (s : PointerState) (w : Window) :
  valid_button b = true ->
  button_down (m_mouse_buttons s) b = false ->
  m_mouse_window s = Some w ->
  exists s',
    HandleMousePress h b true s
    = Some (s', [SendMouseDown w (press_button h b s) (m_mouse_click_count s')])
    /\ (continues_click h (press_button h b s) s ->
        m_mouse_click_count s' = wrap_uint32 (m_mouse_click_count s + 1))
    /\ (~ continues_click h (press_button h b s) s -> m_mouse_click_count s' = 0).
Proof.
  intros Hb Hup Hw.
  rewrite (HandleMousePress_press h b s w Hb Hup Hw).
  match goal with |- exists s', Some (?st, _) = _ /\ _ => exists st end.
  split; [reflexivity|]. cbn [m_mouse_click_count].
  rewrite <- is_multi_click_continues.
  destruct (is_multi_click h (press_button h b s) s); split; intros H;
    congruence.
Qed.

(** C7. On a release that takes effect (valid button, currently down, a
    mouse window present), the window under the pointer is looked up again.
    If it is the mouse window, or the grab was explicit, SendMouseUp is sent
    with the click count unchanged, and the last-click time becomes the event
    time exactly when the released button is the last-click button.
    Otherwise SendMouseRelease is sent and the click count and last-click
    time become zero. *)
Theorem release_notification (h : Host) (b : Z) (s : PointerState) (w : Window) :
  valid_button b = true ->
  button_down (m_mouse_buttons s) b = true ->
  m_mouse_window s = Some w ->
  exists s' tr,
    HandleMousePress h b false s = Some (s', tr)
    /\ (window_under_pointer h w s = Some w \/ m_mouse_grabbed_explicit s = true ->
        tr = [SendMouseUp w (release_button b s) (m_mouse_click_count s)]
        /\ m_mouse_click_count s' = m_mouse_click_count s
        /\ (release_button b s = m_mouse_last_click_button s ->
            m_mouse_last_click_time s' = GetEventTime h)
        /\ (release_button b s <> m_mouse_last_click_button s ->
            m_mouse_last_click_time s' = m_mouse_last_click_time s))
    /\ (window_under_pointer h w s <> Some w /\ m_mouse_grabbed_explicit s = false ->
        tr = [SendMouseRelease w (release_button b s) false]
        /\ m_mouse_click_count s' = 0
        /\ m_mouse_last_click_time s' = 0).
Proof.
  intros Hb Hdown Hw.
  rewrite (HandleMousePress_release h b s w Hb Hdown Hw).
  match goal with |- exists s' tr, Some (?st, ?t) = _ /\ _ => exists st, t end.
  split; [reflexivity|]. cbn [m_mouse_click_count m_mouse_last_click_time].
  unfold window_eqb.
  destruct (decide (window_under_pointer h w s = Some w)) as [Hsame|Hother].
  - rewrite bool_decide_eq_true_2 by assumption. cbn [orb].
    split; [|intros [Hne _]; contradiction].
    intros _. repeat split.
    + intros Hlast. now rewrite (proj2 (Z.eqb_eq _ _) Hlast).
    + intros Hlast. now rewrite (proj2 (Z.eqb_neq _ _) Hlast).
  - rewrite bool_decide_eq_false_2 by assumption. cbn [orb].
    destruct (m_mouse_grabbed_explicit s).
    + split; [|intros [_ Hf]; discriminate].
      intros _. repeat split.
      * intros Hlast. now rewrite (proj2 (Z.eqb_eq _ _) Hlast).
      * intros Hlast. now rewrite (proj2 (Z.eqb_neq _ _) Hlast).
    + split; [intros [Hs|Hf]; [contradiction|discriminate]|].
      intros _. repeat split.
Qed.

Ltac split_ifs :=
  repeat match goal with
         | |- context [if ?c then _ else _] => destruct c eqn:?; pm_simpl
         end.

Lemma window_eqb_refl (a : option Window) : window_eqb a a = true.
Proof. unfold window_eqb. now apply bool_decide_eq_true_2. Qed.

Lemma window_eqb_eq (a b : option Window) : window_eqb a b = true <-> a = b.
Proof. unfold window_eqb. apply bool_decide_eq_true. Qed.

Lemma window_eqb_neq (a b : option Window) : window_eqb a b = false <-> a <> b.
Proof. unfold window_eqb. apply bool_decide_eq_false. Qed.

Ltac move_cases s h p :=
  destruct s as [mw bs g e dr c t lb lp sp q cc cl m];
  unfold HandleMouseMove, change_mouse_window, resolve_mouse_window,
    is_drag_start, HandleMouseCursorChange;
  pm_simpl;
  destruct g; pm_simpl;
  [ | let Hres := fresh "Hres" in
      destruct (window_eqb (GetWindowAtPoint h p) mw) eqn:Hres;
      [ apply window_eqb_eq in Hres; rewrite ?Hres
      | destruct (GetWindowAtPoint h p) ] ];
  repeat (progress (rewrite ?window_eqb_refl; pm_simpl));
  destruct mw; pm_simpl;
  repeat (progress (rewrite ?window_eqb_refl; pm_simpl)).

(** What a motion step leaves alone. *)
Lemma HandleMouseMove_frame (h : Host) (p : MCPoint) (s : PointerState) :
  let s' := (HandleMouseMove h p s).1 in
  m_mouse_window s' = resolve_mouse_window h p s
  /\ m_mouse_buttons s' = m_mouse_buttons s
  /\ m_mouse_grabbed s' = m_mouse_grabbed s
  /\ m_mouse_grabbed_explicit s' = m_mouse_grabbed_explicit s
  /\ m_mouse_last_click_button s' = m_mouse_last_click_button s
  /\ m_mouse_last_click_screen_position s' = m_mouse_last_click_screen_position s
  /\ m_mouse_screen_position s' = p.
Proof.
  move_cases s h p; split_ifs; repeat split; congruence.
Qed.

Lemma drag_start_inv (h : Host) (p lp : MCPoint) (bs dr : Z) :
  negb (bs =? 0) && (dr =? no_button)
  && ((MCU_abs (MCPoint_x p - MCPoint_x lp) >=? MCdragdelta h)
      || (MCU_abs (MCPoint_y p - MCPoint_y lp) >=? MCdragdelta h)) = true ->
  bs <> 0 /\ dr = no_button
  /\ (Z.abs (MCPoint_x p - MCPoint_x lp) >= MCdragdelta h
      \/ Z.abs (MCPoint_y p - MCPoint_y lp) >= MCdragdelta h).
Proof.
  intros H. unfold MCU_abs in H.
  rewrite !andb_true_iff, orb_true_iff, negb_true_iff in H.
  rewrite Z.eqb_neq, Z.eqb_eq, !Z.geb_le in H. lia.
Qed.

Ltac drag_case :=
  right; eexists;
  match goal with
  | H : _ && _ && _ = true |- _ => apply drag_start_inv in H
  end; repeat split; tauto.

(** A motion step sends at most one drag. When it sends one, a button is
    down, no drag was latched, the displacement from the last click position
    is at least MCdragdelta on one axis, and the button latched and reported
    is the last-click button; when it sends none, the latch is unchanged. *)
Lemma HandleMouseMove_drag (h : Host) (p : MCPoint) (s : PointerState) :
  let s' := (HandleMouseMove h p s).1 in
  let tr := (HandleMouseMove h p s).2 in
  (drags tr = [] /\ m_mouse_drag_button s' = m_mouse_drag_button s)
  \/ (exists w,
        drags tr = [SendMouseDrag w (m_mouse_last_click_button s)]
        /\ m_mouse_window s' = Some w
        /\ m_mouse_buttons s <> 0
        /\ m_mouse_drag_button s = no_button
        /\ m_mouse_drag_button s' = m_mouse_last_click_button s
        /\ (Z.abs (MCPoint_x p - MCPoint_x (m_mouse_last_click_screen_position s))
              >= MCdragdelta h
            \/ Z.abs (MCPoint_y p - MCPoint_y (m_mouse_last_click_screen_position s))
              >= MCdragdelta h)).
Proof.
  move_cases s h p; split_ifs; first [solve [left; repeat split] | drag_case].
Qed.

(** The window change of a motion step, in the terms of the embedding. *)
Lemma HandleMouseMove_window_change (h : Host) (p : MCPoint) (s : PointerState) :
  resolve_mouse_window h p s <> m_mouse_window s ->
  exists rest,
    (HandleMouseMove h p s).2
    = send_leave (m_mouse_window s)
      ++ send_enter (resolve_mouse_window h p s)
      ++ match resolve_mouse_window h p s with
         | None => if m_mouse_cursor_locked s then [] else [ResetCursor]
         | Some _ => []
         end
      ++ release_handle (m_mouse_window s)
      ++ retain_handle (resolve_mouse_window h p s)
      ++ rest
    /\ forallb (fun n => negb (is_enter_or_leave n)) rest = true
    /\ m_mouse_window (HandleMouseMove h p s).1 = resolve_mouse_window h p s.
Proof.
  intros Hchange. revert Hchange.
  move_cases s h p; intros Hchange; try congruence.
  all: unfold send_leave, send_enter, release_handle, retain_handle.
  all: destruct cl; pm_simpl.
  all: split_ifs; eexists; (split; [reflexivity | split; reflexivity]).
Qed.

Lemma no_enter_or_leave_in (rest : list Notification) :
  forallb (fun n => negb (is_enter_or_leave n)) rest = true ->
  forall w, ~ In (SendMouseEnter w) rest /\ ~ In (SendMouseLeave w) rest.
Proof.
  intros Hall w. rewrite forallb_forall in Hall.
  split; intros Hin; apply Hall in Hin; discriminate.
Qed.

(** C5. A motion step for the screen point p, with the mouse window old and
    with new the window the step resolves (old itself while the pointer is
    grabbed, the window at p otherwise), new different from old, sends, in
    this order: SendMouseLeave for old if there is one, SendMouseEnter for
    new if there is one, the cursor reset if there is no new window and the
    cursor is not locked, Release of old if there is one and Retain of new
    if there is one. Nothing sent afterwards in the step is an enter or a
    leave, and new becomes the mouse window. *)
Theorem mouse_window_change (h : Host) (p : MCPoint) (s : PointerState)
    (old new : option Window) :
  m_mouse_window s = old ->
  (if m_mouse_grabbed s then old else GetWindowAtPoint h p) = new ->
  new <> old ->
  exists rest,
    (HandleMouseMove h p s).2
    = match old with Some o => [SendMouseLeave o] | None => [] end
      ++ match new with Some n => [SendMouseEnter n] | None => [] end
      ++ match new with
         | None => if m_mouse_cursor_locked s then [] else [ResetCursor]
         | Some _ => []
         end
      ++ match old with Some o => [Release o] | None => [] end
      ++ match new with Some n => [Retain n] | None => [] end
      ++ rest
    /\ (forall w, ~ In (SendMouseEnter w) rest /\ ~ In (SendMouseLeave w) rest)
    /\ m_mouse_window (HandleMouseMove h p s).1 = new.
Proof.
  intros Hold Hnew Hchange.
  assert (Hres : resolve_mouse_window h p s = new).
  { unfold resolve_mouse_window. now rewrite Hold. }
  destruct (HandleMouseMove_window_change h p s) as (rest & Htr & Hrest & Hwin).
  { rewrite Hres, Hold. exact Hchange. }
  exists rest. rewrite Htr, Hwin, Hres, Hold.
  split; [reflexivity|]. split; [|reflexivity].
  now apply no_enter_or_leave_in.
Qed.

(** *** Bits of the button mask *)

Lemma uint32_high_bits (bs m : Z) :
  in_uint32 bs -> 32 <= m -> Z.testbit bs m = false.
Proof.
  intros Hbs Hm. rewrite <- (wrap_uint32_id bs Hbs).
  unfold wrap_uint32. apply Z.mod_pow2_bits_high. lia.
Qed.

Lemma valid_button_range (b : Z) : valid_button b = true <-> 0 <= b < 32.
Proof. unfold valid_button. rewrite andb_true_iff, Z.leb_le, Z.ltb_lt. tauto. Qed.

Lemma button_down_testbit (bs b : Z) :
  valid_button b = true -> button_down bs b = Z.testbit bs b.
Proof.
  intros Hb. unfold button_down.
  destruct (button_bit_pow b Hb) as [-> Hpos].
  apply valid_button_range in Hb.
  assert (Hland : Z.land bs (2 ^ b) = if Z.testbit bs b then 2 ^ b else 0).
  { apply Z.bits_inj'. intros m Hm.
    rewrite Z.land_spec, Z.pow2_bits_eqb by lia.
    destruct (Z.eqb_spec b m) as [<-|Hne].
    - destruct (Z.testbit bs b); simpl.
      + rewrite Z.pow2_bits_eqb by lia. now rewrite Z.eqb_refl.
      + now rewrite Z.bits_0.
    - rewrite andb_false_r. destruct (Z.testbit bs b).
      + rewrite Z.pow2_bits_eqb by lia. symmetry. now apply Z.eqb_neq.
      + now rewrite Z.bits_0. }
  rewrite Hland. destruct (Z.testbit bs b); simpl.
  - apply negb_true_iff, Z.eqb_neq. lia.
  - reflexivity.
Qed.

Lemma clear_button_bits (bs b m : Z) :
  valid_button b = true -> in_uint32 bs -> 0 <= m ->
  Z.testbit (clear_button bs b) m = Z.testbit bs m && negb (m =? b).
Proof.
  intros Hb Hbs Hm. unfold clear_button, wrap_uint32.
  destruct (button_bit_pow b Hb) as [-> Hpos].
  apply valid_button_range in Hb.
  rewrite Z.land_spec.
  destruct (Z.lt_ge_cases m 32) as [Hlow|Hhigh].
  - rewrite Z.mod_pow2_bits_low, Z.lnot_spec, Z.pow2_bits_eqb by lia.
    now rewrite (Z.eqb_sym b m).
  - now rewrite (uint32_high_bits bs m Hbs Hhigh).
Qed.

Lemma clear_button_range (bs b : Z) : in_uint32 (clear_button bs b).
Proof.
  unfold clear_button, wrap_uint32.
  rewrite <- (Z.land_ones _ 32), Z.land_assoc, Z.land_ones by lia.
  apply wrap_uint32_range.
Qed.

Lemma flat_map_loop_indices_ext {B : Type} (f g : Z -> list B) (n : nat) (i : Z) :
  (forall k, i <= k -> f k = g k) ->
  flat_map f (loop_indices n i) = flat_map g (loop_indices n i).
Proof.
  revert i. induction n as [|n IH]; intros i Hfg; [reflexivity|].
  simpl. rewrite (Hfg i) by lia. f_equal.
  apply IH. intros k Hk. apply Hfg. lia.
Qed.

Lemma set_buttons_set_buttons (a b : Z) (s : PointerState) :
  set_buttons a (set_buttons b s) = set_buttons a s.
Proof. now destruct s. Qed.

Lemma set_buttons_same (s : PointerState) : set_buttons (m_mouse_buttons s) s = s.
Proof. now destruct s. Qed.

Lemma m_mouse_buttons_set_buttons (a : Z) (s : PointerState) :
  m_mouse_buttons (set_buttons a s) = a.
Proof. now destruct s. Qed.

(** The loop of HandleMouseSync over the buttons i, ..., i + n - 1. *)
Lemma sync_release_loop_spec (w : Window) (n : nat) :
  forall (i : Z) (s : PointerState),
    0 <= i -> i + Z.of_nat n <= 32 -> in_uint32 (m_mouse_buttons s) ->
    let r := sync_release_loop w n i s in
    r.1 = set_buttons (m_mouse_buttons r.1) s
    /\ in_uint32 (m_mouse_buttons r.1)
    /\ (forall m, 0 <= m ->
          Z.testbit (m_mouse_buttons r.1) m
          = Z.testbit (m_mouse_buttons s) m
            && negb ((i <=? m) && (m <? i + Z.of_nat n)))
    /\ r.2 = flat_map (sync_release w s) (loop_indices n i).
Proof.
  induction n as [|n IH]; intros i s Hi Hn Hbs.
  - simpl. split_and!.
    + now rewrite set_buttons_same.
    + assumption.
    + intros m Hm.
      destruct (Z.testbit (m_mouse_buttons s) m), (Z.leb_spec i m),
        (Z.ltb_spec m (i + Z.of_nat 0)); simpl; first [reflexivity | lia].
    + reflexivity.
  - assert (Hvalid : valid_button i = true) by (apply valid_button_range; lia).
    cbn [sync_release_loop].
    set (s1 := if button_down (m_mouse_buttons s) i
               then set_buttons (clear_button (m_mouse_buttons s) i) s else s).
    assert (Hs1 : s1 = set_buttons (m_mouse_buttons s1) s
                  /\ in_uint32 (m_mouse_buttons s1)
                  /\ (forall m, 0 <= m ->
                        Z.testbit (m_mouse_buttons s1) m
                        = Z.testbit (m_mouse_buttons s) m && negb (m =? i))
                  /\ m_mouse_was_control_click s1 = m_mouse_was_control_click s).
    { subst s1. rewrite (button_down_testbit _ _ Hvalid).
      destruct (Z.testbit (m_mouse_buttons s) i) eqn:Hbit.
      - rewrite m_mouse_buttons_set_buttons. split_and!.
        + reflexivity.
        + apply clear_button_range.
        + intros m Hm. now apply clear_button_bits.
        + now destruct s.
      - rewrite set_buttons_same. split_and!; try reflexivity; try assumption.
        intros m Hm. destruct (Z.eqb_spec m i) as [->|Hne].
        + now rewrite Hbit.
        + now rewrite andb_true_r. }
    destruct Hs1 as (Hs1 & Hrange1 & Hbits1 & Hcc1).
    assert (Htr : (if button_down (m_mouse_buttons s) i
                   then (set_buttons (clear_button (m_mouse_buttons s) i) s,
                         [SendMouseRelease w (sync_button s i) true])
                   else (s, []))
                  = (s1, sync_release w s i)).
    { subst s1. unfold sync_release. rewrite (button_down_testbit _ _ Hvalid).
      now destruct (Z.testbit (m_mouse_buttons s) i). }
    rewrite Htr.
    specialize (IH (i + 1) s1 ltac:(lia) ltac:(lia) Hrange1).
    destruct (sync_release_loop w n (i + 1) s1) as [s2 tr2].
    cbn [fst snd] in *. destruct IH as (Hs2 & Hrange2 & Hbits2 & Htr2).
    split_and!.
    + rewrite Hs2, Hs1 at 1. now rewrite set_buttons_set_buttons.
    + assumption.
    + intros m Hm. rewrite (Hbits2 m Hm), (Hbits1 m Hm).
      destruct (Z.testbit (m_mouse_buttons s) m); [|reflexivity]. simpl.
      destruct (Z.eqb_spec m i), (Z.leb_spec (i + 1) m), (Z.leb_spec i m),
        (Z.ltb_spec m (i + 1 + Z.of_nat n)), (Z.ltb_spec m (i + Z.of_nat (S n)));
        simpl; lia.
    + rewrite Htr2. simpl. f_equal.
      apply flat_map_loop_indices_ext. intros k Hk.
      unfold sync_release, sync_button. rewrite Hcc1, (Hbits1 k) by lia.
      replace (k =? i) with false by (symmetry; apply Z.eqb_neq; lia).
      now rewrite andb_true_r.
Qed.

(** *** HandleMouseSync *)

Lemma sync_reset_fields (s : PointerState) :
  m_mouse_grabbed (sync_reset s) = false
  /\ m_mouse_drag_button (sync_reset s) = no_button
  /\ m_mouse_click_count (sync_reset s) = 0
  /\ m_mouse_last_click_time (sync_reset s) = 0
  /\ m_mouse_was_control_click (sync_reset s) = false
  /\ m_mouse_buttons (sync_reset s) = m_mouse_buttons s
  /\ m_mouse_grabbed_explicit (sync_reset s) = m_mouse_grabbed_explicit s
  /\ m_mouse_window (sync_reset s) = m_mouse_window s.
Proof. destruct s. repeat split. Qed.

Lemma sync_release_loop_buttons (w : Window) (s : PointerState) :
  in_uint32 (m_mouse_buttons s) ->
  sync_release_loop w 3 0 s
  = (set_buttons (Z.ldiff (m_mouse_buttons s) (Z.ones 3)) s,
     flat_map (sync_release w s) [0; 1; 2]).
Proof.
  intros Hbs.
  destruct (sync_release_loop_spec w 3 0 s ltac:(lia) ltac:(simpl; lia) Hbs)
    as (Hs & _ & Hbits & Htr).
  destruct (sync_release_loop w 3 0 s) as [s' tr]. cbn [fst snd] in *.
  rewrite Hs, Htr. f_equal. f_equal.
  apply Z.bits_inj'. intros m Hm.
  rewrite (Hbits m Hm), Z.ldiff_spec. f_equal. f_equal.
  destruct (Z.ltb_spec m (0 + Z.of_nat 3)) as [Hlt|Hge].
  - rewrite Z.ones_spec_low by (simpl in Hlt; lia).
    now rewrite (proj2 (Z.leb_le 0 m) Hm).
  - rewrite Z.ones_spec_high by (simpl in Hge; lia). now rewrite andb_false_r.
Qed.

(** What HandleMouseSync does. When there is a mouse window, it clears the
    bits of buttons 0, 1 and 2 and sends, for each of them that was set and
    in this order, a release flagged as synthesized, button 0 being reported
    as button 2 after a control-click; higher bits are left as they were,
    and without a mouse window no bit is cleared and no release is sent. It
    then clears the grabbed flag, the drag button, the click count and the
    click time together, and runs HandleMouseMove at the mouse location
    reported by the host. *)
Lemma HandleMouseSync_effect (h : Host) (s : PointerState) :
  in_uint32 (m_mouse_buttons s) ->
  let s1 := sync_reset (set_buttons (sync_buttons s) s) in
  let t_location :=
    Coord.MapScreenNSPointToMCPoint (GetDesktopHeight h) (mouseLocation h) in
  HandleMouseSync h s
  = ((HandleMouseMove h t_location s1).1,
     sync_releases s ++ (HandleMouseMove h t_location s1).2)
  /\ (m_mouse_grabbed s1 = false /\ m_mouse_drag_button s1 = no_button
      /\ m_mouse_click_count s1 = 0 /\ m_mouse_last_click_time s1 = 0)
  /\ (m_mouse_window s <> None ->
      forall i, 0 <= i < 3 ->
        Z.testbit (m_mouse_buttons (HandleMouseSync h s).1) i = false)
  /\ (forall i, 3 <= i ->
        Z.testbit (m_mouse_buttons (HandleMouseSync h s).1) i
        = Z.testbit (m_mouse_buttons s) i)
  /\ (m_mouse_window s = None ->
      m_mouse_buttons (HandleMouseSync h s).1 = m_mouse_buttons s
      /\ sync_releases s = []).
Proof.
  intros Hbs s1 t_location.
  assert (Hrun : HandleMouseSync h s
                 = ((HandleMouseMove h t_location s1).1,
                    sync_releases s ++ (HandleMouseMove h t_location s1).2)).
  { unfold HandleMouseSync, sync_releases. subst s1 t_location.
    unfold sync_buttons.
    destruct (m_mouse_window s) as [w|] eqn:Hw.
    - rewrite (sync_release_loop_buttons w s Hbs).
      now destruct (HandleMouseMove h _ _).
    - rewrite set_buttons_same. now destruct (HandleMouseMove h _ _). }
  assert (Hbuttons : m_mouse_buttons (HandleMouseSync h s).1 = sync_buttons s).
  { rewrite Hrun. cbn [fst].
    destruct (HandleMouseMove_frame h t_location s1) as (_ & -> & _).
    subst s1. destruct (sync_reset_fields (set_buttons (sync_buttons s) s))
      as (_ & _ & _ & _ & _ & -> & _).
    apply m_mouse_buttons_set_buttons. }
  split; [exact Hrun|]. split.
  { destruct (sync_reset_fields (set_buttons (sync_buttons s) s))
      as (Hg & Hd & Hc & Ht & _). now repeat split. }
  rewrite Hbuttons. unfold sync_buttons, sync_releases.
  destruct (m_mouse_window s) as [w|]; split_and!.
  - intros _ i Hi. rewrite Z.ldiff_spec, Z.ones_spec_low by lia.
    apply andb_false_r.
  - intros i Hi. rewrite Z.ldiff_spec, Z.ones_spec_high by lia.
    apply andb_true_r.
  - discriminate.
  - intros Hnone. now contradiction Hnone.
  - reflexivity.
  - now intros _.
Qed.

(** *** The grab flags along sequences of operations *)

Lemma HandleMousePress_cases (h : Host) (b : Z) (st : bool) (s : PointerState) :
  HandleMousePress h b st s = None
  \/ HandleMousePress h b st s = Some (s, [])
  \/ exists w,
       m_mouse_window s = Some w /\ valid_button b = true
       /\ button_down (m_mouse_buttons s) b = negb st.
Proof.
  destruct (valid_button b) eqn:Hb.
  2: { left. unfold HandleMousePress. now rewrite Hb. }
  destruct (Bool.eqb st (button_down (m_mouse_buttons s) b)) eqn:Hst.
  { right. left. apply HandleMousePress_ignored; [assumption|].
    left. symmetry. now apply eqb_prop. }
  apply eqb_false_iff in Hst.
  destruct (m_mouse_window s) as [w|] eqn:Hw.
  - right. right. exists w. split_and!; try reflexivity.
    destruct st, (button_down (m_mouse_buttons s) b); simpl; congruence.
  - destruct st.
    + right. left. apply HandleMousePress_ignored; [assumption|]. now right.
    + left. destruct s as [mw bs g e dr c t lb lp sp q cc cl m].
      simpl in *. subst mw. unfold HandleMousePress. pm_simpl.
      rewrite Hb. pm_simpl.
      destruct (button_down bs b); [|congruence]. pm_simpl.
      split_ifs; reflexivity.
Qed.

Lemma HandleMousePress_grab_invariant (h : Host) (b : Z) (st : bool)
    (s s' : PointerState) (tr : list Notification) :
  grab_invariant s ->
  HandleMousePress h b st s = Some (s', tr) ->
  grab_invariant s'.
Proof.
  intros Hinv Hrun.
  destruct (HandleMousePress_cases h b st s) as [Hnone | [Hsame | (w & Hw & Hb & Hdown)]].
  - congruence.
  - rewrite Hsame in Hrun. now inversion Hrun; subst.
  - destruct st; simpl in Hdown.
    + rewrite (HandleMousePress_press h b s w Hb Hdown Hw) in Hrun.
      inversion Hrun; subst. unfold grab_invariant. cbn.
      now rewrite (press_sets_button _ b Hb).
    + rewrite (HandleMousePress_release h b s w Hb Hdown Hw) in Hrun.
      inversion Hrun; subst. unfold grab_invariant.
      cbn [m_mouse_grabbed m_mouse_buttons m_mouse_grabbed_explicit].
      now destruct (clear_button (m_mouse_buttons s) b =? 0).
Qed.

Lemma grab_invariant_has_cause (s : PointerState) :
  grab_invariant s -> grabbed_has_cause s.
Proof.
  unfold grab_invariant, grabbed_has_cause. intros -> Hg.
  apply orb_true_iff in Hg as [Hb|He]; [left|now right].
  now apply negb_true_iff, Z.eqb_neq in Hb.
Qed.

Lemma HandleMousePress_has_cause (h : Host) (b : Z) (st : bool)
    (s s' : PointerState) (tr : list Notification) :
  grabbed_has_cause s ->
  HandleMousePress h b st s = Some (s', tr) ->
  grabbed_has_cause s'.
Proof.
  intros Hinv Hrun.
  destruct (HandleMousePress_cases h b st s) as [Hnone | [Hsame | (w & Hw & Hb & Hdown)]].
  - congruence.
  - rewrite Hsame in Hrun. now inversion Hrun; subst.
  - apply grab_invariant_has_cause.
    destruct st; simpl in Hdown.
    + rewrite (HandleMousePress_press h b s w Hb Hdown Hw) in Hrun.
      inversion Hrun; subst. unfold grab_invariant. cbn.
      now rewrite (press_sets_button _ b Hb).
    + rewrite (HandleMousePress_release h b s w Hb Hdown Hw) in Hrun.
      inversion Hrun; subst. unfold grab_invariant.
      cbn [m_mouse_grabbed m_mouse_buttons m_mouse_grabbed_explicit].
      now destruct (clear_button (m_mouse_buttons s) b =? 0).
Qed.

Lemma GrabPointer_grab_invariant (w : option Window) (s : PointerState) :
  grab_invariant s -> grab_invariant (GrabPointer w s).
Proof.
  unfold grab_invariant, GrabPointer. destruct s as [mw bs g e dr c t lb lp sp q cc cl m].
  pm_simpl. intros ->.
  destruct (window_eqb w mw); pm_simpl; rewrite ?andb_true_r, ?andb_false_r.
  - destruct (negb (bs =? 0) || e); pm_simpl; now rewrite orb_true_r.
  - reflexivity.
Qed.

Lemma GrabPointer_has_cause (w : option Window) (s : PointerState) :
  grabbed_has_cause s -> grabbed_has_cause (GrabPointer w s).
Proof.
  unfold grabbed_has_cause, GrabPointer. destruct s as [mw bs g e dr c t lb lp sp q cc cl m].
  pm_simpl. intros Hinv.
  destruct (window_eqb w mw), g; pm_simpl; auto.
Qed.

Lemma UngrabPointer_grab_invariant (s : PointerState) :
  grab_invariant s -> grab_invariant (UngrabPointer s).
Proof.
  unfold grab_invariant, UngrabPointer. destruct s as [mw bs g e dr c t lb lp sp q cc cl m].
  pm_simpl. intros ->. destruct (bs =? 0) eqn:Hz; pm_simpl; now rewrite ?Hz.
Qed.

Lemma UngrabPointer_has_cause (s : PointerState) :
  grabbed_has_cause s -> grabbed_has_cause (UngrabPointer s).
Proof.
  unfold grabbed_has_cause, UngrabPointer. destruct s as [mw bs g e dr c t lb lp sp q cc cl m].
  pm_simpl. intros Hinv. destruct (bs =? 0); pm_simpl; [discriminate|assumption].
Qed.

Lemma HandleMouseMove_grab_invariant (h : Host) (p : MCPoint) (s : PointerState) :
  grab_invariant s -> grab_invariant (HandleMouseMove h p s).1.
Proof.
  unfold grab_invariant.
  destruct (HandleMouseMove_frame h p s) as (_ & -> & -> & -> & _). auto.
Qed.

Lemma HandleMouseMove_has_cause (h : Host) (p : MCPoint) (s : PointerState) :
  grabbed_has_cause s -> grabbed_has_cause (HandleMouseMove h p s).1.
Proof.
  unfold grabbed_has_cause.
  destruct (HandleMouseMove_frame h p s) as (_ & -> & -> & -> & _). auto.
Qed.

(** HandleMouseSync always leaves the grabbed flag clear, and the
    explicit-grab flag as it was. *)
Lemma HandleMouseSync_grab_flags (h : Host) (s : PointerState) :
  m_mouse_grabbed (HandleMouseSync h s).1 = false
  /\ m_mouse_grabbed_explicit (HandleMouseSync h s).1 = m_mouse_grabbed_explicit s.
Proof.
  unfold HandleMouseSync.
  assert (Hloop : forall w n i s0,
             m_mouse_grabbed_explicit (sync_release_loop w n i s0).1
             = m_mouse_grabbed_explicit s0).
  { intros w n. induction n as [|n IH]; intros i s0; [reflexivity|].
    cbn [sync_release_loop].
    destruct (button_down (m_mouse_buttons s0) i).
    - specialize (IH (i + 1) (set_buttons (clear_button (m_mouse_buttons s0) i) s0)).
      destruct (sync_release_loop w n (i + 1) _). cbn [fst] in *.
      rewrite IH. now destruct s0.
    - specialize (IH (i + 1) s0).
      now destruct (sync_release_loop w n (i + 1) s0). }
  set (r := match m_mouse_window s with
            | Some w => sync_release_loop w 3 0 s
            | None => (s, [])
            end).
  assert (Hr : m_mouse_grabbed_explicit r.1 = m_mouse_grabbed_explicit s).
  { subst r. destruct (m_mouse_window s); [apply Hloop|reflexivity]. }
  destruct r as [s1 tr1]. cbn [fst] in Hr.
  pose proof (HandleMouseMove_frame h
      (Coord.MapScreenNSPointToMCPoint (GetDesktopHeight h) (mouseLocation h))
      (sync_reset s1)) as (_ & _ & Hg & He & _).
  destruct (HandleMouseMove h _ (sync_reset s1)) as [s2 tr2]. cbn [fst] in *.
  destruct (sync_reset_fields s1) as (Hg1 & _ & _ & _ & _ & _ & He1 & _).
  split; congruence.
Qed.

Lemma step_grab_invariant (op : PointerOp) (s s' : PointerState)
    (tr : list Notification) :
  is_sync op = false -> grab_invariant s -> step op s = Some (s', tr) ->
  grab_invariant s'.
Proof.
  intros Hop Hinv Hstep. destruct op as [h b st|h p|w| |h]; simpl in Hstep.
  - eapply HandleMousePress_grab_invariant; eassumption.
  - inversion Hstep as [Heq].
    replace s' with (HandleMouseMove h p s).1 by now rewrite Heq.
    now apply HandleMouseMove_grab_invariant.
  - inversion Hstep; subst. now apply GrabPointer_grab_invariant.
  - inversion Hstep; subst. now apply UngrabPointer_grab_invariant.
  - discriminate.
Qed.

Lemma step_has_cause (op : PointerOp) (s s' : PointerState)
    (tr : list Notification) :
  grabbed_has_cause s -> step op s = Some (s', tr) -> grabbed_has_cause s'.
Proof.
  intros Hinv Hstep. destruct op as [h b st|h p|w| |h]; simpl in Hstep.
  - eapply HandleMousePress_has_cause; eassumption.
  - inversion Hstep as [Heq].
    replace s' with (HandleMouseMove h p s).1 by now rewrite Heq.
    now apply HandleMouseMove_has_cause.
  - inversion Hstep; subst. now apply GrabPointer_has_cause.
  - inversion Hstep; subst. now apply UngrabPointer_has_cause.
  - inversion Hstep as [Heq].
    replace s' with (HandleMouseSync h s).1 by now rewrite Heq.
    intros Hg. now rewrite (proj1 (HandleMouseSync_grab_flags h s)) in Hg.
Qed.

(** C1, as the code has it. Along every sequence of press, release, motion,
    grab and ungrab operations started in a state where the grabbed flag
    equals (button mask non-zero or explicit-grab flag set), this equality
    holds after each step. When HandleMouseSync steps are part of the
    sequence, after each step the grabbed flag still implies that the button
    mask is non-zero or the explicit-grab flag is set. *)
Theorem grab_invariant_along_operations (ops : list PointerOp) (s : PointerState) :
  grab_invariant s ->
  (forallb (fun op => negb (is_sync op)) ops = true ->
   Forall (fun r => grab_invariant r.1) (trajectory ops s))
  /\ Forall (fun r => grabbed_has_cause r.1) (trajectory ops s).
Proof.
  intros Hinv. split.
  - revert s Hinv. induction ops as [|op ops IH]; intros s Hinv Hops; [constructor|].
    simpl in Hops. apply andb_true_iff in Hops as [Hop Hops].
    apply negb_true_iff in Hop. cbn [trajectory].
    destruct (step op s) as [[s' tr]|] eqn:Hstep; [|constructor].
    pose proof (step_grab_invariant op s s' tr Hop Hinv Hstep) as Hinv'.
    constructor; [exact Hinv'|]. now apply IH.
  - apply grab_invariant_has_cause in Hinv.
    revert s Hinv. induction ops as [|op ops IH]; intros s Hinv; [constructor|].
    cbn [trajectory].
    destruct (step op s) as [[s' tr]|] eqn:Hstep; [|constructor].
    pose proof (step_has_cause op s s' tr Hinv Hstep) as Hinv'.
    constructor; [exact Hinv'|]. now apply IH.
Qed.

(** *** Drags within a press/release cycle *)

Lemma button_down_nonzero (bs b : Z) : button_down bs b = true -> bs <> 0.
Proof.
  unfold button_down. intros Hdown ->. now rewrite Z.land_0_l in Hdown.
Qed.

Lemma press_button_range (h : Host) (b : Z) (s : PointerState) :
  valid_button b = true -> 0 <= press_button h b s < 32.
Proof.
  intros Hb. apply valid_button_range in Hb. unfold press_button.
  destruct (_ && _); lia.
Qed.

Lemma drags_app (a b : list Notification) : drags (a ++ b) = drags a ++ drags b.
Proof.
  induction a as [|n a IH]; [reflexivity|].
  destruct n; simpl; rewrite IH; reflexivity.
Qed.

(** One step of a press, release or motion sequence: either it sends no
    drag and, unless the mask returned to zero, leaves the latch alone, or
    it is a motion step that sends exactly one drag. *)
Lemma step_drags (op : PointerOp) (s s' : PointerState) (tr : list Notification) :
  is_button_or_move op = true ->
  step op s = Some (s', tr) ->
  (drags tr = []
   /\ (m_mouse_buttons s' <> 0 -> m_mouse_drag_button s' = m_mouse_drag_button s))
  \/ (exists h p w,
        op = OpMove h p
        /\ drags tr = [SendMouseDrag w (m_mouse_last_click_button s)]
        /\ m_mouse_drag_button s = no_button
        /\ m_mouse_drag_button s' = m_mouse_last_click_button s
        /\ m_mouse_buttons s <> 0
        /\ (Z.abs (MCPoint_x p - MCPoint_x (m_mouse_last_click_screen_position s))
              >= MCdragdelta h
            \/ Z.abs (MCPoint_y p - MCPoint_y (m_mouse_last_click_screen_position s))
              >= MCdragdelta h)).
Proof.
  intros Hop Hstep. destruct op as [h b st|h p|w| |h]; try discriminate;
    simpl in Hstep.
  - left.
    destruct (HandleMousePress_cases h b st s)
      as [Hnone | [Hsame | (w & Hw & Hb & Hdown)]].
    + congruence.
    + rewrite Hsame in Hstep. inversion Hstep; subst. now split.
    + destruct st; simpl in Hdown.
      * rewrite (HandleMousePress_press h b s w Hb Hdown Hw) in Hstep.
        inversion Hstep; subst. now split.
      * rewrite (HandleMousePress_release h b s w Hb Hdown Hw) in Hstep.
        inversion Hstep; subst. split.
        -- now destruct (_ || _).
        -- cbn [m_mouse_buttons m_mouse_drag_button]. intros Hnz.
           now rewrite (proj2 (Z.eqb_neq _ _) Hnz).
  - inversion Hstep as [Heq].
    pose proof (HandleMouseMove_drag h p s) as Hdrag.
    rewrite Heq in Hdrag. cbn [fst snd] in Hdrag.
    destruct Hdrag as [[Hnone Hlatch] | (w & Hone & _ & Hnz & Hno & Hlatch & Hfar)].
    + left. now split.
    + right. exists h, p, w. now split_and!.
Qed.

Lemma step_last_click_button (op : PointerOp) (s s' : PointerState)
    (tr : list Notification) :
  is_button_or_move op = true ->
  step op s = Some (s', tr) ->
  m_mouse_buttons s = 0 \/ 0 <= m_mouse_last_click_button s < 32 ->
  m_mouse_buttons s' <> 0 ->
  0 <= m_mouse_last_click_button s' < 32.
Proof.
  intros Hop Hstep Hlast Hnz. destruct op as [h b st|h p|w| |h]; try discriminate;
    simpl in Hstep.
  - destruct (HandleMousePress_cases h b st s)
      as [Hnone | [Hsame | (w & Hw & Hb & Hdown)]].
    + congruence.
    + rewrite Hsame in Hstep. inversion Hstep; subst. tauto.
    + destruct st; simpl in Hdown.
      * rewrite (HandleMousePress_press h b s w Hb Hdown Hw) in Hstep.
        inversion Hstep; subst. cbn. now apply press_button_range.
      * rewrite (HandleMousePress_release h b s w Hb Hdown Hw) in Hstep.
        inversion Hstep; subst. cbn.
        apply button_down_nonzero in Hdown. tauto.
  - inversion Hstep as [Heq].
    destruct (HandleMouseMove_frame h p s) as (_ & Hbs & _ & _ & Hlb & _).
    rewrite Heq in Hbs, Hlb. cbn [fst] in Hbs, Hlb. rewrite Hlb.
    rewrite Hbs in Hnz. tauto.
Qed.

Lemma cycle_drags_bound (ops : list PointerOp) :
  forall s : PointerState,
    forallb is_button_or_move ops = true ->
    m_mouse_buttons s = 0 \/ 0 <= m_mouse_last_click_button s < 32 ->
    stays_down (trajectory ops s) ->
    (length (all_drags (trajectory ops s)) <= drag_allowance s)%nat.
Proof.
  induction ops as [|op ops IH]; intros s Hops Hlast Hdown; [simpl; lia|].
  simpl in Hops. apply andb_true_iff in Hops as [Hop Hops].
  cbn [trajectory] in *.
  destruct (step op s) as [[s' tr]|] eqn:Hstep; [|simpl; lia].
  unfold all_drags. cbn [flat_map snd]. rewrite length_app.
  fold (all_drags (trajectory ops s')).
  assert (Hrest : (length (all_drags (trajectory ops s')) <= drag_allowance s')%nat
                  /\ (trajectory ops s' <> [] -> m_mouse_buttons s' <> 0)).
  { cbn [stays_down] in Hdown.
    destruct (trajectory ops s') as [|r rest] eqn:Htraj.
    - split; [simpl; lia | congruence].
    - destruct Hdown as [Hnz Hdown]. cbn [fst] in Hnz.
      split; [|now intros _].
      rewrite <- Htraj. apply IH; [assumption| |now rewrite Htraj].
      right. eapply step_last_click_button; eassumption. }
  destruct Hrest as [Hrest Hnz].
  destruct (step_drags op s s' tr Hop Hstep)
    as [[Hnone Hlatch] | (h & p & w & _ & Hone & Hno & Hlatch & Hbs & _)].
  - rewrite Hnone. cbn [length Nat.add].
    destruct (trajectory ops s') as [|r rest] eqn:Htraj; [simpl; lia|].
    unfold drag_allowance in *. rewrite <- Hlatch; [assumption|].
    apply Hnz. congruence.
  - rewrite Hone. cbn [length].
    destruct (trajectory ops s') as [|r rest] eqn:Htraj.
    + unfold drag_allowance. rewrite Hno. simpl. lia.
    + assert (Hvalid : 0 <= m_mouse_last_click_button s < 32) by tauto.
      unfold drag_allowance in *. rewrite Hno, Z.eqb_refl.
      rewrite Hlatch in Hrest.
      replace (m_mouse_last_click_button s =? no_button) with false in Hrest.
      * lia.
      * symmetry. apply Z.eqb_neq. unfold no_button. lia.
Qed.

(** C8, as the code has it. Within one press/release cycle of a sequence of
    presses, releases and motion steps (from a zero button mask, the mask
    non-zero after every step but possibly the last) at most one drag is
    sent. A step that sends a drag is a motion step whose displacement from
    the last click position is at least MCdragdelta on the x or the y axis,
    taken while a button is down; the button it sends and latches is the
    last-click button. *)
Theorem drag_once_per_cycle :
  (forall (ops : list PointerOp) (s : PointerState),
     m_mouse_buttons s = 0 ->
     forallb is_button_or_move ops = true ->
     stays_down (trajectory ops s) ->
     (length (all_drags (trajectory ops s)) <= 1)%nat)
  /\ (forall (op : PointerOp) (s s' : PointerState) (tr : list Notification),
        is_button_or_move op = true ->
        step op s = Some (s', tr) ->
        drags tr = []
        \/ exists h p w,
             op = OpMove h p
             /\ drags tr = [SendMouseDrag w (m_mouse_last_click_button s)]
             /\ m_mouse_drag_button s' = m_mouse_last_click_button s
             /\ m_mouse_buttons s <> 0
             /\ (Z.abs (MCPoint_x p
                        - MCPoint_x (m_mouse_last_click_screen_position s))
                   >= MCdragdelta h
                 \/ Z.abs (MCPoint_y p
                           - MCPoint_y (m_mouse_last_click_screen_position s))
                   >= MCdragdelta h)).
Proof.
  split.
  - intros ops s Hzero Hops Hdown.
    pose proof (cycle_drags_bound ops s Hops (or_introl Hzero) Hdown) as Hbound.
    unfold drag_allowance in Hbound. destruct (_ =? _) in Hbound; lia.
  - intros op s s' tr Hop Hstep.
    destruct (step_drags op s s' tr Hop Hstep)
      as [[Hnone _] | (h & p & w & Hmove & Hone & _ & Hlatch & Hbs & Hfar)].
    + now left.
    + right. exists h, p, w. now split_and!.
Qed.

(** *** Sequences without undefined steps *)

Lemma HandleMousePress_defined (h : Host) (b : Z) (st : bool) (s : PointerState) :
  valid_button b = true -> down_is_owned s ->
  exists s' tr, HandleMousePress h b st s = Some (s', tr) /\ down_is_owned s'.
Proof.
  intros Hb Hown.
  destruct (Bool.eqb st (button_down (m_mouse_buttons s) b)) eqn:Hst.
  { exists s, []. split; [|assumption].
    apply HandleMousePress_ignored; [assumption|].
    left. symmetry. now apply eqb_prop. }
  apply eqb_false_iff in Hst.
  destruct (m_mouse_window s) as [w|] eqn:Hw.
  - destruct st.
    + assert (Hup : button_down (m_mouse_buttons s) b = false)
        by (destruct (button_down _ _); congruence).
      rewrite (HandleMousePress_press h b s w Hb Hup Hw).
      eexists _, _. split; [reflexivity|]. intros _. now split.
    + assert (Hdown : button_down (m_mouse_buttons s) b = true)
        by (destruct (button_down _ _); congruence).
      rewrite (HandleMousePress_release h b s w Hb Hdown Hw).
      eexists _, _. split; [reflexivity|].
      unfold down_is_owned. cbn [m_mouse_buttons m_mouse_window m_mouse_grabbed].
      intros Hnz. split; [discriminate|].
      now apply negb_true_iff, Z.eqb_neq.
  - destruct st.
    + exists s, []. split; [|assumption].
      apply HandleMousePress_ignored; [assumption|]. now right.
    + assert (Hdown : button_down (m_mouse_buttons s) b = true)
        by (destruct (button_down _ _); congruence).
      apply button_down_nonzero in Hdown.
      destruct (Hown Hdown) as [Hsome _]. congruence.
Qed.

Lemma step_defined (op : PointerOp) (s : PointerState) :
  is_sync op = false -> op_valid op = true -> down_is_owned s ->
  exists s' tr, step op s = Some (s', tr) /\ down_is_owned s'.
Proof.
  intros Hsync Hvalid Hown. destruct op as [h b st|h p|w| |h]; try discriminate;
    cbn [step].
  - now apply HandleMousePress_defined.
  - exists (HandleMouseMove h p s).1, (HandleMouseMove h p s).2.
    split; [now destruct (HandleMouseMove h p s)|].
    unfold down_is_owned.
    destruct (HandleMouseMove_frame h p s) as (-> & -> & -> & _).
    intros Hnz. destruct (Hown Hnz) as [Hw Hg].
    unfold resolve_mouse_window. rewrite Hg. now split.
  - eexists _, _. split; [reflexivity|]. revert Hown.
    unfold down_is_owned, GrabPointer.
    destruct s as [mw bs g e dr c t lb lp sp q cc cl m]. pm_simpl. intros Hown.
    destruct g; pm_simpl; destruct (window_eqb w mw) eqn:Heq; pm_simpl; try assumption.
    intros Hnz. split; [now apply Hown | reflexivity].
  - eexists _, _. split; [reflexivity|]. revert Hown.
    unfold down_is_owned, UngrabPointer.
    destruct s as [mw bs g e dr c t lb lp sp q cc cl m]. pm_simpl. intros Hown.
    destruct (bs =? 0) eqn:Hz; pm_simpl; [|assumption].
    apply Z.eqb_eq in Hz. congruence.
Qed.

(** From a state where a button that is down has a mouse window and a grab,
    a sequence of valid operations other than HandleMouseSync is defined at
    every step. *)
Lemma trajectory_defined (ops : list PointerOp) :
  forall s : PointerState,
    down_is_owned s ->
    forallb (fun op => negb (is_sync op) && op_valid op) ops = true ->
    length (trajectory ops s) = length ops.
Proof.
  induction ops as [|op ops IH]; intros s Hown Hops; [reflexivity|].
  simpl in Hops. apply andb_true_iff in Hops as [Hop Hops].
  apply andb_true_iff in Hop as [Hsync Hvalid]. apply negb_true_iff in Hsync.
  destruct (step_defined op s Hsync Hvalid Hown) as (s' & tr & Hstep & Hown').
  cbn [trajectory]. rewrite Hstep. cbn [length]. f_equal. now apply IH.
Qed.

End PointerMachine.

(** ** Modal session stack *)

Section ModalStack.
Import Modal.

Lemma find_session_index_list_find (w : Window) (l : list MCModalSession) :
  match list_find (fun e => window e = w) l with
  | None => find_session_index w l = length l
  | Some (i, _) => find_session_index w l = i /\ (i < length l)%nat
  end.
Proof.
  induction l as [|e l IH]; simpl; [reflexivity|].
  case_decide as Hw.
  - rewrite (proj2 (Nat.eqb_eq _ _) Hw). split; [reflexivity | lia].
  - rewrite (proj2 (Nat.eqb_neq _ _) Hw).
    destruct (list_find _ l) as [[i x]|]; simpl.
    + destruct IH as [-> Hi]. split; [reflexivity | lia].
    + now rewrite IH.
Qed.

Lemma teardown_loop_split (keep run : list MCModalSession) :
  Forall done_entry run -> top_incomplete keep ->
  teardown_loop (length (keep ++ run)) (keep ++ run)
  = (keep, flat_map teardown (rev run)).
Proof.
  intros Hrun Hkeep. induction run as [|e run IH] using rev_ind.
  - rewrite app_nil_r. simpl.
    destruct Hkeep as [-> | (k & e & -> & He)]; [reflexivity|].
    rewrite length_app. simpl. rewrite Nat.add_1_r. simpl.
    rewrite list_lookup_middle by reflexivity. now rewrite He.
  - apply Forall_app in Hrun as [Hrun He].
    apply Forall_inv in He. unfold done_entry in He.
    specialize (IH Hrun). rewrite app_assoc.
    remember (keep ++ run) as kr eqn:Hkr.
    rewrite length_app. simpl length. rewrite Nat.add_1_r.
    cbn [teardown_loop].
    rewrite list_lookup_middle by reflexivity. rewrite He. cbn [negb].
    rewrite length_app. simpl length.
    replace (length kr + 1 - 1)%nat with (length kr) by lia.
    rewrite take_app_length, IH.
    rewrite rev_app_distr. reflexivity.
Qed.

Lemma completed_tail_split (l : list MCModalSession) :
  exists keep run, l = keep ++ run /\ Forall done_entry run /\ top_incomplete keep.
Proof.
  induction l as [|e l IH] using rev_ind.
  - exists [], []. repeat split; [constructor | now left].
  - destruct (is_done e) eqn:He.
    + destruct IH as (keep & run & -> & Hrun & Hkeep).
      exists keep, (run ++ [e]). rewrite app_assoc. repeat split; [|assumption].
      apply Forall_app; split; [assumption|]. now repeat constructor.
    + exists (l ++ [e]), []. rewrite app_nil_r. repeat split; [constructor|].
      right. now exists l, e.
Qed.

(** C2. EndModalSession for a window with no element in the stack changes
    nothing and calls nothing. Otherwise the first element for that window
    is marked complete, and the marked stack splits into a kept part, empty
    or ending in an incomplete element, followed by a run of complete
    elements. Whichever way it is so split, exactly the run is torn down,
    from the tail toward the head, each element by endModalSession on its
    session, orderOut on its window and Release of its window, in this
    order, and the kept part is the new stack. So no element is torn down
    while an incomplete element lies between it and the tail. *)
Theorem EndModalSession_completed_tail (w : Window) (l : list MCModalSession) :
  (list_find (fun e => window e = w) l = None -> EndModalSession w l = (l, []))
  /\ (forall i x,
        list_find (fun e => window e = w) l = Some (i, x) ->
        (exists keep run,
           alter (set_is_done true) i l = keep ++ run
           /\ Forall (fun e => is_done e = true) run
           /\ top_incomplete keep)
        /\ (forall keep run,
              alter (set_is_done true) i l = keep ++ run ->
              Forall (fun e => is_done e = true) run ->
              top_incomplete keep ->
              EndModalSession w l
              = (keep,
                 flat_map (fun e => [endModalSession (session e);
                                     orderOut (window e);
                                     ReleaseWindow (window e)])
                          (rev run)))).
Proof.
  pose proof (find_session_index_list_find w l) as Hfind.
  unfold EndModalSession. split.
  - intros Hnone. rewrite Hnone in Hfind. rewrite Hfind. now rewrite Nat.eqb_refl.
  - intros i x Hsome. rewrite Hsome in Hfind. destruct Hfind as [-> Hi].
    rewrite (proj2 (Nat.eqb_neq _ _)) by lia. split.
    + destruct (completed_tail_split (alter (set_is_done true) i l))
        as (keep & run & Hsplit & Hrun & Hkeep).
      exists keep, run. repeat split; assumption.
    + intros keep run Hsplit Hrun Hkeep.
      rewrite Hsplit. now apply teardown_loop_split.
Qed.

End ModalStack.

(** The scenario of three sessions A, B, C (windows 1, 2, 3) where B is
    completed first: nothing is torn down until C completes, which takes C
    and then B; A goes when it completes itself. *)
Example modal_sessions_A_B_C :
  let A := Modal.Build_MCModalSession false 1%nat (Some 11%nat) in
  let B := Modal.Build_MCModalSession false 2%nat (Some 12%nat) in
  let C := Modal.Build_MCModalSession false 3%nat (Some 13%nat) in
  let B' := Modal.set_is_done true B in
  Modal.EndModalSession 2%nat [A; B; C] = ([A; B'; C], [])
  /\ Modal.EndModalSession 3%nat [A; B'; C]
     = ([A], [Modal.endModalSession (Some 13%nat); Modal.orderOut 3%nat;
              Modal.ReleaseWindow 3%nat;
              Modal.endModalSession (Some 12%nat); Modal.orderOut 2%nat;
              Modal.ReleaseWindow 2%nat])
  /\ Modal.EndModalSession 1%nat [A]
     = ([], [Modal.endModalSession (Some 11%nat); Modal.orderOut 1%nat;
             Modal.ReleaseWindow 1%nat])
  /\ Modal.EndModalSession 7%nat [A; B'; C] = ([A; B'; C], []).
Proof. repeat split. Qed.

(** Sessions A, B, C with B completed: ending C tears down C, then B, and
    keeps A. *)
Lemma EndModalSession_completed_tail_witness :
  Modal.EndModalSession 3%nat
    [Modal.Build_MCModalSession false 1%nat (Some 11%nat);
     Modal.Build_MCModalSession true 2%nat (Some 12%nat);
     Modal.Build_MCModalSession false 3%nat (Some 13%nat)]
  = ([Modal.Build_MCModalSession false 1%nat (Some 11%nat)],
     [Modal.endModalSession (Some 13%nat); Modal.orderOut 3%nat;
      Modal.ReleaseWindow 3%nat;
      Modal.endModalSession (Some 12%nat); Modal.orderOut 2%nat;
      Modal.ReleaseWindow 2%nat]).
Proof.
  refine (proj2 (proj2 (EndModalSession_completed_tail 3%nat
            [Modal.Build_MCModalSession false 1%nat (Some 11%nat);
             Modal.Build_MCModalSession true 2%nat (Some 12%nat);
             Modal.Build_MCModalSession false 3%nat (Some 13%nat)])
          2%nat (Modal.Build_MCModalSession false 3%nat (Some 13%nat)) eq_refl)
          [Modal.Build_MCModalSession false 1%nat (Some 11%nat)]
          [Modal.Build_MCModalSession true 2%nat (Some 12%nat);
           Modal.Build_MCModalSession true 3%nat (Some 13%nat)]
          eq_refl _ _).
  - repeat constructor.
  - right. exists [], (Modal.Build_MCModalSession false 1%nat (Some 11%nat)).
    split; reflexivity.
Defined.

(** ** Blocking wait and scheduled callbacks *)

Section WaitLoop.
Import Wait.

Variable schedules : MCCallback -> list MCCallback.

Lemma executed_app (a b : list Effect) : executed (a ++ b) = executed a ++ executed b.
Proof.
  induction a as [|e a IH]; [reflexivity|].
  destruct e; simpl; rewrite IH; reflexivity.
Qed.

Lemma submitted_app (a b : list Effect) : submitted (a ++ b) = submitted a ++ submitted b.
Proof.
  induction a as [|e a IH]; [reflexivity|].
  destruct e; simpl; rewrite IH; reflexivity.
Qed.

Lemma next_event_app (a b : list Effect) :
  forallb (fun e => negb (is_next_event e)) (a ++ b)
  = forallb (fun e => negb (is_next_event e)) a
    && forallb (fun e => negb (is_next_event e)) b.
Proof. apply forallb_app. Qed.

Lemma BreakWait_queue_only (s : WaitState) :
  queue_only s (BreakWait s).1 (BreakWait s).2.
Proof.
  unfold BreakWait. destruct s as [c b q o i l m]. destruct b; simpl.
  all: constructor; simpl; rewrite ?app_nil_r; reflexivity.
Qed.

Lemma ScheduleCallback_queue_only (c : MCCallback) (s : WaitState) :
  executed (ScheduleCallback c s).2 = []
  /\ submitted (ScheduleCallback c s).2 = [c]
  /\ m_callbacks (ScheduleCallback c s).1 = m_callbacks s ++ [c]
  /\ forallb (fun e => negb (is_next_event e)) (ScheduleCallback c s).2 = true
  /\ m_observer (ScheduleCallback c s).1 = m_observer s
  /\ m_modal_sessions (ScheduleCallback c s).1 = m_modal_sessions s
  /\ m_last_mouse_event (ScheduleCallback c s).1 = m_last_mouse_event s
  /\ m_event_checking_enabled (ScheduleCallback c s).1 = m_event_checking_enabled s.
Proof.
  unfold ScheduleCallback, BreakWait. destruct s as [n b q o i l m].
  destruct b; simpl; repeat split.
Qed.

Lemma schedule_all_queue_only (cs : list MCCallback) (s : WaitState) :
  queue_only s (schedule_all cs s).1 (schedule_all cs s).2
  /\ submitted (schedule_all cs s).2 = cs
  /\ m_event_checking_enabled (schedule_all cs s).1 = m_event_checking_enabled s.
Proof.
  revert s. induction cs as [|c cs IH]; intros s.
  - simpl. repeat split; simpl; rewrite ?app_nil_r; reflexivity.
  - cbn [schedule_all].
    pose proof (ScheduleCallback_queue_only c s) as (He & Hs & Hq & Hn & Ho & Hm & Hl & Hc).
    destruct (ScheduleCallback c s) as [s1 tr1]. simpl in *.
    specialize (IH s1). destruct (schedule_all cs s1) as [s2 tr2]. simpl in *.
    destruct IH as ([He2 Hq2 Hn2 Ho2 Hm2 Hl2] & Hs2 & Hc2).
    repeat split; simpl.
    + now rewrite executed_app, He, He2.
    + rewrite Hq2, Hq, submitted_app, Hs, <- app_assoc. reflexivity.
    + now rewrite next_event_app, Hn, Hn2.
    + congruence.
    + congruence.
    + congruence.
    + now rewrite submitted_app, Hs, Hs2.
    + congruence.
Qed.

Lemma run_callbacks_queue (t_callbacks : list MCCallback) (s : WaitState) :
  executed (run_callbacks schedules t_callbacks s).2 = t_callbacks
  /\ m_callbacks (run_callbacks schedules t_callbacks s).1
     = m_callbacks s ++ submitted (run_callbacks schedules t_callbacks s).2
  /\ forallb (fun e => negb (is_next_event e))
       (run_callbacks schedules t_callbacks s).2 = true
  /\ m_observer (run_callbacks schedules t_callbacks s).1 = m_observer s
  /\ m_modal_sessions (run_callbacks schedules t_callbacks s).1 = m_modal_sessions s
  /\ m_last_mouse_event (run_callbacks schedules t_callbacks s).1 = m_last_mouse_event s
  /\ m_event_checking_enabled (run_callbacks schedules t_callbacks s).1
     = m_event_checking_enabled s.
Proof.
  revert s. induction t_callbacks as [|c rest IH]; intros s.
  - simpl. rewrite app_nil_r. repeat split.
  - cbn [run_callbacks].
    pose proof (schedule_all_queue_only (schedules c) s) as ([He Hq Hn Ho Hm Hl] & Hs & Hc).
    destruct (schedule_all (schedules c) s) as [s1 tr1]. simpl in *.
    specialize (IH s1). destruct (run_callbacks schedules rest s1) as [s2 tr2].
    simpl in *. destruct IH as (He2 & Hq2 & Hn2 & Ho2 & Hm2 & Hl2 & Hc2).
    repeat split.
    + now rewrite executed_app, He, He2.
    + rewrite Hq2, Hq, submitted_app, <- app_assoc. reflexivity.
    + now rewrite next_event_app, Hn, Hn2.
    + congruence.
    + congruence.
    + congruence.
    + congruence.
Qed.

Lemma dispatch_event_quiet (t_event : option NSEvent) (s : WaitState) :
  executed (dispatch_event t_event s).2 = []
  /\ submitted (dispatch_event t_event s).2 = []
  /\ forallb (fun e => negb (is_next_event e)) (dispatch_event t_event s).2 = true
  /\ m_callbacks (dispatch_event t_event s).1 = m_callbacks s
  /\ m_event_checking_enabled (dispatch_event t_event s).1 = m_event_checking_enabled s.
Proof.
  destruct s as [n b q o i l m].
  destruct t_event as [[[] k]|]; simpl; repeat split.
Qed.

Lemma modal_to_run_quiet (s : WaitState) :
  executed (modal_to_run s) = []
  /\ submitted (modal_to_run s) = []
  /\ forallb (fun e => negb (is_next_event e)) (modal_to_run s) = true.
Proof.
  unfold modal_to_run. destruct (last _) as [e|]; [|repeat split].
  destruct (Modal.session e); repeat split.
Qed.

(** The shape of the trace of a call that goes past the event-checking test. *)
Lemma WaitForEvent_enabled_trace (d : Q) (b : bool) (ev : option NSEvent) (s : WaitState) :
  m_event_checking_enabled s = 0 ->
  exists pre post,
    (WaitForEvent schedules d b ev s).2 = pre ++ nextEventMatchingMask b d :: post
    /\ executed pre = m_callbacks s
    /\ executed post = []
    /\ submitted post = []
    /\ forallb (fun e => negb (is_next_event e)) pre = true
    /\ forallb (fun e => negb (is_next_event e)) post = true
    /\ m_callbacks (WaitForEvent schedules d b ev s).1.2 = submitted pre
    /\ m_event_checking_enabled (WaitForEvent schedules d b ev s).1.2 = 0.
Proof.
  intros Hen. unfold WaitForEvent, IsEventCheckingEnabled. rewrite Hen. simpl.
  destruct s as [n wb q o i l m]. simpl in *. subst n.
  pose proof (run_callbacks_queue q (Build_WaitState 0 false [] o i l m))
    as (He & Hq & Hn & _ & _ & _ & Hc).
  destruct (run_callbacks schedules q _) as [s1 tr1]. simpl in *.
  set (obs := if m_observer s1 then (s1, [])
              else (set_observer true s1, [InstallObserver])).
  assert (Hobs : executed obs.2 = [] /\ submitted obs.2 = []
                 /\ forallb (fun e => negb (is_next_event e)) obs.2 = true
                 /\ m_callbacks obs.1 = m_callbacks s1
                 /\ m_event_checking_enabled obs.1 = m_event_checking_enabled s1).
  { subst obs. destruct s1 as [n1 b1 q1 o1 i1 l1 m1]. destruct o1; simpl; repeat split. }
  destruct obs as [s2 tr2]. simpl in Hobs.
  destruct Hobs as (He2 & Hs2 & Hn2 & Hq2 & Hc2).
  set (s3 := set_in_blocking_wait false (set_in_blocking_wait true s2)).
  pose proof (modal_to_run_quiet (set_in_blocking_wait true s2)) as (He3 & Hs3 & Hn3).
  pose proof (dispatch_event_quiet ev s3) as (He4 & Hs4 & Hn4 & Hq4 & Hc4).
  assert (Hs3q : m_callbacks s3 = m_callbacks s2
                 /\ m_event_checking_enabled s3 = m_event_checking_enabled s2).
  { subst s3. destruct s2; split; reflexivity. }
  destruct Hs3q as [Hq3 Hc3].
  destruct (dispatch_event ev s3) as [s4 tr4]. simpl in *.
  exists (tr1 ++ tr2), (modal_to_run (set_in_blocking_wait true s2) ++ tr4).
  repeat split.
  - now rewrite <- app_assoc.
  - now rewrite executed_app, He, He2, app_nil_r.
  - now rewrite executed_app, He3, He4.
  - now rewrite submitted_app, Hs3, Hs4.
  - now rewrite next_event_app, Hn, Hn2.
  - now rewrite next_event_app, Hn3, Hn4.
  - rewrite submitted_app, Hs2, app_nil_r. congruence.
  - congruence.
Qed.

Lemma wait_step_accounts (op : WaitOp) (s : WaitState) :
  executed (wait_step schedules op s).2 ++ m_callbacks (wait_step schedules op s).1
  = m_callbacks s ++ submitted (wait_step schedules op s).2.
Proof.
  destruct op as [c|d b ev| | |]; cbn [wait_step].
  - pose proof (ScheduleCallback_queue_only c s) as (He & Hs & Hq & _).
    now rewrite He, Hs, Hq.
  - destruct (Z.eq_dec (m_event_checking_enabled s) 0) as [Hen|Hdis].
    + destruct (WaitForEvent_enabled_trace d b ev s Hen)
        as (pre & post & Htr & He & He' & Hs' & _ & _ & Hq & _).
      destruct (WaitForEvent schedules d b ev s) as [[r s'] tr]. simpl in *.
      subst tr. rewrite executed_app, submitted_app. simpl.
      now rewrite He, He', Hs', Hq, !app_nil_r.
    + unfold WaitForEvent, IsEventCheckingEnabled.
      rewrite (proj2 (Z.eqb_neq _ _) Hdis). simpl. now rewrite app_nil_r.
  - destruct s; simpl. now rewrite app_nil_r.
  - destruct s; simpl. now rewrite app_nil_r.
  - pose proof (BreakWait_queue_only s) as [He Hq _ _ _ _].
    now rewrite He, Hq.
Qed.

Lemma wait_run_accounts (ops : list WaitOp) (s : WaitState) :
  executed (wait_run schedules ops s).2 ++ m_callbacks (wait_run schedules ops s).1
  = m_callbacks s ++ submitted (wait_run schedules ops s).2.
Proof.
  revert s. induction ops as [|op ops IH]; intros s.
  - simpl. now rewrite app_nil_r.
  - cbn [wait_run]. pose proof (wait_step_accounts op s) as Hstep.
    destruct (wait_step schedules op s) as [s1 tr1]. simpl in Hstep.
    specialize (IH s1). destruct (wait_run schedules ops s1) as [s2 tr2].
    simpl in *. rewrite executed_app, submitted_app.
    rewrite <- app_assoc, IH, !app_assoc. now rewrite Hstep.
Qed.

(** With callbacks that only schedule: in every sequence of
    ScheduleCallback, WaitForEvent, BreakWait and event-checking calls, the
    callbacks executed so far followed by those still queued are the
    callbacks queued at the start followed by those the trace shows as
    submitted; a WaitForEvent call that passes the event-checking test
    requests exactly one event from the host, after it has run, in order,
    every callback that was queued when it started. *)
Lemma wait_run_conserves_callbacks :
  (forall (ops : list WaitOp) (s : WaitState),
     executed (wait_run schedules ops s).2 ++ m_callbacks (wait_run schedules ops s).1
     = m_callbacks s ++ submitted (wait_run schedules ops s).2)
  /\ (forall (d : Q) (b : bool) (ev : option NSEvent) (s : WaitState),
        if IsEventCheckingEnabled s then
          exists pre post,
            (WaitForEvent schedules d b ev s).2 = pre ++ nextEventMatchingMask b d :: post
            /\ executed pre = m_callbacks s
            /\ executed post = []
            /\ forallb (fun e => negb (is_next_event e)) pre = true
            /\ forallb (fun e => negb (is_next_event e)) post = true
            /\ m_callbacks (WaitForEvent schedules d b ev s).1.2 = submitted pre
        else (WaitForEvent schedules d b ev s).2 = [])
  /\ (forall (ops : list WaitOp) (d : Q) (b : bool) (ev : option NSEvent)
             (s : WaitState),
        let s1 := (wait_run schedules ops s).1 in
        if IsEventCheckingEnabled s1 then
          executed ((wait_run schedules ops s).2 ++ (WaitForEvent schedules d b ev s1).2)
          = m_callbacks s ++ submitted (wait_run schedules ops s).2
        else True).
Proof.
  split_and!; [apply wait_run_accounts| |].
  - intros d b ev s. destruct (IsEventCheckingEnabled s) eqn:Hen.
    + apply Z.eqb_eq in Hen.
      destruct (WaitForEvent_enabled_trace d b ev s Hen)
        as (pre & post & Htr & He & He' & _ & Hn & Hn' & Hq & _).
      exists pre, post. repeat split; assumption.
    + unfold WaitForEvent. now rewrite Hen.
  - intros ops d b ev s s1. destruct (IsEventCheckingEnabled s1) eqn:Hen; [|exact I].
    apply Z.eqb_eq in Hen.
    destruct (WaitForEvent_enabled_trace d b ev s1 Hen)
      as (pre & post & Htr & He & He' & _).
    rewrite executed_app, Htr, executed_app. simpl. rewrite He, He', app_nil_r.
    apply wait_run_accounts.
Qed.

(** C10. With a non-zero event-checking counter, WaitForEvent returns false
    with the state as it was, the callback queue and the wait-broken flag
    included, and an empty trace: no callback is run and no event is
    requested. *)
Theorem WaitForEvent_checking_disabled
    (d : Q) (b : bool) (ev : option NSEvent) (s : WaitState) :
  m_event_checking_enabled s <> 0 ->
  WaitForEvent schedules d b ev s = (false, s, []).
Proof.
  intros Hdis. unfold WaitForEvent, IsEventCheckingEnabled.
  now rewrite (proj2 (Z.eqb_neq _ _) Hdis).
Qed.

Lemma wait_step_counter (op : WaitOp) (s : WaitState) :
  in_uint32 (m_event_checking_enabled s) ->
  in_uint32 (m_event_checking_enabled (wait_step schedules op s).1)
  /\ m_event_checking_enabled (wait_step schedules op s).1
     = wrap_uint32 (m_event_checking_enabled s + enable_balance [op]).
Proof.
  intros Hrange.
  assert (Hsame : forall s', m_event_checking_enabled s' = m_event_checking_enabled s ->
            in_uint32 (m_event_checking_enabled s')
            /\ m_event_checking_enabled s'
               = wrap_uint32 (m_event_checking_enabled s + 0)).
  { intros s' ->. split; [assumption|]. rewrite Z.add_0_r.
    symmetry. now apply wrap_uint32_id. }
  destruct op as [c|d b ev| | |]; cbn [wait_step enable_balance].
  - apply Hsame. apply (ScheduleCallback_queue_only c s).
  - apply Hsame.
    destruct (Z.eq_dec (m_event_checking_enabled s) 0) as [Hen|Hdis].
    + destruct (WaitForEvent_enabled_trace d b ev s Hen) as (pre & post & H).
      destruct (WaitForEvent schedules d b ev s) as [[r s'] tr]. simpl in *.
      destruct H as (_ & _ & _ & _ & _ & _ & _ & ->). now rewrite Hen.
    + unfold WaitForEvent, IsEventCheckingEnabled.
      now rewrite (proj2 (Z.eqb_neq _ _) Hdis).
  - destruct s; simpl. split; [apply wrap_uint32_range|].
    f_equal; lia.
  - destruct s; simpl. split; [apply wrap_uint32_range|].
    f_equal; lia.
  - apply Hsame. unfold BreakWait. now destruct s as [? [] ? ? ? ? ?].
Qed.

(** The counter after a sequence of calls is the counter before plus the
    Enable calls minus the Disable calls, as a uint32_t. *)
Lemma wait_run_counter (ops : list WaitOp) :
  forall s : WaitState,
    in_uint32 (m_event_checking_enabled s) ->
    m_event_checking_enabled (wait_run schedules ops s).1
    = wrap_uint32 (m_event_checking_enabled s + enable_balance ops).
Proof.
  induction ops as [|op ops IH]; intros s Hrange.
  - simpl. rewrite Z.add_0_r. symmetry. now apply wrap_uint32_id.
  - cbn [wait_run]. destruct (wait_step_counter op s Hrange) as [Hrange1 Hstep].
    destruct (wait_step schedules op s) as [s1 tr1]. cbn [fst] in *.
    specialize (IH s1 Hrange1). destruct (wait_run schedules ops s1) as [s2 tr2].
    cbn [fst] in *. rewrite IH, Hstep. unfold wrap_uint32.
    rewrite Zplus_mod_idemp_l. f_equal.
    destruct op; cbn [enable_balance]; lia.
Qed.

End WaitLoop.

(** ** Callbacks that call back into the wait loop *)

Section ReentrantCallbacks.
Import Wait Reentrant.

Variable behaviour : MCCallback -> list WaitOp.

Lemma no_wait_forallb (ops : list WaitOp) :
  (forall d b e, ~ In (OpWait d b e) ops) ->
  forallb (fun op => negb (is_wait op)) ops = true.
Proof.
  intros Hno. apply forallb_forall. intros [c|d b e| | |] Hin; try reflexivity.
  now destruct (Hno d b e).
Qed.

(** *** The discipline alone *)

Lemma fifo_calls_shape (ops : list WaitOp) :
  forall q : Fifo,
    fifo_executed (fold_left fifo_call ops q) = fifo_executed q
    /\ fifo_pending (fold_left fifo_call ops q) = fifo_pending q ++ requests ops
    /\ fifo_submitted (fold_left fifo_call ops q) = fifo_submitted q ++ requests ops.
Proof.
  induction ops as [|op ops IH]; intros q.
  - cbn. now rewrite !app_nil_r.
  - cbn [fold_left]. destruct (IH (fifo_call q op)) as (-> & -> & ->).
    unfold requests. cbn [flat_map]. fold (requests ops).
    destruct op; cbn; rewrite <- ?app_assoc; repeat split; reflexivity.
Qed.

Lemma fifo_execute_all_shape (cs : list MCCallback) :
  forall q : Fifo,
    fifo_executed (fold_left (fifo_execute behaviour) cs q) = fifo_executed q ++ cs
    /\ fifo_pending (fold_left (fifo_execute behaviour) cs q)
       = fifo_pending q ++ flat_map (fun c => requests (behaviour c)) cs
    /\ fifo_submitted (fold_left (fifo_execute behaviour) cs q)
       = fifo_submitted q ++ flat_map (fun c => requests (behaviour c)) cs.
Proof.
  induction cs as [|c cs IH]; intros q.
  - cbn. now rewrite !app_nil_r.
  - cbn [fold_left flat_map]. destruct (IH (fifo_execute behaviour q c)) as (-> & -> & ->).
    unfold fifo_execute.
    destruct (fifo_calls_shape (behaviour c)
                {| fifo_pending := fifo_pending q;
                   fifo_checking := fifo_checking q;
                   fifo_executed := fifo_executed q ++ [c];
                   fifo_submitted := fifo_submitted q |}) as (-> & -> & ->).
    cbn. rewrite <- !app_assoc. repeat split; reflexivity.
Qed.

Lemma fifo_step_conserves (base : list MCCallback) (op : WaitOp) (q : Fifo) :
  fifo_executed q ++ fifo_pending q = base ++ fifo_submitted q ->
  fifo_executed (fifo_step behaviour q op) ++ fifo_pending (fifo_step behaviour q op)
  = base ++ fifo_submitted (fifo_step behaviour q op).
Proof.
  intros Hq. destruct op as [c|d b e| | |]; cbn [fifo_step fifo_call]; try exact Hq.
  - cbn. now rewrite !app_assoc, Hq.
  - unfold fifo_wait. destruct (fifo_checking q =? 0); [|exact Hq].
    destruct (fifo_execute_all_shape (fifo_pending q)
                {| fifo_pending := [];
                   fifo_checking := fifo_checking q;
                   fifo_executed := fifo_executed q;
                   fifo_submitted := fifo_submitted q |}) as (-> & -> & ->).
    cbn. now rewrite !app_assoc, Hq.
Qed.

Lemma fifo_run_conserves (base : list MCCallback) (ops : list WaitOp) :
  forall q : Fifo,
    fifo_executed q ++ fifo_pending q = base ++ fifo_submitted q ->
    fifo_executed (fifo_run behaviour ops q) ++ fifo_pending (fifo_run behaviour ops q)
    = base ++ fifo_submitted (fifo_run behaviour ops q).
Proof.
  unfold fifo_run. induction ops as [|op ops IH]; intros q Hq; [exact Hq|].
  cbn [fold_left]. apply IH. now apply fifo_step_conserves.
Qed.

(** *** The calls other than WaitForEvent *)

Lemma wait_step_fifo_call
    (call : MCCallback -> WaitState -> option (WaitState * list Effect))
    (op : WaitOp) (s : WaitState) (q : Fifo) :
  is_wait op = false ->
  fifo_matches q s ->
  exists s' tr,
    wait_step call op s = Some (s', tr)
    /\ executed tr = []
    /\ no_next_event tr
    /\ fifo_matches (fifo_call q op) s'.
Proof.
  intros Hop [Hp Hc]. unfold fifo_matches, no_next_event.
  destruct op as [c|d b e| | |]; [|discriminate| | |]; cbn [wait_step fifo_call].
  - pose proof (ScheduleCallback_queue_only c s) as (He & _ & Hq & Hn & _ & _ & _ & Hk).
    destruct (ScheduleCallback c s) as [s' tr]. cbn [fst snd] in *.
    exists s', tr. cbn. rewrite Hq, Hk, Hp, Hc. repeat split; assumption.
  - eexists _, _. split; [reflexivity|]. destruct s; cbn in *. subst. repeat split.
  - eexists _, _. split; [reflexivity|]. destruct s; cbn in *. subst. repeat split.
  - pose proof (BreakWait_queue_only s) as [He Hq Hn _ _ _].
    assert (Hk : m_event_checking_enabled (BreakWait s).1 = m_event_checking_enabled s).
    { unfold BreakWait. now destruct s as [? [] ? ? ? ? ?]. }
    assert (Hs : submitted (BreakWait s).2 = []).
    { unfold BreakWait. now destruct s as [? [] ? ? ? ? ?]. }
    destruct (BreakWait s) as [s' tr]. cbn [fst snd] in *.
    exists s', tr. rewrite Hs, app_nil_r in Hq. rewrite Hq, Hk. repeat split; assumption.
Qed.

Lemma wait_run_fifo_calls
    (call : MCCallback -> WaitState -> option (WaitState * list Effect))
    (ops : list WaitOp) :
  forallb (fun op => negb (is_wait op)) ops = true ->
  forall (s : WaitState) (q : Fifo),
    fifo_matches q s ->
    exists s' tr,
      wait_run call ops s = Some (s', tr)
      /\ executed tr = []
      /\ no_next_event tr
      /\ fifo_matches (fold_left fifo_call ops q) s'.
Proof.
  induction ops as [|op ops IH]; intros Hops s q Hq.
  - exists s, []. repeat split; try reflexivity; apply Hq.
  - cbn [forallb] in Hops. apply andb_true_iff in Hops as [Hop Hops].
    apply negb_true_iff in Hop.
    destruct (wait_step_fifo_call call op s q Hop Hq) as (s1 & tr1 & Hstep & He1 & Hn1 & Hq1).
    destruct (IH Hops s1 (fifo_call q op) Hq1) as (s2 & tr2 & Hrun & He2 & Hn2 & Hq2).
    exists s2, (tr1 ++ tr2). cbn [wait_run fold_left]. rewrite Hstep, Hrun.
    unfold no_next_event in *.
    rewrite executed_app, next_event_app, He1, He2, Hn1, Hn2. repeat split; apply Hq2.
Qed.

Hypothesis no_reentry : forall c d b e, ~ In (OpWait d b e) (behaviour c).

Lemma call_callback_fifo (fuel : nat) (c : MCCallback) (s : WaitState) (q : Fifo) :
  fifo_matches q s ->
  exists s' tr,
    call_callback behaviour (S fuel) c s = Some (s', tr)
    /\ executed tr = []
    /\ no_next_event tr
    /\ fifo_matches (fold_left fifo_call (behaviour c) q) s'.
Proof.
  intros Hq. cbn [call_callback].
  apply wait_run_fifo_calls; [|exact Hq].
  apply no_wait_forallb. apply no_reentry.
Qed.

Lemma run_callbacks_fifo (fuel : nat) (cs : list MCCallback) :
  forall (s : WaitState) (q : Fifo),
    fifo_matches q s ->
    exists s' tr,
      run_callbacks (call_callback behaviour (S fuel)) cs s = Some (s', tr)
      /\ executed tr = cs
      /\ no_next_event tr
      /\ fifo_matches (fold_left (fifo_execute behaviour) cs q) s'.
Proof.
  induction cs as [|c cs IH]; intros s q Hq.
  - exists s, []. repeat split; try reflexivity; apply Hq.
  - set (q0 := {| fifo_pending := fifo_pending q;
                  fifo_checking := fifo_checking q;
                  fifo_executed := fifo_executed q ++ [c];
                  fifo_submitted := fifo_submitted q |}).
    assert (Hq0 : fifo_matches q0 s) by exact Hq.
    destruct (call_callback_fifo fuel c s q0 Hq0) as (s1 & tr1 & Hcall & He1 & Hn1 & Hq1).
    destruct (IH s1 _ Hq1) as (s2 & tr2 & Hrun & He2 & Hn2 & Hq2).
    exists s2, (RunCallback c :: tr1 ++ tr2).
    cbn [run_callbacks fold_left]. rewrite Hcall, Hrun.
    unfold no_next_event in *. cbn [executed forallb is_next_event negb andb].
    rewrite executed_app, next_event_app, He1, He2, Hn1, Hn2.
    repeat split; apply Hq2.
Qed.


Lemma WaitForEvent_fifo (fuel : nat) (d : Q) (b : bool) (ev : option NSEvent)
    (s : WaitState) (q : Fifo) :
  fifo_matches q s ->
  m_event_checking_enabled s = 0 ->
  exists s' pre post,
    WaitForEvent (call_callback behaviour (S fuel)) d b ev s
    = Some (bool_decide (ev <> None), s', pre ++ nextEventMatchingMask b d :: post)
    /\ executed pre = m_callbacks s
    /\ executed post = []
    /\ no_next_event pre
    /\ no_next_event post
    /\ fifo_matches (fifo_wait behaviour q) s'.
Proof.
  intros [Hp Hc] Hen.
  assert (Hc0 : fifo_checking q = 0) by congruence. clear Hc.
  unfold WaitForEvent, IsEventCheckingEnabled, fifo_wait.
  rewrite Hc0, Hen. cbn [Z.eqb negb].
  destruct s as [n wb cs o i l m].
  cbn [set_wait_broken set_callbacks m_callbacks m_event_checking_enabled] in Hp, Hen |- *.
  subst n.
  set (q0 := {| fifo_pending := []; fifo_checking := 0;
                fifo_executed := fifo_executed q;
                fifo_submitted := fifo_submitted q |}).
  assert (Hq0 : fifo_matches q0 (Build_WaitState 0 false [] o i l m))
    by (split; reflexivity).
  rewrite Hp.
  destruct (run_callbacks_fifo fuel cs _ q0 Hq0) as (s1 & tr1 & -> & He1 & Hn1 & Hq1).
  set (obs := if m_observer s1 then (s1, [])
              else (set_observer true s1, [InstallObserver])).
  assert (Hobs : executed obs.2 = []
                 /\ no_next_event obs.2
                 /\ m_callbacks obs.1 = m_callbacks s1
                 /\ m_event_checking_enabled obs.1 = m_event_checking_enabled s1).
  { subst obs. destruct s1 as [n1 b1 q1 o1 i1 l1 m1]. destruct o1; cbn; repeat split. }
  destruct obs as [s2 tr2]. cbn [fst snd] in Hobs.
  destruct Hobs as (He2 & Hn2 & Hq2 & Hc2).
  set (s3 := set_in_blocking_wait false (set_in_blocking_wait true s2)).
  pose proof (modal_to_run_quiet (set_in_blocking_wait true s2)) as (He3 & _ & Hn3).
  pose proof (dispatch_event_quiet ev s3) as (He4 & _ & Hn4 & Hq4 & Hc4).
  assert (Hs3 : m_callbacks s3 = m_callbacks s2
                /\ m_event_checking_enabled s3 = m_event_checking_enabled s2).
  { subst s3. destruct s2; split; reflexivity. }
  destruct Hs3 as [Hq3 Hc3].
  destruct (dispatch_event ev s3) as [s4 tr4]. cbn [fst snd] in *.
  exists s4, (tr1 ++ tr2), (modal_to_run (set_in_blocking_wait true s2) ++ tr4).
  unfold no_next_event in *.
  rewrite !executed_app, !next_event_app, He1, He2, He3, He4, Hn1, Hn2, Hn3, Hn4.
  split_and!; try reflexivity.
  - now rewrite <- app_assoc.
  - apply app_nil_r.
  - destruct Hq1 as [Hp1 Hc1]. unfold fifo_matches.
    rewrite Hq4, Hq3, Hq2, Hc4, Hc3, Hc2. split; [exact Hp1 | exact Hc1].
Qed.

Lemma WaitForEvent_disabled
    (call : MCCallback -> WaitState -> option (WaitState * list Effect))
    (d : Q) (b : bool) (ev : option NSEvent) (s : WaitState) :
  m_event_checking_enabled s <> 0 ->
  WaitForEvent call d b ev s = Some (false, s, []).
Proof.
  intros Hdis. unfold WaitForEvent, IsEventCheckingEnabled.
  now rewrite (proj2 (Z.eqb_neq _ _) Hdis).
Qed.

Lemma run_fifo (fuel : nat) (ops : list WaitOp) :
  forall (s : WaitState) (q : Fifo),
    fifo_matches q s ->
    exists s' tr,
      run behaviour (S fuel) ops s = Some (s', tr)
      /\ fifo_executed (fifo_run behaviour ops q) = fifo_executed q ++ executed tr
      /\ fifo_matches (fifo_run behaviour ops q) s'.
Proof.
  unfold run, fifo_run.
  induction ops as [|op ops IH]; intros s q Hq.
  - exists s, []. cbn. rewrite app_nil_r. repeat split; apply Hq.
  - assert (Hstep : exists s1 tr1,
              wait_step (call_callback behaviour (S fuel)) op s = Some (s1, tr1)
              /\ fifo_executed (fifo_step behaviour q op) = fifo_executed q ++ executed tr1
              /\ fifo_matches (fifo_step behaviour q op) s1).
    { destruct (is_wait op) eqn:Hop.
      - destruct op as [c|d b e| | |]; try discriminate. cbn [wait_step fifo_step].
        destruct (Z.eq_dec (m_event_checking_enabled s) 0) as [Hen|Hdis].
        + destruct (WaitForEvent_fifo fuel d b e s q Hq Hen)
            as (s1 & pre & post & -> & He & He' & _ & _ & Hq1).
          exists s1, (pre ++ nextEventMatchingMask b d :: post).
          split; [reflexivity|]. split; [|exact Hq1].
          rewrite executed_app. cbn [executed]. rewrite He, He', app_nil_r.
          unfold fifo_wait. destruct Hq as [Hp Hc]. rewrite Hc, Hen. cbn [Z.eqb].
          match goal with
          | |- context [fold_left (fifo_execute behaviour) ?l ?q0] =>
            destruct (fifo_execute_all_shape l q0) as (-> & _)
          end.
          cbn. now rewrite Hp.
        + rewrite (WaitForEvent_disabled _ d b e s Hdis).
          exists s, []. unfold fifo_wait. destruct Hq as [Hp Hc].
          rewrite Hc, (proj2 (Z.eqb_neq _ _) Hdis). cbn. rewrite app_nil_r.
          repeat split; assumption.
      - destruct (wait_step_fifo_call (call_callback behaviour (S fuel)) op s q Hop Hq)
          as (s1 & tr1 & Hstep & He1 & _ & Hq1).
        exists s1, tr1. rewrite He1, app_nil_r.
        split; [exact Hstep|]. split; [|destruct op; try discriminate; exact Hq1].
        destruct op; try discriminate; reflexivity. }
    destruct Hstep as (s1 & tr1 & Hstep & He1 & Hq1).
    destruct (IH s1 _ Hq1) as (s2 & tr2 & Hrun & He2 & Hq2).
    exists s2, (tr1 ++ tr2). cbn [wait_run fold_left]. rewrite Hstep, Hrun.
    rewrite executed_app, app_assoc, <- He1, <- He2.
    repeat split; apply Hq2.
Qed.

End ReentrantCallbacks.

Section ReentrantRuns.
Import Wait Reentrant.

Lemma flat_map_nil {A B : Type} (f : A -> list B) (l : list A) :
  (forall x, f x = []) -> flat_map f l = [].
Proof. intros Hf. induction l as [|x l IH]; cbn; [reflexivity|]. now rewrite Hf, IH. Qed.

Lemma fifo_run_submitted (behaviour : MCCallback -> list WaitOp) (ops : list WaitOp) :
  (forall c, requests (behaviour c) = []) ->
  forall q : Fifo,
    fifo_submitted (fifo_run behaviour ops q) = fifo_submitted q ++ requests ops.
Proof.
  intros Hinert. unfold fifo_run.
  induction ops as [|op ops IH]; intros q.
  - cbn. now rewrite app_nil_r.
  - cbn [fold_left]. rewrite IH. unfold requests. cbn [flat_map]. fold (requests ops).
    destruct op as [c|d b e| | |]; cbn [fifo_step fifo_call fifo_submitted app];
      rewrite <- ?app_assoc; try reflexivity.
    unfold fifo_wait. destruct (fifo_checking q =? 0); [|reflexivity].
    match goal with
    | |- context [fold_left (fifo_execute behaviour) ?l ?q0] =>
      destruct (fifo_execute_all_shape behaviour l q0) as (_ & _ & ->)
    end.
    cbn. rewrite (flat_map_nil _ _ Hinert). now rewrite app_nil_r.
Qed.

(** C3. Take callbacks none of which calls WaitForEvent, and any sequence of
    ScheduleCallback, WaitForEvent, BreakWait, EnableEventChecking and
    DisableEventChecking calls. The sequence runs to its end, and the
    callbacks executed, in order, and those left in the queue are what the
    queue discipline of the specification gives: each submission goes to the
    back of the queue, and a WaitForEvent call that passes the
    event-checking test executes the queue front to back, each callback
    once. The callbacks executed followed by those still queued are the
    callbacks queued at the start followed by those submitted, in submission
    order; when no callback submits one, those submitted are the arguments
    of the ScheduleCallback calls of the sequence. A WaitForEvent call that
    passes the event-checking test executes exactly the callbacks queued at
    its start, in order, then requests one event from the host, and executes
    none afterwards; the queue it leaves holds what those callbacks
    submitted. ScheduleCallback executes nothing and puts its argument at
    the back of the queue. *)
Theorem callbacks_fifo_exactly_once
    (behaviour : MCCallback -> list WaitOp) (fuel : nat) :
  (forall c d b e, ~ In (OpWait d b e) (behaviour c)) ->
  (0 < fuel)%nat ->
  (forall (ops : list WaitOp) (s : WaitState),
     exists s' tr,
       run behaviour fuel ops s = Some (s', tr)
       /\ executed tr = fifo_executed (fifo_run behaviour ops (fifo_start s))
       /\ m_callbacks s' = fifo_pending (fifo_run behaviour ops (fifo_start s))
       /\ executed tr ++ m_callbacks s'
          = m_callbacks s ++ fifo_submitted (fifo_run behaviour ops (fifo_start s)))
  /\ ((forall c, requests (behaviour c) = []) ->
      forall (ops : list WaitOp) (s : WaitState),
        fifo_submitted (fifo_run behaviour ops (fifo_start s)) = requests ops)
  /\ (forall (d : Q) (b : bool) (ev : option NSEvent) (s : WaitState),
        m_event_checking_enabled s = 0 ->
        exists s' pre post,
          WaitForEvent (call_callback behaviour fuel) d b ev s
          = Some (bool_decide (ev <> None), s', pre ++ nextEventMatchingMask b d :: post)
          /\ executed pre = m_callbacks s
          /\ executed post = []
          /\ forallb (fun e => negb (is_next_event e)) pre = true
          /\ forallb (fun e => negb (is_next_event e)) post = true
          /\ m_callbacks s' = flat_map (fun c => requests (behaviour c)) (m_callbacks s))
  /\ (forall (c : MCCallback) (s : WaitState),
        m_callbacks (ScheduleCallback c s).1 = m_callbacks s ++ [c]
        /\ executed (ScheduleCallback c s).2 = []).
Proof.
  intros Hno Hfuel. destruct fuel as [|fuel]; [lia|]. split_and!.
  - intros ops s.
    assert (Hstart : fifo_matches (fifo_start s) s) by (split; reflexivity).
    destruct (run_fifo behaviour Hno fuel ops s (fifo_start s) Hstart)
      as (s' & tr & Hrun & He & Hp & _).
    exists s', tr. cbn [fifo_start fifo_executed app] in He.
    split_and!; [exact Hrun | now rewrite He | now rewrite Hp |].
    rewrite <- He, <- Hp.
    exact (fifo_run_conserves behaviour (m_callbacks s) ops (fifo_start s)
             (eq_sym (app_nil_r _))).
  - intros Hinert ops s. exact (fifo_run_submitted behaviour ops Hinert (fifo_start s)).
  - intros d b ev s Hen.
    assert (Hstart : fifo_matches (fifo_start s) s) by (split; reflexivity).
    destruct (WaitForEvent_fifo behaviour Hno fuel d b ev s (fifo_start s) Hstart Hen)
      as (s' & pre & post & Hrun & He & He' & Hn & Hn' & Hp & _).
    exists s', pre, post. split_and!; try assumption.
    rewrite <- Hp. unfold fifo_wait. cbn [fifo_start fifo_checking fifo_pending].
    rewrite Hen. cbn [Z.eqb].
    match goal with
    | |- context [fold_left (fifo_execute behaviour) ?l ?q0] =>
      destruct (fifo_execute_all_shape behaviour l q0) as (_ & -> & _)
    end.
    reflexivity.
  - intros c s. pose proof (ScheduleCallback_queue_only c s) as (He & _ & Hq & _).
    split; assumption.
Qed.

Lemma a_submits_c_returns (c : MCCallback) (d : Q) (b : bool) (e : option NSEvent) :
  ~ In (OpWait d b e) (a_submits_c c).
Proof.
  unfold a_submits_c. destruct (Nat.eqb (method c) 1); cbn; [|tauto].
  intros [H|[]]. discriminate.
Defined.

Lemma callbacks_fifo_exactly_once_witness :
  exists s' tr,
    run a_submits_c 1 (schedule_a_b_wait ++ [OpWait 0 false None]) quiet_state
    = Some (s', tr)
    /\ executed tr = [callback_a; callback_b; callback_c]
    /\ m_callbacks s' = [].
Proof.
  destruct (proj1 (callbacks_fifo_exactly_once a_submits_c 1 a_submits_c_returns
                     (Nat.lt_0_succ 0))
              (schedule_a_b_wait ++ [OpWait 0 false None]) quiet_state)
    as (s' & tr & Hrun & He & Hp & _).
  exists s', tr. split_and!; [exact Hrun | exact He | exact Hp].
Defined.

(** C3. Callback a schedules callback c and then calls WaitForEvent itself.
    With a and b scheduled, in this order, a WaitForEvent call runs a, whose
    inner WaitForEvent runs c and requests an event from the host, and only
    then b: the callbacks are executed in the order a, c, b although they
    were submitted in the order a, b, c, and b, pending when the inner call
    started, is executed after that call's request. *)
Lemma reentrant_wait_breaks_fifo :
  option_map snd (run a_waits 2 schedule_a_b_wait quiet_state)
  = Some [Scheduled callback_a; PostBreakEvent; Scheduled callback_b;
          RunCallback callback_a; Scheduled callback_c; PostBreakEvent;
          RunCallback callback_c; InstallObserver; nextEventMatchingMask false 0;
          RunCallback callback_b; nextEventMatchingMask false 0]
  /\ option_map (fun r => executed r.2) (run a_waits 2 schedule_a_b_wait quiet_state)
     = Some [callback_a; callback_c; callback_b]
  /\ option_map (fun r => submitted r.2) (run a_waits 2 schedule_a_b_wait quiet_state)
     = Some [callback_a; callback_b; callback_c]
  /\ [callback_a; callback_c; callback_b] <> [callback_a; callback_b; callback_c].
Proof. split_and!; [reflexivity | reflexivity | reflexivity | discriminate]. Qed.

(** *** Callbacks that only schedule *)

Section Scheduling.

Variable schedules : MCCallback -> list MCCallback.

Lemma wait_run_schedule_all
    (call : MCCallback -> WaitState -> option (WaitState * list Effect))
    (cs : list MCCallback) :
  forall s, wait_run call (map OpSchedule cs) s = Some (schedule_all cs s).
Proof.
  induction cs as [|c cs IH]; intros s; [reflexivity|].
  cbn [map wait_run wait_step schedule_all].
  destruct (ScheduleCallback c s) as [s1 tr1]. rewrite IH.
  now destruct (schedule_all cs s1).
Qed.

Lemma run_callbacks_scheduling (fuel : nat) (cs : list MCCallback) :
  forall s,
    run_callbacks (call_callback (scheduling schedules) (S fuel)) cs s
    = Some (Wait.run_callbacks schedules cs s).
Proof.
  induction cs as [|c cs IH]; intros s; [reflexivity|].
  cbn [run_callbacks Wait.run_callbacks].
  change (call_callback (scheduling schedules) (S fuel) c s)
    with (wait_run (call_callback (scheduling schedules) fuel)
            (map OpSchedule (schedules c)) s).
  rewrite wait_run_schedule_all.
  destruct (schedule_all (schedules c) s) as [s1 tr1]. rewrite IH.
  now destruct (Wait.run_callbacks schedules cs s1).
Qed.

(** The wait loop with callbacks that do nothing to the platform object but
    schedule callbacks is the general one at such callbacks. *)
Lemma scheduling_callbacks_run (fuel : nat) (ops : list WaitOp) :
  forall s,
    run (scheduling schedules) (S fuel) ops s = Some (Wait.wait_run schedules ops s).
Proof.
  unfold run. induction ops as [|op ops IH]; intros s; [reflexivity|].
  cbn [wait_run Wait.wait_run].
  assert (Hstep : wait_step (call_callback (scheduling schedules) (S fuel)) op s
                  = Some (Wait.wait_step schedules op s)).
  { destruct op as [c|d b e| | |]; try reflexivity.
    cbn [wait_step Wait.wait_step]. unfold WaitForEvent, Wait.WaitForEvent.
    destruct (negb (IsEventCheckingEnabled s)); [reflexivity|].
    rewrite run_callbacks_scheduling.
    destruct (Wait.run_callbacks schedules _ _) as [s1 tr1].
    destruct (m_observer s1); now destruct (dispatch_event _ _). }
  rewrite Hstep. destruct (Wait.wait_step schedules op s) as [s1 tr1].
  rewrite IH. now destruct (Wait.wait_run schedules ops s1).
Qed.

End Scheduling.

End ReentrantRuns.

(** * Runs on concrete inputs *)

Section PointerRuns.
Import Pointer.

(** The pointer enters window 1, the window takes an explicit grab, and the
    pointer is synchronized: the grabbed flag is cleared while the
    explicit-grab flag stays set, so the equality of C1 fails after the
    HandleMouseSync step. *)
Lemma sync_breaks_grab_equality :
  grab_invariant idle_state
  /\ option_map grab_flags (final_state (trajectory enter_grab_sync idle_state))
     = Some (false, 0, true)
  /\ ~ Forall (fun r => grab_invariant r.1) (trajectory enter_grab_sync idle_state).
Proof.
  split_and!; [reflexivity | reflexivity |].
  intros Hall. vm_compute in Hall.
  apply Forall_cons_1 in Hall as [_ Hall].
  apply Forall_cons_1 in Hall as [_ Hall].
  apply Forall_cons_1 in Hall as [Hsync _].
  unfold grab_invariant in Hsync. vm_compute in Hsync. discriminate.
Qed.

Lemma grab_invariant_along_operations_witness :
  grab_invariant idle_state
  /\ forallb (fun op => negb (is_sync op)) click_with_grab = true
  /\ Forall (fun r => grab_invariant r.1) (trajectory click_with_grab idle_state)
  /\ Forall (fun r => grabbed_has_cause r.1) (trajectory click_with_grab idle_state).
Proof.
  assert (Hinv : grab_invariant idle_state) by reflexivity.
  assert (Hops : forallb (fun op => negb (is_sync op)) click_with_grab = true)
    by reflexivity.
  destruct (grab_invariant_along_operations click_with_grab idle_state Hinv)
    as [Heq Hcause].
  split_and!; [exact Hinv | exact Hops | exact (Heq Hops) | exact Hcause].
Defined.

(** C4. Button 3 is pressed over window 1 and the pointer is synchronized:
    bit 3 of the button mask is set before HandleMouseSync and still set
    after it, and HandleMouseSync sent no release, only the cursor update of
    its motion step. *)
Lemma sync_leaves_button_3_down :
  option_map (fun s => Z.testbit (m_mouse_buttons s) 3)
    (final_state (trajectory enter_press_3 idle_state)) = Some true
  /\ option_map (fun s => Z.testbit (m_mouse_buttons s) 3)
       (final_state (trajectory (enter_press_3 ++ [OpSync example_host]) idle_state))
     = Some true
  /\ option_map snd
       (last (trajectory (enter_press_3 ++ [OpSync example_host]) idle_state))
     = Some [UpdateCursor 1%nat].
Proof. split_and!; reflexivity. Qed.

Lemma HandleMouseSync_effect_witness :
  in_uint32 (m_mouse_buttons two_buttons_state)
  /\ sync_releases two_buttons_state
     = [SendMouseRelease 1%nat 2 true; SendMouseRelease 1%nat 2 true]
  /\ HandleMouseSync example_host two_buttons_state
     = ((HandleMouseMove example_host at_100_100
           (sync_reset (set_buttons (sync_buttons two_buttons_state)
                          two_buttons_state))).1,
        sync_releases two_buttons_state
        ++ (HandleMouseMove example_host at_100_100
              (sync_reset (set_buttons (sync_buttons two_buttons_state)
                             two_buttons_state))).2).
Proof.
  assert (Hrange : in_uint32 (m_mouse_buttons two_buttons_state))
    by (unfold in_uint32; simpl; lia).
  split_and!; [exact Hrange | reflexivity |].
  exact (proj1 (HandleMouseSync_effect example_host two_buttons_state Hrange)).
Defined.

Lemma mouse_window_change_witness :
  (HandleMouseMove second_window_host at_100_100 over_window_state).2
  = [SendMouseLeave 1%nat; SendMouseEnter 2%nat; Release 1%nat; Retain 2%nat;
     SendMouseMove 2%nat at_100_100; UpdateCursor 2%nat]
  /\ exists rest,
       (HandleMouseMove second_window_host at_100_100 over_window_state).2
       = [SendMouseLeave 1%nat] ++ [SendMouseEnter 2%nat] ++ []
         ++ [Release 1%nat] ++ [Retain 2%nat] ++ rest
       /\ (forall w, ~ In (SendMouseEnter w) rest /\ ~ In (SendMouseLeave w) rest)
       /\ m_mouse_window (HandleMouseMove second_window_host at_100_100
                            over_window_state).1 = Some 2%nat.
Proof.
  split; [reflexivity|].
  refine (mouse_window_change second_window_host at_100_100 over_window_state
            (Some 1%nat) (Some 2%nat) eq_refl eq_refl _).
  discriminate.
Defined.

Lemma press_click_count_witness :
  continues_click example_host (press_button example_host 0 clicked_state) clicked_state
  /\ exists s',
       HandleMousePress example_host 0 true clicked_state
       = Some (s', [SendMouseDown 1%nat 0 1]).
Proof.
  assert (Hcont : continues_click example_host
                    (press_button example_host 0 clicked_state) clicked_state).
  { vm_compute. repeat split. }
  split; [exact Hcont|].
  destruct (press_click_count example_host 0 clicked_state 1%nat
              eq_refl eq_refl eq_refl) as (s' & Hrun & Hinc & _).
  exists s'. rewrite Hrun, (Hinc Hcont). reflexivity.
Defined.

Lemma release_notification_witness :
  exists s' tr,
    HandleMousePress example_host 0 false pressed_state = Some (s', tr)
    /\ tr = [SendMouseUp 1%nat 0 0]
    /\ m_mouse_last_click_time s' = 1000.
Proof.
  destruct (release_notification example_host 0 pressed_state 1%nat
              eq_refl eq_refl eq_refl) as (s' & tr & Hrun & Hup & _).
  destruct (Hup (or_introl eq_refl)) as (Htr & _ & Htime & _).
  exists s', tr. split_and!; [exact Hrun | exact Htr | exact (Htime eq_refl)].
Defined.

(** Button 0 is pressed at (100, 100) and the pointer moves to (104, 100)
    with MCdragdelta = 4: a drag is sent although the displacement from the
    click position exceeds the threshold on neither axis. *)
Lemma drag_at_threshold :
  option_map m_mouse_last_click_screen_position
    (final_state (trajectory enter_press_0 idle_state)) = Some at_100_100
  /\ all_drags
       (trajectory (enter_press_0 ++ [OpMove example_host (MCPointMake 104 100)])
          idle_state)
     = [SendMouseDrag 1%nat 0]
  /\ ~ (Z.abs (104 - 100) > MCdragdelta example_host
        \/ Z.abs (100 - 100) > MCdragdelta example_host).
Proof.
  split_and!; [reflexivity | reflexivity |].
  intros [Hx|Hy]; [vm_compute in Hx | vm_compute in Hy]; discriminate.
Qed.

Lemma drag_once_per_cycle_witness :
  m_mouse_buttons over_window_state = 0
  /\ forallb is_button_or_move press_drag_release = true
  /\ stays_down (trajectory press_drag_release over_window_state)
  /\ (length (all_drags (trajectory press_drag_release over_window_state)) <= 1)%nat.
Proof.
  assert (Hdown : stays_down (trajectory press_drag_release over_window_state)).
  { vm_compute. split_and!; try discriminate. exact I. }
  split_and!; [reflexivity | reflexivity | exact Hdown |].
  apply (proj1 drag_once_per_cycle); [reflexivity | reflexivity | exact Hdown].
Defined.

(** The scenarios of one press, a short or a long motion, and the release. *)
Example press_move_release_without_drag :
  map snd (trajectory [OpPress example_host 0 true;
                       OpMove example_host (MCPointMake 100 103);
                       OpPress example_host 0 false] over_window_state)
  = [[SendMouseDown 1%nat 0 0];
     [SendMouseMove 1%nat (MCPointMake 100 103); UpdateCursor 1%nat];
     [SendMouseUp 1%nat 0 0]].
Proof. reflexivity. Qed.

Example press_move_release_with_drag :
  map snd (trajectory press_drag_release over_window_state)
  = [[SendMouseDown 1%nat 0 0];
     [SendMouseMove 1%nat (MCPointMake 130 100); SendMouseDrag 1%nat 0;
      UpdateCursor 1%nat];
     [SendMouseMove 1%nat (MCPointMake 140 100); UpdateCursor 1%nat];
     [SendMouseUp 1%nat 0 0]].
Proof. reflexivity. Qed.

Example second_press_counts_one :
  map snd (trajectory [OpPress example_host 0 true; OpPress example_host 0 false;
                       OpPress example_host 0 true] over_window_state)
  = [[SendMouseDown 1%nat 0 0]; [SendMouseUp 1%nat 0 0]; [SendMouseDown 1%nat 0 1]].
Proof. reflexivity. Qed.

End PointerRuns.

Section WaitRuns.
Import Wait.

Lemma WaitForEvent_checking_disabled_witness :
  m_event_checking_enabled checking_off_state <> 0
  /\ WaitForEvent a_schedules_c (1 # 2) false
       (Some (Build_NSEvent NSLeftMouseDown 7)) checking_off_state
     = (false, checking_off_state, []).
Proof.
  assert (Hdis : m_event_checking_enabled checking_off_state <> 0) by discriminate.
  split; [exact Hdis|].
  exact (WaitForEvent_checking_disabled a_schedules_c (1 # 2) false _ _ Hdis).
Defined.

(** a and b are scheduled, then the loop waits twice: the first wait runs a,
    which schedules c, then b, then asks the host for an event; the second
    runs c before it asks again. Only the first submission posts a break
    event until a wait has begun. *)
Example schedule_then_wait :
  (wait_run a_schedules_c
     [OpSchedule callback_a; OpSchedule callback_b;
      OpWait (1 # 2) false None; OpWait (1 # 2) false None] quiet_state).2
  = [Scheduled callback_a; PostBreakEvent; Scheduled callback_b;
     RunCallback callback_a; Scheduled callback_c; PostBreakEvent;
     RunCallback callback_b; InstallObserver;
     nextEventMatchingMask false (1 # 2);
     RunCallback callback_c; nextEventMatchingMask false (1 # 2)].
Proof. reflexivity. Qed.

(** While event checking is off the queue is kept; it is run by the first
    wait after checking is on again. *)
Example wait_while_checking_disabled :
  (wait_run a_schedules_c
     [OpEnable; OpSchedule callback_b; OpWait (1 # 2) true None;
      OpDisable; OpWait (1 # 2) true None] quiet_state).2
  = [Scheduled callback_b; PostBreakEvent;
     RunCallback callback_b; InstallObserver;
     nextEventMatchingMask true (1 # 2)].
Proof. reflexivity. Qed.

End WaitRuns.

(** * Further properties *)

(** ** The bytecode runner *)

Section Runner.
Import LcRun.

(** Once the file name is known every remaining argument is queued. *)
Lemma parse_loop_after_filename (lib : Library) (rest : list string) :
  forall (f : string) (acc : list string),
    (forall l a, MCProperListPushElementOntoBack lib l a = true) ->
    parse_loop lib rest
      {| t_have_filename := true; t_accept_options := false;
         t_filename := f; t_args := acc |}
    = Return (Some {| t_have_filename := true; t_accept_options := false;
                      t_filename := f; t_args := acc ++ rest |}).
Proof.
  induction rest as [|a rest IH]; intros f acc Hpush.
  - simpl. now rewrite app_nil_r.
  - cbn [parse_loop t_accept_options t_have_filename negb t_args t_filename].
    rewrite Hpush. cbn [negb]. rewrite (IH f (acc ++ [a]) Hpush).
    now rewrite <- app_assoc.
Qed.

Lemma parse_command_line_first_argument
    (lib : Library) (t_raw_args : list string) :
  parsing_succeeds lib t_raw_args ->
  MCRunParseCommandLine lib
  = match parse_by_first_argument t_raw_args with
    | Exit status printed => Exit status printed
    | Return (filename, arguments) =>
      Return (Some {| m_filename := filename; command_name := filename;
                      command_arguments := arguments |})
    end.
Proof.
  intros (Hcap & Hnew & Hget & Hpush & Hname & Hargs).
  unfold MCRunParseCommandLine. rewrite Hcap, Hnew, Hget. cbn [negb].
  destruct t_raw_args as [|a rest]; [reflexivity|].
  cbn [parse_loop parse_by_first_argument t_accept_options t_have_filename].
  destruct ((a =? "--help")%string || (a =? "-h")%string); [reflexivity|].
  destruct (a =? "--")%string.
  - destruct rest as [|f rest]; [reflexivity|].
    cbn [parse_loop t_accept_options t_have_filename negb t_args].
    rewrite (parse_loop_after_filename lib rest f [] Hpush).
    cbn [t_have_filename negb t_filename t_args]. rewrite Hname, Hargs.
    reflexivity.
  - destruct (String.prefix "-" a); [reflexivity|]. cbn [negb t_args].
    rewrite (parse_loop_after_filename lib rest a [] Hpush).
    cbn [t_have_filename negb t_filename t_args]. rewrite Hname, Hargs.
    reflexivity.
Qed.

(** X1. With a working library, MCRunParseCommandLine is decided by the
    first raw argument: no argument exits with 125; --help or -h first exits
    with 0; -- first makes the second argument the file name, whatever it
    is, and exits with 125 when there is none; another argument starting
    with - exits with 125; any other first argument is the file name. The
    arguments after the file name become the command arguments. *)
Theorem MCRunParseCommandLine_by_first_argument
    (lib : Library) (t_raw_args : list string) :
  parsing_succeeds lib t_raw_args ->
  MCRunParseCommandLine lib
  = match parse_by_first_argument t_raw_args with
    | Exit status printed => Exit status printed
    | Return (filename, arguments) =>
      Return (Some {| m_filename := filename; command_name := filename;
                      command_arguments := arguments |})
    end.
Proof. apply parse_command_line_first_argument. Qed.

Lemma MCRunParseCommandLine_by_first_argument_witness :
  parsing_succeeds (working_library ["--"; "-h"; "--help"; "x"]%string)
    ["--"; "-h"; "--help"; "x"]%string
  /\ MCRunParseCommandLine (working_library ["--"; "-h"; "--help"; "x"]%string)
     = Return (Some {| m_filename := "-h"; command_name := "-h";
                       command_arguments := ["--help"; "x"]%string |}).
Proof.
  assert (Hok : parsing_succeeds (working_library ["--"; "-h"; "--help"; "x"]%string)
                  ["--"; "-h"; "--help"; "x"]%string) by (repeat split).
  split; [exact Hok|].
  exact (MCRunParseCommandLine_by_first_argument _ _ Hok).
Defined.

(** X2. When MCRunParseCommandLine succeeds with a working library, the raw
    arguments are the file name followed by the command arguments, with at
    most one -- in front: every argument after the file name is handed on
    unchanged and in order, whether or not it looks like an option. Without
    the leading -- the file name does not start with -. *)
Theorem MCRunParseCommandLine_keeps_arguments
    (lib : Library) (t_raw_args : list string) (config : MCRunConfiguration) :
  parsing_succeeds lib t_raw_args ->
  MCRunParseCommandLine lib = Return (Some config) ->
  command_name config = m_filename config
  /\ ((t_raw_args = m_filename config :: command_arguments config
       /\ String.prefix "-" (m_filename config) = false)
      \/ t_raw_args = "--"%string :: m_filename config :: command_arguments config).
Proof.
  intros Hok Hrun.
  rewrite (parse_command_line_first_argument lib t_raw_args Hok) in Hrun.
  destruct t_raw_args as [|a rest]; [discriminate|].
  cbn [parse_by_first_argument] in Hrun.
  destruct ((a =? "--help")%string || (a =? "-h")%string); [discriminate|].
  destruct (a =? "--")%string eqn:Hdd.
  - apply String.eqb_eq in Hdd. subst a.
    destruct rest as [|f rest]; [discriminate|].
    inversion Hrun; subst. split; [reflexivity|]. now right.
  - destruct (String.prefix "-" a) eqn:Hdash; [discriminate|].
    inversion Hrun; subst. split; [reflexivity|]. left. now split.
Qed.

Lemma MCRunParseCommandLine_keeps_arguments_witness :
  parsing_succeeds (working_library ["prog.lcm"; "-h"; "--"]%string)
    ["prog.lcm"; "-h"; "--"]%string
  /\ ["prog.lcm"; "-h"; "--"]%string = "prog.lcm"%string :: ["-h"; "--"]%string.
Proof.
  assert (Hok : parsing_succeeds (working_library ["prog.lcm"; "-h"; "--"]%string)
                  ["prog.lcm"; "-h"; "--"]%string) by (repeat split).
  split; [exact Hok|].
  destruct (MCRunParseCommandLine_keeps_arguments _ _
              {| m_filename := "prog.lcm"; command_name := "prog.lcm";
                 command_arguments := ["-h"; "--"]%string |} Hok eq_refl)
    as [_ [[Hraw _] | Hraw]]; [exact Hraw | discriminate Hraw].
Defined.

(** X3. With a library that does not fail while parsing, main ends as the
    first raw argument decides when the arguments are rejected or ask for
    help (status 0 or 125, with the usage printed, nothing loaded); otherwise
    it loads the named file: status 124 when loading or instantiating it
    fails, 126 when the main handler fails, and 0 with nothing printed when
    it succeeds. *)
Theorem main_exit_status (lib : Library) (t_raw_args : list string) :
  parsing_succeeds lib t_raw_args ->
  main lib
  = match parse_by_first_argument t_raw_args with
    | Exit status printed => (status, printed)
    | Return (filename, arguments) =>
      if MCRunLoadModule lib filename
         && MCScriptCreateInstanceOfModule lib filename
      then if MCScriptCallHandlerOfInstance lib filename arguments
           then (kMCRunExitStatusSuccess, [])
           else (kMCRunExitStatusUncaughtError, [UncaughtError (error_reason lib)])
      else (kMCRunExitStatusStartup, [StartupError (error_reason lib)])
    end.
Proof.
  intros Hok. unfold main.
  rewrite (parse_command_line_first_argument lib t_raw_args Hok).
  destruct (parse_by_first_argument t_raw_args) as [status printed|[f args]];
    [reflexivity|].
  cbn [m_filename command_arguments].
  destruct (MCRunLoadModule lib f); [|reflexivity]. cbn [negb andb].
  destruct (MCScriptCreateInstanceOfModule lib f); [|reflexivity]. cbn [negb].
  now destruct (MCScriptCallHandlerOfInstance lib f args).
Qed.

Lemma main_exit_status_witness :
  parsing_succeeds (working_library ["-x"; "prog.lcm"]%string)
    ["-x"; "prog.lcm"]%string
  /\ main (working_library ["-x"; "prog.lcm"]%string)
     = (125, [UnknownOption "-x"; Usage]).
Proof.
  assert (Hok : parsing_succeeds (working_library ["-x"; "prog.lcm"]%string)
                  ["-x"; "prog.lcm"]%string) by (repeat split).
  split; [exact Hok|].
  exact (main_exit_status _ _ Hok).
Defined.

End Runner.

(** ** More of the pointer state machine *)

Section PointerMachineMore.
Import Pointer PointerMore.

Ltac pm_simpl :=
  cbn -[Z.eqb Z.ltb Z.geb Z.leb Z.land Z.lor Z.lnot Z.shiftl Z.abs Z.sub Z.add
        wrap_uint32 button_bit clear_button window_eqb].

Ltac pm_simpl_in H :=
  cbn -[Z.eqb Z.ltb Z.geb Z.leb Z.land Z.lor Z.lnot Z.shiftl Z.abs Z.sub Z.add
        wrap_uint32 button_bit clear_button window_eqb] in H.

Ltac split_ifs :=
  repeat match goal with
         | |- context [if ?c then _ else _] => destruct c eqn:?; pm_simpl
         end.

Ltac move_cases s h p :=
  destruct s as [mw bs g e dr c t lb lp sp q cc cl m];
  unfold HandleMouseMove, change_mouse_window, resolve_mouse_window,
    is_drag_start, HandleMouseCursorChange;
  pm_simpl;
  destruct g; pm_simpl;
  [ | let Hres := fresh "Hres" in
      destruct (window_eqb (GetWindowAtPoint h p) mw) eqn:Hres;
      [ apply window_eqb_eq in Hres; rewrite ?Hres
      | destruct (GetWindowAtPoint h p) ] ];
  repeat (progress (rewrite ?window_eqb_refl; pm_simpl));
  destruct mw; pm_simpl;
  repeat (progress (rewrite ?window_eqb_refl; pm_simpl)).

(** *** What each operation does to the window, the lock and the trace *)

Lemma alternates_app (kind : Notification -> option (bool * Window))
    (c : option Window) (a b : list Notification) :
  alternates kind c (a ++ b)
  = match alternates kind c a with
    | Some c' => alternates kind c' b
    | None => None
    end.
Proof.
  revert c. induction a as [|n a IH]; intros c; [reflexivity|].
  cbn [app alternates]. destruct (kind n) as [[[] w]|].
  - destruct c; [reflexivity | apply IH].
  - destruct (window_eqb c (Some w)); [apply IH | reflexivity].
  - apply IH.
Qed.

Lemma quiet_nil : quiet [].
Proof. split; [reflexivity|]. now intros kind c _. Qed.

Lemma quiet_app (a b : list Notification) : quiet a -> quiet b -> quiet (a ++ b).
Proof.
  intros [Ha Hka] [Hb Hkb]. split.
  - now rewrite forallb_app, Ha, Hb.
  - intros kind c Hk. now rewrite alternates_app, (Hka kind c Hk), (Hkb kind c Hk).
Qed.

Lemma HandleMousePress_window (h : Host) (b : Z) (st : bool)
    (s s' : PointerState) (tr : list Notification) :
  HandleMousePress h b st s = Some (s', tr) ->
  m_mouse_window s' = m_mouse_window s
  /\ m_mouse_cursor_locked s' = m_mouse_cursor_locked s
  /\ quiet tr.
Proof.
  intros Hrun.
  destruct (HandleMousePress_cases h b st s)
    as [Hnone | [Hsame | (w & Hw & Hb & Hdown)]].
  - congruence.
  - rewrite Hsame in Hrun. inversion Hrun; subst.
    split_and!; [reflexivity | reflexivity | apply quiet_nil].
  - destruct st; simpl in Hdown.
    + rewrite (HandleMousePress_press h b s w Hb Hdown Hw) in Hrun.
      inversion Hrun; subst. cbn [m_mouse_window m_mouse_cursor_locked].
      split_and!; [now rewrite Hw | reflexivity |].
      split; [reflexivity|]. now intros kind c [-> | ->].
    + rewrite (HandleMousePress_release h b s w Hb Hdown Hw) in Hrun.
      inversion Hrun; subst. cbn [m_mouse_window m_mouse_cursor_locked].
      split_and!; [now rewrite Hw | reflexivity |].
      destruct (_ || _); (split; [reflexivity|]; now intros kind c [-> | ->]).
Qed.

Lemma HandleMouseMove_alternates (h : Host) (p : MCPoint) (s : PointerState)
    (kind : Notification -> option (bool * Window)) :
  kind = enter_leave \/ kind = retain_release ->
  alternates kind (m_mouse_window s) (HandleMouseMove h p s).2
  = Some (m_mouse_window (HandleMouseMove h p s).1).
Proof.
  intros Hkind.
  move_cases s h p; unfold send_leave, send_enter, release_handle, retain_handle;
    destruct cl; pm_simpl; split_ifs;
    destruct Hkind as [-> | ->]; pm_simpl; rewrite ?window_eqb_refl; reflexivity.
Qed.

Lemma HandleMouseMove_locked (h : Host) (p : MCPoint) (s : PointerState) :
  m_mouse_cursor_locked (HandleMouseMove h p s).1 = m_mouse_cursor_locked s
  /\ (m_mouse_cursor_locked s = true ->
      forallb (fun n => negb (is_cursor_change n)) (HandleMouseMove h p s).2 = true).
Proof.
  move_cases s h p; unfold send_leave, send_enter, release_handle, retain_handle;
    destruct cl; pm_simpl; split_ifs; (split; [reflexivity|]);
    intros Hlocked; first [reflexivity | discriminate].
Qed.

Lemma sync_release_loop_quiet (w : Window) (n : nat) :
  forall (i : Z) (s : PointerState),
    m_mouse_window (sync_release_loop w n i s).1 = m_mouse_window s
    /\ m_mouse_cursor_locked (sync_release_loop w n i s).1 = m_mouse_cursor_locked s
    /\ quiet (sync_release_loop w n i s).2.
Proof.
  induction n as [|n IH]; intros i s.
  - split_and!; [reflexivity | reflexivity | apply quiet_nil].
  - cbn [sync_release_loop].
    destruct (button_down (m_mouse_buttons s) i).
    + specialize (IH (i + 1) (set_buttons (clear_button (m_mouse_buttons s) i) s)).
      destruct (sync_release_loop w n (i + 1) _) as [s' tr']. cbn [fst snd] in *.
      destruct IH as (Hw & Hl & Hq). split_and!.
      * rewrite Hw. now destruct s.
      * rewrite Hl. now destruct s.
      * apply (quiet_app [_]); [|assumption].
        split; [reflexivity|]. now intros kind c [-> | ->].
    + specialize (IH (i + 1) s).
      destruct (sync_release_loop w n (i + 1) s) as [s' tr']. cbn [fst snd] in *.
      exact IH.
Qed.

(** The part of HandleMouseSync before the motion step. *)
Lemma HandleMouseSync_parts (h : Host) (s : PointerState) :
  exists s1 tr1,
    HandleMouseSync h s
    = ((HandleMouseMove h
          (Coord.MapScreenNSPointToMCPoint (GetDesktopHeight h) (mouseLocation h))
          s1).1,
       tr1 ++ (HandleMouseMove h
                 (Coord.MapScreenNSPointToMCPoint (GetDesktopHeight h) (mouseLocation h))
                 s1).2)
    /\ m_mouse_window s1 = m_mouse_window s
    /\ m_mouse_cursor_locked s1 = m_mouse_cursor_locked s
    /\ quiet tr1.
Proof.
  unfold HandleMouseSync.
  set (r := match m_mouse_window s with
            | Some w => sync_release_loop w 3 0 s
            | None => (s, [])
            end).
  assert (Hr : m_mouse_window r.1 = m_mouse_window s
               /\ m_mouse_cursor_locked r.1 = m_mouse_cursor_locked s
               /\ quiet r.2).
  { subst r. destruct (m_mouse_window s) as [w|] eqn:Hw.
    - rewrite <- Hw. apply sync_release_loop_quiet.
    - split_and!; [assumption | reflexivity | apply quiet_nil]. }
  destruct r as [s0 tr0]. cbn [fst snd] in Hr. destruct Hr as (Hw & Hl & Hq).
  exists (sync_reset s0), tr0. split_and!.
  - now destruct (HandleMouseMove h _ (sync_reset s0)).
  - rewrite <- Hw. now destruct s0.
  - rewrite <- Hl. now destruct s0.
  - assumption.
Qed.

Lemma SyncMouseBeforeDragging_alternates (s : PointerState)
    (kind : Notification -> option (bool * Window)) :
  kind = enter_leave \/ kind = retain_release ->
  alternates kind (m_mouse_window s) (SyncMouseBeforeDragging s).2
  = Some (m_mouse_window (SyncMouseBeforeDragging s).1).
Proof.
  intros Hkind. destruct s as [mw bs g e dr c t lb lp sp q cc cl m].
  unfold SyncMouseBeforeDragging. pm_simpl.
  destruct (bs =? 0); pm_simpl; destruct mw as [w|]; pm_simpl; split_ifs;
    destruct Hkind as [-> | ->]; pm_simpl; rewrite ?window_eqb_refl; reflexivity.
Qed.

Lemma SyncMouseBeforeDragging_locked (s : PointerState) :
  m_mouse_cursor_locked (SyncMouseBeforeDragging s).1 = m_mouse_cursor_locked s
  /\ forallb (fun n => negb (is_cursor_change n)) (SyncMouseBeforeDragging s).2 = true.
Proof.
  destruct s as [mw bs g e dr c t lb lp sp q cc cl m].
  unfold SyncMouseBeforeDragging. pm_simpl.
  destruct (bs =? 0); pm_simpl; destruct mw as [w|]; pm_simpl; split_ifs;
    split; reflexivity.
Qed.

(** One operation: the enter/leave and the retain/release notifications it
    sends lead from the mouse window before to the mouse window after. *)
Lemma run_operation_alternates (op : Operation) (s s' : PointerState)
    (tr : list Notification) (kind : Notification -> option (bool * Window)) :
  kind = enter_leave \/ kind = retain_release ->
  run_operation op s = Some (s', tr) ->
  alternates kind (m_mouse_window s) tr = Some (m_mouse_window s').
Proof.
  intros Hkind Hrun.
  destruct op as [[h b st|h p|w| |h]| |h| |]; cbn [run_operation step] in Hrun.
  - destruct (HandleMousePress_window h b st s s' tr Hrun) as (Hw & _ & _ & Hq).
    rewrite Hw. now apply Hq.
  - inversion Hrun as [Heq]. pose proof (HandleMouseMove_alternates h p s kind Hkind) as H.
    now rewrite Heq in H.
  - inversion Hrun; subst. cbn [alternates]. f_equal.
    unfold GrabPointer. destruct s as [mw bs g e dr c t lb lp sp q cc cl m].
    pm_simpl. now split_ifs.
  - inversion Hrun; subst. cbn [alternates]. f_equal.
    unfold UngrabPointer. destruct s as [mw bs g e dr c t lb lp sp q cc cl m].
    pm_simpl. now split_ifs.
  - inversion Hrun as [Heq].
    destruct (HandleMouseSync_parts h s) as (s1 & tr1 & Hsync & Hw & _ & _ & Hq).
    rewrite Hsync in Heq. inversion Heq; subst.
    rewrite alternates_app, (Hq kind _ Hkind), <- Hw.
    now apply HandleMouseMove_alternates.
  - inversion Hrun as [Heq]. pose proof (SyncMouseBeforeDragging_alternates s kind Hkind) as H.
    now rewrite Heq in H.
  - inversion Hrun as [Heq].
    pose proof (HandleMouseMove_alternates h (m_mouse_screen_position s) s kind Hkind) as H.
    unfold HandleMouseAfterWindowHidden in Heq. now rewrite Heq in H.
  - inversion Hrun; subst. cbn [alternates]. f_equal. now destruct s.
  - inversion Hrun as [Heq]. unfold UnlockCursor, HandleMouseCursorChange in Heq.
    destruct s as [mw bs g e dr c t lb lp sp q cc cl m]. pm_simpl_in Heq.
    destruct mw as [w|]; pm_simpl_in Heq.
    + rewrite window_eqb_refl in Heq. pm_simpl_in Heq. inversion Heq; subst.
      destruct Hkind as [-> | ->]; reflexivity.
    + inversion Heq; subst. destruct Hkind as [-> | ->]; reflexivity.
Qed.

Lemma run_operation_locked (op : Operation) (s s' : PointerState)
    (tr : list Notification) :
  is_unlock op = false ->
  m_mouse_cursor_locked s = true ->
  run_operation op s = Some (s', tr) ->
  m_mouse_cursor_locked s' = true
  /\ forallb (fun n => negb (is_cursor_change n)) tr = true.
Proof.
  intros Hop Hlocked Hrun.
  destruct op as [[h b st|h p|w| |h]| |h| |]; try discriminate;
    cbn [run_operation step] in Hrun.
  - destruct (HandleMousePress_window h b st s s' tr Hrun) as (_ & Hl & Hq & _).
    split; [congruence | assumption].
  - inversion Hrun as [Heq]. destruct (HandleMouseMove_locked h p s) as [Hl Hq].
    rewrite Heq in Hl, Hq. cbn [fst snd] in Hl, Hq. split; [congruence | auto].
  - inversion Hrun; subst. split; [|reflexivity].
    unfold GrabPointer. destruct s as [mw bs g e dr c t lb lp sp q cc cl m].
    pm_simpl. pm_simpl_in Hlocked. now split_ifs.
  - inversion Hrun; subst. split; [|reflexivity].
    unfold UngrabPointer. destruct s as [mw bs g e dr c t lb lp sp q cc cl m].
    pm_simpl. pm_simpl_in Hlocked. now split_ifs.
  - inversion Hrun as [Heq].
    destruct (HandleMouseSync_parts h s) as (s1 & tr1 & Hsync & _ & Hl1 & Hq & _).
    rewrite Hsync in Heq. inversion Heq; subst.
    destruct (HandleMouseMove_locked h
                (Coord.MapScreenNSPointToMCPoint (GetDesktopHeight h) (mouseLocation h))
                s1) as [Hl Hqm].
    split; [congruence|]. rewrite forallb_app, Hq. apply Hqm. congruence.
  - inversion Hrun as [Heq]. destruct (SyncMouseBeforeDragging_locked s) as [Hl Hq].
    rewrite Heq in Hl, Hq. cbn [fst snd] in Hl, Hq. split; [congruence | assumption].
  - inversion Hrun as [Heq]. unfold HandleMouseAfterWindowHidden in Heq.
    destruct (HandleMouseMove_locked h (m_mouse_screen_position s) s) as [Hl Hq].
    rewrite Heq in Hl, Hq. cbn [fst snd] in Hl, Hq. split; [congruence | auto].
  - inversion Hrun; subst. split; [now destruct s | reflexivity].
Qed.

(** X4. While the cursor is locked, no operation of the pointer machine
    (press, release, motion, grab, ungrab, either synchronization, the
    motion replayed after a window was hidden, a further lock) resets or
    updates the cursor, and the lock stays set until UnlockCursor. *)
Theorem cursor_lock_holds (ops : list Operation) (s : PointerState) :
  m_mouse_cursor_locked s = true ->
  forallb (fun op => negb (is_unlock op)) ops = true ->
  Forall (fun r => m_mouse_cursor_locked r.1 = true
                   /\ forallb (fun n => negb (is_cursor_change n)) r.2 = true)
    (run ops s).
Proof.
  revert s. induction ops as [|op ops IH]; intros s Hlocked Hops; [constructor|].
  simpl in Hops. apply andb_true_iff in Hops as [Hop Hops].
  apply negb_true_iff in Hop. cbn [run].
  destruct (run_operation op s) as [[s' tr]|] eqn:Hrun; [|constructor].
  destruct (run_operation_locked op s s' tr Hop Hlocked Hrun) as [Hl Hq].
  constructor; [now split | now apply IH].
Qed.

Lemma run_alternates (kind : Notification -> option (bool * Window))
    (ops : list Operation) :
  kind = enter_leave \/ kind = retain_release ->
  forall s : PointerState,
    alternates kind (m_mouse_window s) (sent (run ops s))
    = Some (m_mouse_window (end_state s (run ops s))).
Proof.
  intros Hkind. induction ops as [|op ops IH]; intros s; [reflexivity|].
  cbn [run]. destruct (run_operation op s) as [[s' tr]|] eqn:Hrun; [|reflexivity].
  unfold sent. cbn [flat_map snd]. fold (sent (run ops s')).
  rewrite alternates_app, (run_operation_alternates op s s' tr kind Hkind Hrun), IH.
  f_equal. f_equal. unfold end_state.
  destruct (run ops s') as [|r rest] eqn:Hrest; [reflexivity|].
  rewrite last_cons_cons.
  destruct (last (r :: rest)) as [[s2 tr2]|] eqn:Hlast; [reflexivity|].
  apply last_None in Hlast. discriminate.
Qed.

(** X5. Along every sequence of operations of the pointer machine, enter and
    leave strictly alternate and follow the mouse window: an enter is sent
    only while no window is entered, a leave only for the window entered
    last, and the window entered at the end is the final mouse window. The
    same holds for Retain and Release of the window handle, so the handle of
    the mouse window is held exactly once and no other is. *)
Theorem enter_leave_and_handles_alternate (ops : list Operation) (s : PointerState) :
  alternates enter_leave (m_mouse_window s) (sent (run ops s))
  = Some (m_mouse_window (end_state s (run ops s)))
  /\ alternates retain_release (m_mouse_window s) (sent (run ops s))
     = Some (m_mouse_window (end_state s (run ops s))).
Proof. split; apply run_alternates; auto. Qed.

Lemma cursor_lock_holds_witness :
  m_mouse_cursor_locked locked_state = true
  /\ forallb (fun op => negb (is_unlock op)) drag_out_while_locked = true
  /\ Forall (fun r => m_mouse_cursor_locked r.1 = true
                      /\ forallb (fun n => negb (is_cursor_change n)) r.2 = true)
       (run drag_out_while_locked locked_state).
Proof.
  split_and!; [reflexivity | reflexivity |].
  exact (cursor_lock_holds drag_out_while_locked locked_state eq_refl eq_refl).
Defined.

(** *** Presses and their releases *)

Lemma count_downs_app (a b : list Notification) :
  count_downs (a ++ b) = (count_downs a + count_downs b)%nat.
Proof.
  induction a as [|n a IH]; [reflexivity|].
  destruct n; simpl; rewrite IH; reflexivity.
Qed.

Lemma count_ups_app (a b : list Notification) :
  count_ups (a ++ b) = (count_ups a + count_ups b)%nat.
Proof.
  induction a as [|n a IH]; [reflexivity|].
  destruct n; simpl; rewrite IH; reflexivity.
Qed.

Lemma bits_set_ext (n : nat) :
  forall (i a b : Z),
    (forall k, i <= k -> Z.testbit a k = Z.testbit b k) ->
    bits_set n i a = bits_set n i b.
Proof.
  induction n as [|n IH]; intros i a b Hab; [reflexivity|].
  cbn [bits_set]. rewrite (Hab i) by lia. f_equal.
  apply IH. intros k Hk. apply Hab. lia.
Qed.

(** Setting one bit of the range adds one to the number of bits set. *)
Lemma bits_set_one_more (n : nat) :
  forall (i a a' b : Z),
    Z.testbit a b = false -> Z.testbit a' b = true ->
    (forall k, k <> b -> Z.testbit a' k = Z.testbit a k) ->
    i <= b < i + Z.of_nat n ->
    bits_set n i a' = S (bits_set n i a).
Proof.
  induction n as [|n IH]; intros i a a' b Hoff Hon Hrest Hb; [simpl in Hb; lia|].
  cbn [bits_set]. destruct (Z.eq_dec i b) as [->|Hne].
  - rewrite Hoff, Hon. cbn [Nat.add]. f_equal.
    apply bits_set_ext. intros k Hk. apply Hrest. lia.
  - rewrite (Hrest i Hne).
    rewrite (IH (i + 1) a a' b Hoff Hon Hrest) by lia.
    now rewrite Nat.add_succ_r.
Qed.

Lemma press_bits (bs b k : Z) :
  valid_button b = true ->
  Z.testbit (Z.lor bs (button_bit b)) k = Z.testbit bs k || (b =? k).
Proof.
  intros Hb. destruct (button_bit_pow b Hb) as [-> _].
  apply valid_button_range in Hb.
  now rewrite Z.lor_spec, Z.pow2_bits_eqb by lia.
Qed.

Lemma press_range (bs b : Z) :
  valid_button b = true -> in_uint32 bs -> in_uint32 (Z.lor bs (button_bit b)).
Proof.
  intros Hb Hbs. destruct (button_bit_pow b Hb) as [Hbit Hpos].
  rewrite <- (wrap_uint32_id bs Hbs).
  rewrite <- (wrap_uint32_id (button_bit b)) by (unfold in_uint32; lia).
  unfold wrap_uint32.
  rewrite <- !(Z.land_ones _ 32), <- Z.land_lor_distr_l, Z.land_ones by lia.
  apply wrap_uint32_range.
Qed.

Lemma HandleMouseMove_counts (h : Host) (p : MCPoint) (s : PointerState) :
  count_downs (HandleMouseMove h p s).2 = O /\ count_ups (HandleMouseMove h p s).2 = O.
Proof.
  move_cases s h p; unfold send_leave, send_enter, release_handle, retain_handle;
    destruct cl; pm_simpl; split_ifs; split; reflexivity.
Qed.

Lemma HandleMousePress_counts (h : Host) (b : Z) (st : bool)
    (s s' : PointerState) (tr : list Notification) :
  in_uint32 (m_mouse_buttons s) ->
  HandleMousePress h b st s = Some (s', tr) ->
  in_uint32 (m_mouse_buttons s')
  /\ (count_downs tr + buttons_down (m_mouse_buttons s)
      = count_ups tr + buttons_down (m_mouse_buttons s'))%nat.
Proof.
  intros Hrange Hrun.
  destruct (HandleMousePress_cases h b st s)
    as [Hnone | [Hsame | (w & Hw & Hb & Hdown)]].
  - congruence.
  - rewrite Hsame in Hrun. inversion Hrun; subst. now split.
  - pose proof (proj1 (valid_button_range b) Hb) as Hbr.
    destruct st; simpl in Hdown.
    + rewrite (HandleMousePress_press h b s w Hb Hdown Hw) in Hrun.
      inversion Hrun; subst. cbn [m_mouse_buttons count_downs count_ups].
      split; [now apply press_range|].
      rewrite (button_down_testbit _ _ Hb) in Hdown.
      unfold buttons_down.
      rewrite (bits_set_one_more 32 0 (m_mouse_buttons s)
                 (Z.lor (m_mouse_buttons s) (button_bit b)) b Hdown).
      * lia.
      * rewrite (press_bits _ _ _ Hb), Z.eqb_refl. apply orb_true_r.
      * intros k Hk. rewrite (press_bits _ _ _ Hb).
        replace (b =? k) with false by (symmetry; apply Z.eqb_neq; lia).
        apply orb_false_r.
      * simpl. lia.
    + rewrite (HandleMousePress_release h b s w Hb Hdown Hw) in Hrun.
      inversion Hrun; subst. cbn [m_mouse_buttons].
      split; [apply clear_button_range|].
      rewrite (button_down_testbit _ _ Hb) in Hdown.
      unfold buttons_down.
      rewrite (bits_set_one_more 32 0 (clear_button (m_mouse_buttons s) b)
                 (m_mouse_buttons s) b).
      * destruct (_ || _); cbn [count_downs count_ups]; lia.
      * rewrite (clear_button_bits _ _ _ Hb Hrange) by lia.
        rewrite Z.eqb_refl. apply andb_false_r.
      * assumption.
      * intros k Hk. destruct (Z.lt_ge_cases k 0) as [Hneg|Hpos].
        -- now rewrite !Z.testbit_neg_r.
        -- rewrite (clear_button_bits _ _ _ Hb Hrange Hpos).
           replace (k =? b) with false by (symmetry; apply Z.eqb_neq; lia).
           now rewrite andb_true_r.
      * simpl. lia.
Qed.

Lemma sync_release_counts (w : Window) (s : PointerState) (l : list Z) :
  count_downs (flat_map (sync_release w s) l) = O
  /\ count_ups (flat_map (sync_release w s) l)
     = length (List.filter (Z.testbit (m_mouse_buttons s)) l).
Proof.
  induction l as [|i l [IHd IHu]]; [now split|].
  cbn [flat_map List.filter]. rewrite count_downs_app, count_ups_app, IHd, IHu.
  unfold sync_release. destruct (Z.testbit (m_mouse_buttons s) i); now split.
Qed.

Lemma HandleMouseSync_counts (h : Host) (s : PointerState) :
  in_uint32 (m_mouse_buttons s) ->
  in_uint32 (m_mouse_buttons (HandleMouseSync h s).1)
  /\ (count_downs (HandleMouseSync h s).2 + buttons_down (m_mouse_buttons s)
      = count_ups (HandleMouseSync h s).2
        + buttons_down (m_mouse_buttons (HandleMouseSync h s).1))%nat.
Proof.
  intros Hrange. unfold HandleMouseSync.
  set (loc := Coord.MapScreenNSPointToMCPoint (GetDesktopHeight h) (mouseLocation h)).
  destruct (m_mouse_window s) as [w|] eqn:Hw.
  - pose proof (sync_release_loop_spec w 3 0 s ltac:(lia) ltac:(simpl; lia) Hrange)
      as (_ & Hrange' & _).
    rewrite (sync_release_loop_buttons w s Hrange) in Hrange' |- *.
    cbn [fst snd] in Hrange'. rewrite m_mouse_buttons_set_buttons in Hrange'.
    set (s1 := sync_reset (set_buttons (Z.ldiff (m_mouse_buttons s) (Z.ones 3)) s)).
    destruct (HandleMouseMove_frame h loc s1) as (_ & Hbs & _).
    destruct (HandleMouseMove_counts h loc s1) as [Hd Hu].
    destruct (HandleMouseMove h loc s1) as [s2 tr2]. cbn [fst snd] in *.
    assert (Hs1 : m_mouse_buttons s1 = Z.ldiff (m_mouse_buttons s) (Z.ones 3)).
    { subst s1. destruct (sync_reset_fields
                            (set_buttons (Z.ldiff (m_mouse_buttons s) (Z.ones 3)) s))
        as (_ & _ & _ & _ & _ & -> & _). apply m_mouse_buttons_set_buttons. }
    rewrite Hbs, Hs1. split; [assumption|].
    rewrite count_downs_app, count_ups_app, Hd, Hu.
    destruct (sync_release_counts w s [0; 1; 2]) as [-> ->].
    unfold buttons_down.
    change (bits_set 32 0 (m_mouse_buttons s))
      with ((if Z.testbit (m_mouse_buttons s) 0 then 1 else 0)
            + ((if Z.testbit (m_mouse_buttons s) 1 then 1 else 0)
               + ((if Z.testbit (m_mouse_buttons s) 2 then 1 else 0)
                  + bits_set 29 3 (m_mouse_buttons s))))%nat.
    change (bits_set 32 0 (Z.ldiff (m_mouse_buttons s) (Z.ones 3)))
      with ((if Z.testbit (Z.ldiff (m_mouse_buttons s) (Z.ones 3)) 0 then 1 else 0)
            + ((if Z.testbit (Z.ldiff (m_mouse_buttons s) (Z.ones 3)) 1 then 1 else 0)
               + ((if Z.testbit (Z.ldiff (m_mouse_buttons s) (Z.ones 3)) 2 then 1 else 0)
                  + bits_set 29 3 (Z.ldiff (m_mouse_buttons s) (Z.ones 3)))))%nat.
    rewrite (bits_set_ext 29 3 (Z.ldiff (m_mouse_buttons s) (Z.ones 3))
               (m_mouse_buttons s)).
    + rewrite !Z.ldiff_spec, !Z.ones_spec_low, !andb_false_r by lia.
      cbn [List.filter].
      destruct (Z.testbit (m_mouse_buttons s) 0), (Z.testbit (m_mouse_buttons s) 1),
        (Z.testbit (m_mouse_buttons s) 2); cbn [length]; lia.
    + intros k Hk. rewrite Z.ldiff_spec, Z.ones_spec_high by lia. apply andb_true_r.
  - destruct (HandleMouseMove_frame h loc (sync_reset s)) as (_ & Hbs & _).
    destruct (HandleMouseMove_counts h loc (sync_reset s)) as [Hd Hu].
    destruct (HandleMouseMove h loc (sync_reset s)) as [s2 tr2]. cbn [fst snd] in *.
    destruct (sync_reset_fields s) as (_ & _ & _ & _ & _ & Hsame & _).
    cbn [app]. rewrite Hbs, Hsame, Hd, Hu. now split.
Qed.

Lemma run_operation_counts (op : Operation) (s s' : PointerState)
    (tr : list Notification) :
  is_sync_before_dragging op = false ->
  in_uint32 (m_mouse_buttons s) ->
  run_operation op s = Some (s', tr) ->
  in_uint32 (m_mouse_buttons s')
  /\ (count_downs tr + buttons_down (m_mouse_buttons s)
      = count_ups tr + buttons_down (m_mouse_buttons s'))%nat.
Proof.
  intros Hop Hrange Hrun.
  destruct op as [[h b st|h p|w| |h]| |h| |]; try discriminate;
    cbn [run_operation step] in Hrun.
  - now apply (HandleMousePress_counts h b st s s' tr).
  - inversion Hrun as [Heq].
    destruct (HandleMouseMove_frame h p s) as (_ & Hbs & _).
    destruct (HandleMouseMove_counts h p s) as [Hd Hu].
    rewrite Heq in Hbs, Hd, Hu. cbn [fst snd] in *. rewrite Hbs, Hd, Hu. now split.
  - inversion Hrun; subst.
    replace (m_mouse_buttons (GrabPointer w s)) with (m_mouse_buttons s); [now split|].
    unfold GrabPointer. destruct s as [mw bs g e dr c t lb lp sp q cc cl m].
    pm_simpl. now split_ifs.
  - inversion Hrun; subst.
    replace (m_mouse_buttons (UngrabPointer s)) with (m_mouse_buttons s); [now split|].
    unfold UngrabPointer. destruct s as [mw bs g e dr c t lb lp sp q cc cl m].
    pm_simpl. now split_ifs.
  - inversion Hrun as [Heq]. pose proof (HandleMouseSync_counts h s Hrange) as H.
    now rewrite Heq in H.
  - inversion Hrun as [Heq]. unfold HandleMouseAfterWindowHidden in Heq.
    destruct (HandleMouseMove_frame h (m_mouse_screen_position s) s) as (_ & Hbs & _).
    destruct (HandleMouseMove_counts h (m_mouse_screen_position s) s) as [Hd Hu].
    rewrite Heq in Hbs, Hd, Hu. cbn [fst snd] in *. rewrite Hbs, Hd, Hu. now split.
  - inversion Hrun; subst. split; [now destruct s|]. now destruct s.
  - inversion Hrun as [Heq]. unfold UnlockCursor, HandleMouseCursorChange in Heq.
    destruct s as [mw bs g e dr c t lb lp sp q cc cl m]. pm_simpl_in Heq.
    destruct mw as [w|]; pm_simpl_in Heq.
    + rewrite window_eqb_refl in Heq. pm_simpl_in Heq. inversion Heq; subst.
      now split.
    + inversion Heq; subst. now split.
Qed.

Lemma run_counts (ops : list Operation) :
  forall s : PointerState,
    in_uint32 (m_mouse_buttons s) ->
    forallb (fun op => negb (is_sync_before_dragging op)) ops = true ->
    (count_downs (sent (run ops s)) + buttons_down (m_mouse_buttons s)
     = count_ups (sent (run ops s))
       + buttons_down (m_mouse_buttons (end_state s (run ops s))))%nat.
Proof.
  induction ops as [|op ops IH]; intros s Hrange Hops; [reflexivity|].
  simpl in Hops. apply andb_true_iff in Hops as [Hop Hops].
  apply negb_true_iff in Hop. cbn [run].
  destruct (run_operation op s) as [[s' tr]|] eqn:Hrun; [|reflexivity].
  destruct (run_operation_counts op s s' tr Hop Hrange Hrun) as [Hrange' Hstep].
  specialize (IH s' Hrange' Hops).
  unfold sent. cbn [flat_map snd]. fold (sent (run ops s')).
  rewrite count_downs_app, count_ups_app.
  replace (end_state s ((s', tr) :: run ops s')) with (end_state s' (run ops s')).
  - lia.
  - unfold end_state. destruct (run ops s') as [|r rest]; [reflexivity|].
    rewrite last_cons_cons.
    destruct (last (r :: rest)) as [[s2 tr2]|] eqn:Hlast; [reflexivity|].
    apply last_None in Hlast. discriminate.
Qed.

(** X6. Along every sequence of operations other than
    SyncMouseBeforeDragging, started with a uint32_t button mask, the presses
    sent plus the buttons down at the start equal the ups and releases sent
    plus the buttons down at the end: every SendMouseDown is answered by
    exactly one SendMouseUp or SendMouseRelease once its button is no longer
    down, HandleMouseSync included. *)
Theorem presses_are_answered (ops : list Operation) (s : PointerState) :
  in_uint32 (m_mouse_buttons s) ->
  forallb (fun op => negb (is_sync_before_dragging op)) ops = true ->
  (count_downs (sent (run ops s)) + buttons_down (m_mouse_buttons s)
   = count_ups (sent (run ops s))
     + buttons_down (m_mouse_buttons (end_state s (run ops s))))%nat.
Proof. apply run_counts. Qed.

Lemma presses_are_answered_witness :
  in_uint32 (m_mouse_buttons over_window_state)
  /\ forallb (fun op => negb (is_sync_before_dragging op)) two_presses_then_sync = true
  /\ (count_downs (sent (run two_presses_then_sync over_window_state))
      + buttons_down (m_mouse_buttons over_window_state)
      = count_ups (sent (run two_presses_then_sync over_window_state))
        + buttons_down
            (m_mouse_buttons
               (end_state over_window_state
                  (run two_presses_then_sync over_window_state))))%nat.
Proof.
  assert (Hrange : in_uint32 (m_mouse_buttons over_window_state))
    by (vm_compute; split; [discriminate | reflexivity]).
  split_and!; [exact Hrange | reflexivity |].
  exact (presses_are_answered two_presses_then_sync over_window_state Hrange eq_refl).
Defined.

(** *** Synchronization before a drag *)

(** X7. SyncMouseBeforeDragging leaves no mouse window and no button down,
    sends at most one release, keeps the explicit-grab flag as it was, and a
    second call right after it changes nothing and sends nothing. With a
    mouse window it ends the trace with the leave and the release of the
    window handle. *)
Theorem SyncMouseBeforeDragging_settles (s : PointerState) :
  m_mouse_window (SyncMouseBeforeDragging s).1 = None
  /\ m_mouse_buttons (SyncMouseBeforeDragging s).1 = 0
  /\ m_mouse_grabbed_explicit (SyncMouseBeforeDragging s).1 = m_mouse_grabbed_explicit s
  /\ (count_ups (SyncMouseBeforeDragging s).2 <= 1)%nat
  /\ count_downs (SyncMouseBeforeDragging s).2 = O
  /\ SyncMouseBeforeDragging (SyncMouseBeforeDragging s).1
     = ((SyncMouseBeforeDragging s).1, [])
  /\ match m_mouse_window s with
     | Some w =>
       exists tr, (SyncMouseBeforeDragging s).2 = tr ++ [SendMouseLeave w; Release w]
                  /\ (length tr <= 1)%nat
     | None => (SyncMouseBeforeDragging s).2 = []
     end.
Proof.
  unfold SyncMouseBeforeDragging.
  destruct s as [mw bs g e dr c t lb lp sp p cc cl m]. pm_simpl.
  destruct (bs =? 0) eqn:Hbs; pm_simpl.
  - apply Z.eqb_eq in Hbs. subst bs.
    destruct mw as [w|]; repeat (progress (rewrite ?Z.eqb_refl; pm_simpl));
      split_and!; try reflexivity; try lia.
    exists []. split; [reflexivity | simpl; lia].
  - destruct mw as [w|]; repeat (progress (rewrite ?Z.eqb_refl; pm_simpl)).
    + destruct (negb ((if dr =? no_button then lb else dr) =? no_button));
        pm_simpl; split_and!; try reflexivity; try lia.
      * eexists [_]. split; [reflexivity | simpl; lia].
      * exists []. split; [reflexivity | simpl; lia].
    + split_and!; try reflexivity; lia.
Qed.

(** *** Motion under a grab *)

(** X8. While the pointer is grabbed, HandleMouseMove keeps the mouse window
    whatever window the host finds under the pointer, and sends no enter,
    leave, retain or release; a grab with no mouse window swallows the
    motion: only the screen position is recorded and nothing is sent. *)
Theorem grabbed_motion_keeps_window (h : Host) (p : MCPoint) (s : PointerState) :
  m_mouse_grabbed s = true ->
  m_mouse_window (HandleMouseMove h p s).1 = m_mouse_window s
  /\ forallb (fun n => negb (is_window_change n)) (HandleMouseMove h p s).2 = true
  /\ (m_mouse_window s = None ->
      HandleMouseMove h p s = (set_screen_position p s, [])).
Proof.
  move_cases s h p; intros Hg; try discriminate;
    destruct cl; pm_simpl; split_ifs; split_and!;
    first [reflexivity | discriminate].
Qed.

Lemma grabbed_motion_keeps_window_witness :
  m_mouse_grabbed pressed_state = true
  /\ m_mouse_window
       (HandleMouseMove example_host (MCPointMake 2000 100) pressed_state).1
     = m_mouse_window pressed_state
  /\ forallb (fun n => negb (is_window_change n))
       (HandleMouseMove example_host (MCPointMake 2000 100) pressed_state).2 = true.
Proof.
  split; [reflexivity|].
  destruct (grabbed_motion_keeps_window example_host (MCPointMake 2000 100)
              pressed_state eq_refl) as (Hw & Hq & _).
  split; [exact Hw | exact Hq].
Defined.

(** *** The end of a grab *)

(** X9. UngrabPointer while a button is down changes nothing; the release of
    the last button then ends the grab: grabbed and explicit-grab flags are
    cleared and the drag button is reset, and after it UngrabPointer again
    changes nothing. If the explicit-grab flag was set the release is
    reported as SendMouseUp whatever window is under the pointer. *)
Theorem last_release_ends_grab (h : Host) (b : Z) (s : PointerState) (w : Window) :
  valid_button b = true ->
  button_down (m_mouse_buttons s) b = true ->
  clear_button (m_mouse_buttons s) b = 0 ->
  m_mouse_window s = Some w ->
  exists s' n,
    trajectory [OpUngrab; OpPress h b false; OpUngrab] s
    = [(s, []); (s', [n]); (s', [])]
    /\ m_mouse_buttons s' = 0
    /\ m_mouse_grabbed s' = false
    /\ m_mouse_grabbed_explicit s' = false
    /\ m_mouse_drag_button s' = no_button
    /\ m_mouse_was_control_click s' = false
    /\ (m_mouse_grabbed_explicit s = true ->
        n = SendMouseUp w (release_button b s) (m_mouse_click_count s)).
Proof.
  intros Hb Hdown Hzero Hw.
  assert (Hnz : (m_mouse_buttons s =? 0) = false).
  { apply Z.eqb_neq. intros H0. rewrite H0 in Hdown. discriminate. }
  assert (Hung : UngrabPointer s = s).
  { unfold UngrabPointer. now rewrite Hnz. }
  cbn [trajectory step]. rewrite Hung.
  rewrite (HandleMousePress_release h b s w Hb Hdown Hw). rewrite Hzero.
  cbn [Z.eqb negb].
  destruct (window_eqb (window_under_pointer h w s) (Some w)
            || m_mouse_grabbed_explicit s) eqn:Howned;
    unfold UngrabPointer; cbn;
    do 2 eexists; split_and!; try reflexivity.
  intros He. rewrite He, orb_true_r in Howned. discriminate.
Qed.

Lemma last_release_ends_grab_witness :
  exists s' n,
    trajectory [OpUngrab; OpPress example_host 0 false; OpUngrab] pressed_state
    = [(pressed_state, []); (s', [n]); (s', [])]
    /\ m_mouse_buttons s' = 0
    /\ m_mouse_grabbed s' = false.
Proof.
  destruct (last_release_ends_grab example_host 0 pressed_state 1%nat
              eq_refl eq_refl eq_refl eq_refl)
    as (s' & n & Hrun & Hbs & Hg & _).
  exists s', n. split_and!; [exact Hrun | exact Hbs | exact Hg].
Defined.

(** *** A click *)

Lemma clear_pressed_button (bs b : Z) :
  valid_button b = true -> in_uint32 bs -> Z.testbit bs b = false ->
  clear_button (Z.lor bs (button_bit b)) b = bs.
Proof.
  intros Hb Hbs Hoff. apply Z.bits_inj'. intros k Hk.
  rewrite (clear_button_bits _ _ _ Hb (press_range _ _ Hb Hbs) Hk).
  rewrite (press_bits _ _ _ Hb).
  destruct (Z.eqb_spec k b) as [->|Hne].
  - rewrite Hoff, Z.eqb_refl. reflexivity.
  - replace (b =? k) with false by (symmetry; apply Z.eqb_neq; lia).
    now rewrite orb_false_r, andb_true_r.
Qed.

(** X10. A press of a button that is up, followed by its release over the
    same window with no control-click pending, is reported as SendMouseDown
    and SendMouseUp with the same button (button 2 for a primary press with
    the Command modifier) and the same click count; the button mask is back
    to what it was, the control-click flag is clear, and the release time is
    recorded as the last click time. *)
Theorem press_then_release (h : Host) (b : Z) (s : PointerState) (w : Window) :
  valid_button b = true ->
  in_uint32 (m_mouse_buttons s) ->
  button_down (m_mouse_buttons s) b = false ->
  m_mouse_window s = Some w ->
  m_mouse_was_control_click s = false ->
  window_under_pointer h w s = Some w ->
  exists s1 s2 count,
    trajectory [OpPress h b true; OpPress h b false] s
    = [(s1, [SendMouseDown w (press_button h b s) count]);
       (s2, [SendMouseUp w (press_button h b s) count])]
    /\ m_mouse_buttons s2 = m_mouse_buttons s
    /\ m_mouse_was_control_click s2 = false
    /\ m_mouse_last_click_button s2 = press_button h b s
    /\ m_mouse_last_click_time s2 = GetEventTime h.
Proof.
  intros Hb Hrange Hup Hw Hcc Hunder.
  cbn [trajectory step].
  rewrite (HandleMousePress_press h b s w Hb Hup Hw). cbv zeta.
  set (count := if is_multi_click h (press_button h b s) s
                then wrap_uint32 (m_mouse_click_count s + 1) else 0).
  match goal with
  | |- context [HandleMousePress h b false ?st] => set (s1 := st)
  end.
  assert (Hdown1 : button_down (m_mouse_buttons s1) b = true).
  { subst s1. cbn [m_mouse_buttons].
    rewrite (button_down_testbit _ _ Hb), (press_bits _ _ _ Hb), Z.eqb_refl.
    apply orb_true_r. }
  rewrite (HandleMousePress_release h b s1 w Hb Hdown1 eq_refl). cbv zeta.
  assert (Hunder1 : window_under_pointer h w s1 = Some w) by exact Hunder.
  rewrite Hunder1, window_eqb_refl. cbn [orb].
  assert (Hbutton : release_button b s1 = press_button h b s).
  { subst s1. unfold release_button, press_button. cbn [m_mouse_was_control_click].
    rewrite Hcc. cbn [orb].
    destruct (b =? 0); cbn [andb]; [|reflexivity].
    now destruct (negb _). }
  rewrite Hbutton.
  assert (Hlast : m_mouse_last_click_button s1 = press_button h b s) by reflexivity.
  rewrite Hlast, Z.eqb_refl.
  assert (Hmask : clear_button (m_mouse_buttons s1) b = m_mouse_buttons s).
  { subst s1. cbn [m_mouse_buttons]. apply clear_pressed_button; try assumption.
    now rewrite <- (button_down_testbit _ _ Hb). }
  rewrite Hmask.
  match goal with
  | |- context [[(s1, _); (?st, _)]] => exists s1, st, count
  end.
  split_and!; reflexivity.
Qed.

Lemma press_then_release_witness :
  exists s1 s2 count,
    trajectory [OpPress example_host 0 true; OpPress example_host 0 false]
      over_window_state
    = [(s1, [SendMouseDown 1%nat 0 count]); (s2, [SendMouseUp 1%nat 0 count])]
    /\ m_mouse_buttons s2 = 0.
Proof.
  assert (Hrange : in_uint32 (m_mouse_buttons over_window_state))
    by (vm_compute; split; [discriminate | reflexivity]).
  destruct (press_then_release example_host 0 over_window_state 1%nat
              eq_refl Hrange eq_refl eq_refl eq_refl eq_refl)
    as (s1 & s2 & count & Hrun & Hbs & _).
  exists s1, s2, count. split; [exact Hrun | exact Hbs].
Defined.

Lemma press_release_fields (h1 h2 : Host) (b : Z) (s : PointerState) (w : Window) :
  valid_button b = true ->
  in_uint32 (m_mouse_buttons s) ->
  button_down (m_mouse_buttons s) b = false ->
  m_mouse_window s = Some w ->
  m_mouse_was_control_click s = false ->
  window_under_pointer h2 w s = Some w ->
  exists s1 s2 count,
    trajectory [OpPress h1 b true; OpPress h2 b false] s
    = [(s1, [SendMouseDown w (press_button h1 b s) count]);
       (s2, [SendMouseUp w (press_button h1 b s) count])]
    /\ m_mouse_window s2 = Some w
    /\ m_mouse_buttons s2 = m_mouse_buttons s
    /\ m_mouse_click_count s2 = count
    /\ m_mouse_last_click_time s2 = GetEventTime h2
    /\ m_mouse_last_click_button s2 = press_button h1 b s
    /\ m_mouse_last_click_screen_position s2 = m_mouse_screen_position s
    /\ m_mouse_screen_position s2 = m_mouse_screen_position s
    /\ m_mouse_modifiers s2 = m_mouse_modifiers s.
Proof.
  intros Hb Hrange Hup Hw Hcc Hunder.
  cbn [trajectory step].
  rewrite (HandleMousePress_press h1 b s w Hb Hup Hw). cbv zeta.
  set (count := if is_multi_click h1 (press_button h1 b s) s
                then wrap_uint32 (m_mouse_click_count s + 1) else 0).
  match goal with
  | |- context [HandleMousePress h2 b false ?st] => set (s1 := st)
  end.
  assert (Hdown1 : button_down (m_mouse_buttons s1) b = true).
  { subst s1. cbn [m_mouse_buttons].
    rewrite (button_down_testbit _ _ Hb), (press_bits _ _ _ Hb), Z.eqb_refl.
    apply orb_true_r. }
  rewrite (HandleMousePress_release h2 b s1 w Hb Hdown1 eq_refl). cbv zeta.
  assert (Hunder1 : window_under_pointer h2 w s1 = Some w) by exact Hunder.
  rewrite Hunder1, window_eqb_refl. cbn [orb].
  assert (Hbutton : release_button b s1 = press_button h1 b s).
  { subst s1. unfold release_button, press_button. cbn [m_mouse_was_control_click].
    rewrite Hcc. cbn [orb].
    destruct (b =? 0); cbn [andb]; [|reflexivity].
    now destruct (negb _). }
  rewrite Hbutton.
  assert (Hlast : m_mouse_last_click_button s1 = press_button h1 b s) by reflexivity.
  rewrite Hlast, Z.eqb_refl.
  assert (Hmask : clear_button (m_mouse_buttons s1) b = m_mouse_buttons s).
  { subst s1. cbn [m_mouse_buttons]. apply clear_pressed_button; try assumption.
    now rewrite <- (button_down_testbit _ _ Hb). }
  rewrite Hmask.
  match goal with
  | |- context [[(s1, _); (?st, _)]] => exists s1, st, count
  end.
  split_and!; reflexivity.
Qed.

(** X27. The double-click interval runs from the release, not from the
    press. Take a state with a mouse window w, a button mask within
    uint32_t, the button b up and no control-click pending; press b, release
    it while w is still the window under the pointer, and press it again,
    with no motion step between and the same kMCPlatformModifierCommand at
    both presses. The first press and the release report one click count;
    the second press reports that count plus one exactly when the time from
    the release to the second press, as a uint32_t difference, is below
    MCdoubletime and MCdoubledelta is above zero, and reports zero
    otherwise. *)
Theorem click_interval_from_release
    (h1 h2 h3 : Host) (b : Z) (s : PointerState) (w : Window) :
  valid_button b = true ->
  in_uint32 (m_mouse_buttons s) ->
  button_down (m_mouse_buttons s) b = false ->
  m_mouse_window s = Some w ->
  m_mouse_was_control_click s = false ->
  window_under_pointer h2 w s = Some w ->
  kMCPlatformModifierCommand h3 = kMCPlatformModifierCommand h1 ->
  exists count,
    map snd (trajectory [OpPress h1 b true; OpPress h2 b false; OpPress h3 b true] s)
    = [[SendMouseDown w (press_button h1 b s) count];
       [SendMouseUp w (press_button h1 b s) count];
       [SendMouseDown w (press_button h1 b s)
          (if (wrap_uint32 (GetEventTime h3 - GetEventTime h2) <? MCdoubletime h3)
              && (0 <? MCdoubledelta h3)
           then wrap_uint32 (count + 1) else 0)]].
Proof.
  intros Hb Hrange Hup Hw Hcc Hunder Hcmd.
  destruct (press_release_fields h1 h2 b s w Hb Hrange Hup Hw Hcc Hunder)
    as (s1 & s2 & count & Hrun & Hw2 & Hbs2 & Hc2 & Ht2 & Hlb2 & Hlp2 & Hsp2 & Hm2).
  exists count.
  change [OpPress h1 b true; OpPress h2 b false; OpPress h3 b true]
    with ([OpPress h1 b true; OpPress h2 b false] ++ [OpPress h3 b true]).
  cbn [trajectory step app] in Hrun |- *.
  destruct (HandleMousePress h1 b true s) as [[s1' tr1]|]; [|discriminate].
  destruct (HandleMousePress h2 b false s1') as [[s2' tr2]|]; [|discriminate].
  injection Hrun as -> -> -> ->.
  assert (Hup2 : button_down (m_mouse_buttons s2) b = false) by now rewrite Hbs2.
  rewrite (HandleMousePress_press h3 b s2 w Hb Hup2 Hw2). cbv zeta.
  assert (Hbutton : press_button h3 b s2 = press_button h1 b s).
  { unfold press_button. now rewrite Hm2, Hcmd. }
  rewrite Hbutton.
  assert (Hmulti : is_multi_click h3 (press_button h1 b s) s2
                   = (wrap_uint32 (GetEventTime h3 - GetEventTime h2)
                      <? MCdoubletime h3) && (0 <? MCdoubledelta h3)).
  { unfold is_multi_click, MCU_abs.
    rewrite Ht2, Hlb2, Hlp2, Hsp2, !Z.sub_diag, Z.eqb_refl.
    change (Z.abs 0) with 0.
    rewrite andb_true_r.
    now destruct (_ <? MCdoubletime h3), (0 <? MCdoubledelta h3). }
  rewrite Hmulti, Hc2. reflexivity.
Qed.

Lemma click_interval_from_release_witness :
  exists count,
    map snd (trajectory [OpPress (host_at 1000) 0 true; OpPress (host_at 1100) 0 false;
                         OpPress (host_at 1200) 0 true] over_window_state)
    = [[SendMouseDown 1%nat 0 count]; [SendMouseUp 1%nat 0 count];
       [SendMouseDown 1%nat 0 (wrap_uint32 (count + 1))]].
Proof.
  assert (Hrange : in_uint32 (m_mouse_buttons over_window_state))
    by (vm_compute; split; [discriminate | reflexivity]).
  destruct (click_interval_from_release (host_at 1000) (host_at 1100) (host_at 1200)
              0 over_window_state 1%nat eq_refl Hrange eq_refl eq_refl eq_refl
              eq_refl eq_refl) as (count & Hrun).
  exists count. exact Hrun.
Defined.

(** *** Defined and undefined steps *)

Lemma trajectory_owned (ops : list PointerOp) :
  forall s : PointerState,
    down_is_owned s ->
    forallb (fun op => negb (is_sync op) && op_valid op) ops = true ->
    Forall (fun r => down_is_owned r.1) (trajectory ops s).
Proof.
  induction ops as [|op ops IH]; intros s Hown Hops; [constructor|].
  simpl in Hops. apply andb_true_iff in Hops as [Hop Hops].
  apply andb_true_iff in Hop as [Hsync Hvalid]. apply negb_true_iff in Hsync.
  destruct (step_defined op s Hsync Hvalid Hown) as (s' & tr & Hstep & Hown').
  cbn [trajectory]. rewrite Hstep. constructor; [assumption | now apply IH].
Qed.

(** X28. From a state where a button that is down has a mouse window and a
    grab, every sequence of presses and releases of buttons below 32,
    motions, grabs and ungrabs is defined at every step (no shift by 32 or
    more, no release with a nil mouse window), and after every step it still
    holds that while a button is down there is a mouse window and the
    pointer is grabbed. *)
Theorem pointer_operations_defined (ops : list PointerOp) (s : PointerState) :
  down_is_owned s ->
  forallb (fun op => negb (is_sync op) && op_valid op) ops = true ->
  length (trajectory ops s) = length ops
  /\ Forall (fun r => down_is_owned r.1) (trajectory ops s).
Proof.
  intros Hown Hops. split; [now apply trajectory_defined | now apply trajectory_owned].
Qed.

Lemma pointer_operations_defined_witness :
  down_is_owned idle_state
  /\ forallb (fun op => negb (is_sync op) && op_valid op) click_and_grab = true
  /\ length (trajectory click_and_grab idle_state) = length click_and_grab.
Proof.
  assert (Hown : down_is_owned idle_state) by (intros Hnz; now contradiction Hnz).
  split_and!; [exact Hown | reflexivity |].
  exact (proj1 (pointer_operations_defined click_and_grab idle_state Hown eq_refl)).
Defined.

Lemma release_without_window (h : Host) (b : Z) (s : PointerState) :
  valid_button b = true ->
  button_down (m_mouse_buttons s) b = true ->
  m_mouse_window s = None ->
  HandleMousePress h b false s = None.
Proof.
  intros Hb Hdown Hw. destruct s as [mw bs g e dr c t lb lp sp q cc cl m].
  cbn in Hdown, Hw. subst mw.
  unfold HandleMousePress. pm_simpl. rewrite Hb, Hdown. pm_simpl.
  destruct (clear_button bs b =? 0) eqn:Hzero;
    repeat (progress (rewrite ?Hzero, ?andb_false_r; pm_simpl)); reflexivity.
Qed.

(** X29. HandleMouseSync does not release the buttons 3 and above: when such
    a button is down and the pointer is over no window, HandleMouseSync
    leaves the button down and the mouse window nil, and the release of the
    button that follows has no defined outcome, as HandleMousePress calls
    MapPointFromWindowToScreen on the nil window. *)
Theorem release_after_sync_undefined
    (h h' : Host) (b : Z) (s : PointerState) (w : Window) :
  valid_button b = true ->
  3 <= b ->
  in_uint32 (m_mouse_buttons s) ->
  button_down (m_mouse_buttons s) b = true ->
  m_mouse_window s = Some w ->
  GetWindowAtPoint h
    (Coord.MapScreenNSPointToMCPoint (GetDesktopHeight h) (mouseLocation h)) = None ->
  m_mouse_window (HandleMouseSync h s).1 = None
  /\ button_down (m_mouse_buttons (HandleMouseSync h s).1) b = true
  /\ HandleMousePress h' b false (HandleMouseSync h s).1 = None
  /\ trajectory [OpSync h; OpPress h' b false] s = [HandleMouseSync h s].
Proof.
  intros Hb Hhigh Hrange Hdown Hw Hnone.
  assert (Hstate : m_mouse_window (HandleMouseSync h s).1 = None
                   /\ button_down (m_mouse_buttons (HandleMouseSync h s).1) b = true).
  { unfold HandleMouseSync. rewrite Hw.
    rewrite (sync_release_loop_buttons w s Hrange).
    set (loc := Coord.MapScreenNSPointToMCPoint (GetDesktopHeight h) (mouseLocation h))
      in *.
    set (s1 := sync_reset (set_buttons (Z.ldiff (m_mouse_buttons s) (Z.ones 3)) s)).
    destruct (HandleMouseMove_frame h loc s1) as (Hwin & Hbs & _).
    destruct (HandleMouseMove h loc s1) as [s2 tr2]. cbn [fst snd] in *.
    destruct (sync_reset_fields
                (set_buttons (Z.ldiff (m_mouse_buttons s) (Z.ones 3)) s))
      as (Hg & _ & _ & _ & _ & Hb1 & _).
    fold s1 in Hg, Hb1. rewrite m_mouse_buttons_set_buttons in Hb1.
    split.
    - rewrite Hwin. unfold resolve_mouse_window. now rewrite Hg.
    - rewrite Hbs, Hb1, (button_down_testbit _ _ Hb).
      rewrite (button_down_testbit _ _ Hb) in Hdown.
      rewrite Z.ldiff_spec, Hdown, Z.ones_spec_high by lia. reflexivity. }
  destruct Hstate as [Hwin Hstill].
  pose proof (release_without_window h' b _ Hb Hstill Hwin) as Hundefined.
  split_and!; try assumption.
  cbn [trajectory step]. destruct (HandleMouseSync h s) as [s2 tr2].
  cbn [fst] in Hundefined. now rewrite Hundefined.
Qed.

Lemma release_after_sync_undefined_witness :
  in_uint32 (m_mouse_buttons button_3_state)
  /\ trajectory [OpSync empty_host; OpPress example_host 3 false] button_3_state
     = [HandleMouseSync empty_host button_3_state].
Proof.
  assert (Hrange : in_uint32 (m_mouse_buttons button_3_state))
    by (vm_compute; split; [discriminate | reflexivity]).
  split; [exact Hrange|].
  destruct (release_after_sync_undefined empty_host example_host 3 button_3_state
              1%nat eq_refl ltac:(discriminate) Hrange eq_refl eq_refl eq_refl)
    as (_ & _ & _ & Hrun).
  exact Hrun.
Defined.

(** *** Modifier changes *)

Lemma last_cons_default {A : Type} (l : list A) (x d : A) :
  List.last (x :: l) d = List.last l x.
Proof.
  revert x d. induction l as [|y l IH]; intros x d; [reflexivity|].
  change (List.last (x :: y :: l) d) with (List.last (y :: l) d).
  now rewrite (IH y d), (IH y x).
Qed.

(** X11. Over any sequence of HandleModifiersChanged calls, the masks sent
    with SendModifiersChanged are the masks received without those equal to
    the mask received just before (the stored mask for the first), and the
    mask stored at the end is the last one received. *)
Theorem modifiers_sent_on_change (masks : list Z) (s : PointerState) :
  (modifiers_run masks s).2 = without_repeats (m_mouse_modifiers s) masks
  /\ m_mouse_modifiers (modifiers_run masks s).1
     = List.last masks (m_mouse_modifiers s).
Proof.
  revert s. induction masks as [|m masks IH]; intros s; [now split|].
  cbn [modifiers_run without_repeats]. unfold HandleModifiersChanged.
  destruct (m_mouse_modifiers s =? m) eqn:Hm; cbn [negb].
  - apply Z.eqb_eq in Hm. destruct (IH s) as [IH1 IH2].
    destruct (modifiers_run masks s) as [s' tr]. cbn [fst snd app] in *.
    split; [exact IH1|].
    now rewrite last_cons_default, IH2, Hm.
  - destruct (IH (set_modifiers m s)) as [IH1 IH2].
    destruct (modifiers_run masks (set_modifiers m s)) as [s' tr].
    cbn [fst snd app] in *.
    assert (Hset : m_mouse_modifiers (set_modifiers m s) = m) by now destruct s.
    rewrite Hset in IH1, IH2. split; [now rewrite IH1|].
    now rewrite last_cons_default.
Qed.

End PointerMachineMore.

(** ** Modal sessions *)

Section ModalSessions.
Import Modal ModalMore.

Lemma find_session_index_app_new (w : Window) (a b : list MCModalSession) :
  w ∉ map window a ->
  find_session_index w (a ++ b) = (length a + find_session_index w b)%nat.
Proof.
  induction a as [|e a IH]; intros Hnot; [reflexivity|].
  cbn [map] in Hnot. apply not_elem_of_cons in Hnot as [Hne Hnot].
  cbn [app find_session_index length].
  rewrite (proj2 (Nat.eqb_neq _ _)) by congruence.
  now rewrite (IH Hnot).
Qed.

Lemma find_session_index_app_old (w : Window) (a b : list MCModalSession) :
  w ∈ map window a ->
  find_session_index w (a ++ b) = find_session_index w a
  /\ (find_session_index w a < length a)%nat.
Proof.
  induction a as [|e a IH]; intros Hin; [inversion Hin|].
  cbn [app find_session_index length].
  destruct (Nat.eqb (window e) w) eqn:He; [split; [reflexivity | lia]|].
  cbn [map] in Hin. apply elem_of_cons in Hin as [Heq | Hin].
  - apply Nat.eqb_neq in He. congruence.
  - destruct (IH Hin) as [-> Hlt]. split; [reflexivity | lia].
Qed.

Lemma find_session_index_marked (w : Window) (i : nat) (l : list MCModalSession) :
  find_session_index w (alter (set_is_done true) i l) = find_session_index w l.
Proof.
  revert i. induction l as [|e l IH]; intros i; [reflexivity|].
  destruct i as [|i]; cbn [alter list_alter find_session_index].
  - reflexivity.
  - change (list_alter (set_is_done true) i l) with (alter (set_is_done true) i l).
    now rewrite IH.
Qed.

Lemma mark_twice (i : nat) (l : list MCModalSession) :
  alter (set_is_done true) i (alter (set_is_done true) i l)
  = alter (set_is_done true) i l.
Proof.
  revert i. induction l as [|e l IH]; intros i; [reflexivity|].
  destruct i as [|i]; cbn [alter list_alter].
  - reflexivity.
  - f_equal. apply IH.
Qed.

Lemma windows_marked (i : nat) (l : list MCModalSession) :
  map window (alter (set_is_done true) i l) = map window l.
Proof.
  revert i. induction l as [|e l IH]; intros [|i]; try reflexivity.
  cbn [alter list_alter map]. f_equal. apply IH.
Qed.

Lemma find_session_index_windows (w : Window) (a l : list MCModalSession) :
  map window a = map window l ->
  find_session_index w a = find_session_index w l.
Proof.
  revert l. induction a as [|e a IH]; intros [|e' l'] Hwin;
    try discriminate; [reflexivity|].
  cbn [map] in Hwin. injection Hwin as He Hwin.
  cbn [find_session_index]. rewrite He. now rewrite (IH l' Hwin).
Qed.

Lemma EndModalSession_cases (w : Window) (l : list MCModalSession) :
  Modal.EndModalSession w l = (l, [])
  \/ exists i keep run,
       alter (set_is_done true) i l = keep ++ run
       /\ Forall done_entry run
       /\ top_incomplete keep
       /\ Modal.EndModalSession w l = (keep, flat_map teardown (rev run)).
Proof.
  unfold Modal.EndModalSession.
  destruct (Nat.eqb (find_session_index w l) (length l)) eqn:Hfound; [now left|].
  right.
  destruct (completed_tail_split (alter (set_is_done true) (find_session_index w l) l))
    as (keep & run & Hsplit & Hrun & Hkeep).
  exists (find_session_index w l), keep, run. split_and!; try assumption.
  rewrite Hsplit. now apply teardown_loop_split.
Qed.

(** X12. A modal session begun for a window that has no session yet, on a
    stack that is empty or ends in an incomplete session, and ended before
    any other call, is torn down alone: EndModalSession gives back the stack
    as it was before BeginModalSession and ends, orders out and releases
    exactly that session's window. *)
Theorem BeginModalSession_then_End
    (session : option NSModalSession) (w : Window) (c : Core) :
  top_incomplete (m_modal_sessions c) ->
  w ∉ map window (m_modal_sessions c) ->
  Modal.EndModalSession w (m_modal_sessions (BeginModalSession session w c).1)
  = (m_modal_sessions c, [endModalSession session; orderOut w; ReleaseWindow w]).
Proof.
  intros Htop Hnew. unfold BeginModalSession.
  destruct (PointerMore.SyncMouseBeforeDragging (pointer c)) as [p tr].
  cbn [fst m_modal_sessions].
  set (new := {| is_done := false; window := w; session := session |}).
  unfold Modal.EndModalSession.
  rewrite (find_session_index_app_new w _ [new] Hnew).
  cbn [find_session_index window new]. rewrite Nat.eqb_refl.
  rewrite length_app. cbn [length].
  rewrite (proj2 (Nat.eqb_neq _ _)) by lia.
  rewrite alter_app_r. cbn [alter list_alter].
  exact (teardown_loop_split (m_modal_sessions c) [set_is_done true new]
           ltac:(now repeat constructor) Htop).
Qed.

Lemma BeginModalSession_then_End_witness :
  top_incomplete (m_modal_sessions core_with_A)
  /\ (2%nat ∉ map window (m_modal_sessions core_with_A))
  /\ Modal.EndModalSession 2%nat
       (m_modal_sessions (BeginModalSession (Some 12%nat) 2%nat core_with_A).1)
     = ([session_A],
        [endModalSession (Some 12%nat); orderOut 2%nat; ReleaseWindow 2%nat]).
Proof.
  assert (Htop : top_incomplete (m_modal_sessions core_with_A)).
  { right. exists [], session_A. split; reflexivity. }
  assert (Hnew : 2%nat ∉ map window (m_modal_sessions core_with_A)).
  { intros Hin. inversion Hin as [|? ? ? Hin']; subst. inversion Hin'. }
  split_and!; [exact Htop | exact Hnew |].
  exact (BeginModalSession_then_End (Some 12%nat) 2%nat core_with_A Htop Hnew).
Defined.

Lemma end_repeatedly_fixed (n : nat) (w : Window) (l : list MCModalSession) :
  Modal.EndModalSession w l = (l, []) -> end_repeatedly n w l = (l, []).
Proof.
  intros Hfixed. induction n as [|n IH]; [reflexivity|].
  cbn [end_repeatedly]. now rewrite Hfixed, IH.
Qed.

(** X13. A modal session begun for a window that already has a session in
    the stack cannot be ended: however often EndModalSession is called for
    that window, it marks the older session, nothing is torn down and the
    new session stays on top, incomplete. *)
Theorem second_session_for_window_stays
    (session : option NSModalSession) (w : Window) (c : Core) (n : nat) :
  w ∈ map window (m_modal_sessions c) ->
  exists marked,
    end_repeatedly (S n) w (m_modal_sessions (BeginModalSession session w c).1)
    = (marked ++ [{| is_done := false; window := w; session := session |}], [])
    /\ length marked = length (m_modal_sessions c).
Proof.
  intros Hold. unfold BeginModalSession.
  destruct (PointerMore.SyncMouseBeforeDragging (pointer c)) as [p tr].
  cbn [fst m_modal_sessions].
  set (new := {| is_done := false; window := w; session := session |}).
  set (l := m_modal_sessions c) in *.
  set (i := find_session_index w l).
  exists (alter (set_is_done true) i l). split; [|apply length_alter].
  assert (Hstep : forall a,
            map window a = map window l ->
            alter (set_is_done true) i a = alter (set_is_done true) i l ->
            Modal.EndModalSession w (a ++ [new])
            = (alter (set_is_done true) i l ++ [new], [])).
  { intros a Hwin Hmark.
    assert (Hin : w ∈ map window a) by now rewrite Hwin.
    destruct (find_session_index_app_old w a [new] Hin) as [Hidx Hlt].
    assert (Hi : find_session_index w a = i)
      by now apply find_session_index_windows.
    unfold Modal.EndModalSession. rewrite Hidx, Hi in *.
    rewrite length_app. cbn [length].
    rewrite (proj2 (Nat.eqb_neq _ _)) by lia.
    rewrite alter_app_l by lia. rewrite Hmark.
    rewrite length_app, length_alter. cbn [length]. rewrite Nat.add_1_r.
    cbn [teardown_loop].
    rewrite list_lookup_middle by now rewrite length_alter.
    reflexivity. }
  cbn [end_repeatedly]. rewrite (Hstep l eq_refl eq_refl).
  rewrite (end_repeatedly_fixed n w _
             (Hstep _ (windows_marked i l) (mark_twice i l))).
  reflexivity.
Qed.

Lemma second_session_for_window_stays_witness :
  (1%nat ∈ map window (m_modal_sessions core_with_A))
  /\ exists marked,
       end_repeatedly 3 1%nat
         (m_modal_sessions (BeginModalSession (Some 12%nat) 1%nat core_with_A).1)
       = (marked ++ [{| is_done := false; window := 1%nat; session := Some 12%nat |}],
          [])
       /\ length marked = length (m_modal_sessions core_with_A).
Proof.
  assert (Hold : 1%nat ∈ map window (m_modal_sessions core_with_A))
    by constructor.
  split; [exact Hold|].
  exact (second_session_for_window_stays (Some 12%nat) 1%nat core_with_A 2 Hold).
Defined.

Lemma mouse_effects_count (p : Effect -> bool) (tr : list Pointer.Notification) :
  (forall n, p (Mouse n) = false) ->
  List.filter p (map Mouse tr) = [].
Proof.
  intros Hp. induction tr as [|n tr IH]; [reflexivity|].
  cbn [map List.filter]. now rewrite Hp.
Qed.

Lemma teardown_counts (l : list MCModalSession) :
  length (List.filter is_release (map Ending (flat_map teardown l))) = length l
  /\ length (List.filter is_end_session (map Ending (flat_map teardown l))) = length l
  /\ List.filter is_retain (map Ending (flat_map teardown l)) = []
  /\ List.filter is_begin_session (map Ending (flat_map teardown l)) = [].
Proof.
  induction l as [|e l (IH1 & IH2 & IH3 & IH4)]; [now split_and!|].
  cbn. rewrite IH1, IH2, IH3, IH4. now split_and!.
Qed.

Lemma modal_step_balanced (op : ModalOp) (c : Core) :
  (length (List.filter is_retain (modal_step op c).2) + length (m_modal_sessions c)
   = length (List.filter is_release (modal_step op c).2)
     + length (m_modal_sessions (modal_step op c).1))%nat
  /\ length (List.filter is_end_session (modal_step op c).2)
     = length (List.filter is_release (modal_step op c).2)
  /\ length (List.filter is_begin_session (modal_step op c).2)
     = length (List.filter is_retain (modal_step op c).2)
  /\ (top_incomplete (m_modal_sessions c) ->
      top_incomplete (m_modal_sessions (modal_step op c).1)).
Proof.
  destruct op as [session w|w]; cbn [modal_step].
  - unfold BeginModalSession.
    destruct (PointerMore.SyncMouseBeforeDragging (pointer c)) as [p tr].
    cbn [fst snd m_modal_sessions].
    rewrite !List.filter_app, !mouse_effects_count by reflexivity.
    cbn. rewrite ?length_app. cbn [length]. split_and!; try lia.
    intros _. right. eexists _, _. split; reflexivity.
  - unfold EndModalSession.
    destruct (EndModalSession_cases w (m_modal_sessions c))
      as [-> | (i & keep & run & Hsplit & Hrun & Hkeep & ->)].
    + cbn. split_and!; try reflexivity. tauto.
    + cbn [fst snd m_modal_sessions].
      destruct (teardown_counts (rev run)) as (-> & -> & -> & ->).
      rewrite length_rev.
      assert (Hlen : length (m_modal_sessions c) = (length keep + length run)%nat).
      { rewrite <- length_app, <- Hsplit. now rewrite length_alter. }
      cbn [length]. split_and!; try lia. intros _. exact Hkeep.
Qed.

Lemma modal_run_balanced (ops : list ModalOp) :
  forall c : Core,
    (length (List.filter is_retain (modal_run ops c).2) + length (m_modal_sessions c)
     = length (List.filter is_release (modal_run ops c).2)
       + length (m_modal_sessions (modal_run ops c).1))%nat
    /\ length (List.filter is_end_session (modal_run ops c).2)
       = length (List.filter is_release (modal_run ops c).2)
    /\ length (List.filter is_begin_session (modal_run ops c).2)
       = length (List.filter is_retain (modal_run ops c).2)
    /\ (top_incomplete (m_modal_sessions c) ->
        top_incomplete (m_modal_sessions (modal_run ops c).1)).
Proof.
  induction ops as [|op ops IH]; intros c.
  - cbn. split_and!; try reflexivity. tauto.
  - cbn [modal_run].
    pose proof (modal_step_balanced op c) as (H1 & H2 & H3 & H4).
    destruct (modal_step op c) as [c1 tr1]. cbn [fst snd] in *.
    pose proof (IH c1) as (I1 & I2 & I3 & I4).
    destruct (modal_run ops c1) as [c2 tr2]. cbn [fst snd] in *.
    rewrite !List.filter_app, !length_app. split_and!; try lia. tauto.
Qed.

(** X14. Over any sequence of BeginModalSession and EndModalSession calls,
    the windows retained plus the sessions on the stack at the start equal
    the windows released plus the sessions on the stack at the end; NSApp's
    endModalSession is called as often as a window is released and
    beginModalSessionForWindow as often as one is retained. A stack that is
    empty or ends in an incomplete session stays so. *)
Theorem modal_sessions_balanced (ops : list ModalOp) (c : Core) :
  (length (List.filter is_retain (modal_run ops c).2) + length (m_modal_sessions c)
   = length (List.filter is_release (modal_run ops c).2)
     + length (m_modal_sessions (modal_run ops c).1))%nat
  /\ length (List.filter is_end_session (modal_run ops c).2)
     = length (List.filter is_release (modal_run ops c).2)
  /\ length (List.filter is_begin_session (modal_run ops c).2)
     = length (List.filter is_retain (modal_run ops c).2)
  /\ (top_incomplete (m_modal_sessions c) ->
      top_incomplete (m_modal_sessions (modal_run ops c).1)).
Proof. apply modal_run_balanced. Qed.

Lemma modal_sessions_balanced_witness :
  top_incomplete (m_modal_sessions core_with_A)
  /\ top_incomplete (m_modal_sessions (modal_run nested_sessions core_with_A).1)
  /\ (length (List.filter is_retain (modal_run nested_sessions core_with_A).2)
      + length (m_modal_sessions core_with_A)
      = length (List.filter is_release (modal_run nested_sessions core_with_A).2)
        + length (m_modal_sessions (modal_run nested_sessions core_with_A).1))%nat.
Proof.
  assert (Htop : top_incomplete (m_modal_sessions core_with_A)).
  { right. exists [], session_A. split; reflexivity. }
  destruct (modal_sessions_balanced nested_sessions core_with_A)
    as (Hbalance & _ & _ & Hkeeps).
  split_and!; [exact Htop | exact (Hkeeps Htop) | exact Hbalance].
Defined.

End ModalSessions.

(** ** The wait loop *)

Section WaitLoopMore.
Import Wait WaitMore.

Variable schedules : MCCallback -> list MCCallback.

Lemma schedule_all_effects (cs : list MCCallback) :
  forall s : WaitState,
    forallb is_callback_effect (schedule_all cs s).2 = true.
Proof.
  induction cs as [|c cs IH]; intros s; [reflexivity|].
  cbn [schedule_all]. unfold ScheduleCallback, BreakWait.
  destruct s as [n b q o i l m]. destruct b; cbn.
  - specialize (IH (Build_WaitState n true (q ++ [c]) o i l m)).
    destruct (schedule_all cs _) as [s2 tr2]. exact IH.
  - specialize (IH (Build_WaitState n true (q ++ [c]) o i l m)).
    destruct (schedule_all cs _) as [s2 tr2]. exact IH.
Qed.

Lemma run_callbacks_effects (t_callbacks : list MCCallback) :
  forall s : WaitState,
    forallb is_callback_effect (run_callbacks schedules t_callbacks s).2 = true.
Proof.
  induction t_callbacks as [|c rest IH]; intros s; [reflexivity|].
  cbn [run_callbacks].
  pose proof (schedule_all_effects (schedules c) s) as H1.
  destruct (schedule_all (schedules c) s) as [s1 tr1].
  specialize (IH s1). destruct (run_callbacks schedules rest s1) as [s2 tr2].
  cbn [fst snd] in *. cbn [forallb is_callback_effect andb].
  now rewrite forallb_app, H1, IH.
Qed.

Lemma callback_effects_filtered (p : Effect -> bool) (tr : list Effect) :
  (forall e, is_callback_effect e = true -> p e = false) ->
  forallb is_callback_effect tr = true ->
  List.filter p tr = [].
Proof.
  intros Hp. induction tr as [|e tr IH]; intros Hall; [reflexivity|].
  cbn [forallb] in Hall. apply andb_true_iff in Hall as [He Hall].
  cbn [List.filter]. now rewrite (Hp e He), IH.
Qed.

Lemma callback_effects_keep (tr : list Effect) :
  forallb is_callback_effect tr = true ->
  retained tr = [] /\ released tr = [].
Proof.
  induction tr as [|e tr IH]; intros Hall; [now split|].
  cbn [forallb] in Hall. apply andb_true_iff in Hall as [He Hall].
  destruct (IH Hall) as [IH1 IH2]. destruct e; try discriminate; now split.
Qed.

Lemma retained_app (a b : list Effect) : retained (a ++ b) = retained a ++ retained b.
Proof.
  induction a as [|e a IH]; [reflexivity|].
  destruct e; simpl; rewrite IH; reflexivity.
Qed.

Lemma released_app (a b : list Effect) : released (a ++ b) = released a ++ released b.
Proof.
  induction a as [|e a IH]; [reflexivity|].
  destruct e; simpl; rewrite IH; reflexivity.
Qed.

(** A call that goes past the event-checking test, in parts. *)
Lemma WaitForEvent_accepted (d : Q) (b : bool) (ev : option NSEvent) (s : WaitState) :
  m_event_checking_enabled s = 0 ->
  exists s1 tr1,
    forallb is_callback_effect tr1 = true
    /\ m_last_mouse_event s1 = m_last_mouse_event s
    /\ m_event_checking_enabled s1 = 0
    /\ m_observer s1 = true
    /\ m_in_blocking_wait s1 = false
    /\ WaitForEvent schedules d b ev s
       = (bool_decide (ev <> None), (dispatch_event ev s1).1,
          tr1 ++ (if m_observer s then [] else [InstallObserver])
          ++ [nextEventMatchingMask b d] ++ modal_to_run s
          ++ (dispatch_event ev s1).2).
Proof.
  intros Hen. unfold WaitForEvent, IsEventCheckingEnabled. rewrite Hen.
  cbn [Z.eqb negb].
  destruct s as [n wb q o i l m]. cbn in Hen. subst n. cbn.
  pose proof (run_callbacks_queue schedules q (Build_WaitState 0 false [] o i l m))
    as (_ & _ & _ & Ho & Hm & Hl & Hc).
  pose proof (run_callbacks_effects q (Build_WaitState 0 false [] o i l m)) as Heff.
  destruct (run_callbacks schedules q _) as [s1 tr1]. cbn [fst snd] in *.
  destruct s1 as [n1 b1 q1 o1 i1 l1 m1]. cbn in Ho, Hm, Hl, Hc. subst o1 m1 l1 n1.
  exists (Build_WaitState 0 b1 q1 true false l m), tr1.
  split_and!; try reflexivity; [assumption|].
  unfold modal_to_run. destruct o; cbn.
  - destruct (dispatch_event ev _) as [s3 tr3] eqn:Hd. cbn. reflexivity.
  - destruct (dispatch_event ev _) as [s3 tr3] eqn:Hd. cbn. reflexivity.
Qed.

Lemma dispatch_event_observer (ev : option NSEvent) (s : WaitState) :
  m_observer (dispatch_event ev s).1 = m_observer s
  /\ m_event_checking_enabled (dispatch_event ev s).1 = m_event_checking_enabled s
  /\ List.filter is_install (dispatch_event ev s).2 = [].
Proof.
  destruct s as [n b q o i l m].
  destruct ev as [[[] k]|]; cbn; now split_and!.
Qed.

Lemma modal_to_run_filtered (s : WaitState) :
  List.filter is_install (modal_to_run s) = []
  /\ retained (modal_to_run s) = [] /\ released (modal_to_run s) = [].
Proof.
  unfold modal_to_run. destruct (last _) as [e|]; [|now split_and!].
  destruct (Modal.session e); now split_and!.
Qed.

(** *** Break events *)

Lemma break_step (op : WaitOp) (s : WaitState) :
  is_wait op = false ->
  length (List.filter is_post_break (wait_step schedules op s).2)
  = (if m_wait_broken s then 0 else if breaks_wait op then 1 else 0)%nat
  /\ m_wait_broken (wait_step schedules op s).1 = m_wait_broken s || breaks_wait op.
Proof.
  intros Hop. destruct s as [n b q o i l m].
  destruct op as [c|d bl ev| | |]; try discriminate;
    cbn [wait_step]; unfold ScheduleCallback, BreakWait, EnableEventChecking,
      DisableEventChecking; destruct b; cbn; now split.
Qed.

(** X15. Over any sequence of ScheduleCallback, BreakWait,
    EnableEventChecking and DisableEventChecking calls with no WaitForEvent
    among them, at most one break event is posted: none if the wait was
    already marked broken or nothing reached BreakWait, one otherwise, and
    the wait is marked broken from the first such call on. *)
Theorem break_event_posted_once (ops : list WaitOp) (s : WaitState) :
  forallb (fun op => negb (is_wait op)) ops = true ->
  length (List.filter is_post_break (wait_run schedules ops s).2)
  = (if m_wait_broken s then 0 else if existsb breaks_wait ops then 1 else 0)%nat
  /\ m_wait_broken (wait_run schedules ops s).1
     = m_wait_broken s || existsb breaks_wait ops.
Proof.
  revert s. induction ops as [|op ops IH]; intros s Hops.
  - cbn. rewrite orb_false_r. now destruct (m_wait_broken s).
  - cbn [forallb] in Hops. apply andb_true_iff in Hops as [Hop Hops].
    apply negb_true_iff in Hop. cbn [wait_run existsb].
    destruct (break_step op s Hop) as [Hposts Hbroken].
    destruct (wait_step schedules op s) as [s1 tr1]. cbn [fst snd] in *.
    destruct (IH s1 Hops) as [IH1 IH2].
    destruct (wait_run schedules ops s1) as [s2 tr2]. cbn [fst snd] in *.
    rewrite List.filter_app, length_app, Hposts, IH1, IH2, Hbroken.
    destruct (m_wait_broken s), (breaks_wait op), (existsb breaks_wait ops);
      now split.
Qed.

(** *** The run-loop observer *)

Lemma observer_step (op : WaitOp) (s : WaitState) :
  (length (List.filter is_install (wait_step schedules op s).2)
   + (if m_observer s then 1 else 0)
   = if m_observer (wait_step schedules op s).1 then 1 else 0)%nat.
Proof.
  destruct op as [c|d b ev| | |]; cbn [wait_step].
  - destruct (ScheduleCallback_queue_only c s) as (_ & _ & _ & _ & -> & _).
    unfold ScheduleCallback, BreakWait. destruct s as [n [] q o i l m]; reflexivity.
  - destruct (Z.eq_dec (m_event_checking_enabled s) 0) as [Hen|Hdis].
    + destruct (WaitForEvent_accepted d b ev s Hen)
        as (s1 & tr1 & Heff & _ & _ & Hobs & _ & ->).
      cbn [fst snd].
      destruct (dispatch_event_observer ev s1) as (-> & _ & Hnone).
      destruct (modal_to_run_filtered s) as (Hmodal & _).
      rewrite Hobs, !List.filter_app, Hnone, Hmodal.
      rewrite (callback_effects_filtered is_install tr1) by
        (assumption || now intros []).
      now destruct (m_observer s).
    + unfold WaitForEvent, IsEventCheckingEnabled.
      rewrite (proj2 (Z.eqb_neq _ _) Hdis). cbn. lia.
  - destruct s; cbn; lia.
  - destruct s; cbn; lia.
  - unfold BreakWait. destruct s as [n [] q o i l m]; cbn; lia.
Qed.

(** X16. Over any sequence of ScheduleCallback, WaitForEvent, BreakWait,
    EnableEventChecking and DisableEventChecking calls the run-loop observer
    is installed at most once, and not at all when one is installed at the
    start; once installed it is never removed. *)
Theorem observer_installed_once (ops : list WaitOp) (s : WaitState) :
  (length (List.filter is_install (wait_run schedules ops s).2)
   + (if m_observer s then 1 else 0)
   = if m_observer (wait_run schedules ops s).1 then 1 else 0)%nat.
Proof.
  revert s. induction ops as [|op ops IH]; intros s; [reflexivity|].
  cbn [wait_run]. pose proof (observer_step op s) as Hstep.
  destruct (wait_step schedules op s) as [s1 tr1]. cbn [fst snd] in *.
  specialize (IH s1). destruct (wait_run schedules ops s1) as [s2 tr2].
  cbn [fst snd] in *. rewrite List.filter_app, length_app. lia.
Qed.

(** *** The last mouse event *)

Lemma fetch_step (d : Q) (b : bool) (e : NSEvent) (s : WaitState) :
  m_event_checking_enabled s = 0 ->
  m_event_checking_enabled (wait_step schedules (OpWait d b (Some e)) s).1 = 0
  /\ match event_type e with
     | NSLeftMouseDown | NSLeftMouseDragged =>
       retained (wait_step schedules (OpWait d b (Some e)) s).2 = [e]
       /\ released (wait_step schedules (OpWait d b (Some e)) s).2 = []
       /\ m_last_mouse_event (wait_step schedules (OpWait d b (Some e)) s).1 = Some e
     | NSLeftMouseUp =>
       retained (wait_step schedules (OpWait d b (Some e)) s).2 = []
       /\ released (wait_step schedules (OpWait d b (Some e)) s).2
          = [m_last_mouse_event s]
       /\ m_last_mouse_event (wait_step schedules (OpWait d b (Some e)) s).1 = None
     | NSOtherEventType =>
       retained (wait_step schedules (OpWait d b (Some e)) s).2 = []
       /\ released (wait_step schedules (OpWait d b (Some e)) s).2 = []
       /\ m_last_mouse_event (wait_step schedules (OpWait d b (Some e)) s).1
          = m_last_mouse_event s
     end.
Proof.
  intros Hen. cbn [wait_step].
  destruct (WaitForEvent_accepted d b (Some e) s Hen)
    as (s1 & tr1 & Heff & Hlast & Hen1 & _ & _ & ->).
  cbn [fst snd].
  destruct (callback_effects_keep tr1 Heff) as [Hr1 Hl1].
  destruct (modal_to_run_filtered s) as (_ & Hr2 & Hl2).
  rewrite !retained_app, !released_app, Hr1, Hl1, Hr2, Hl2.
  destruct (dispatch_event_observer (Some e) s1) as (_ & -> & _).
  split; [assumption|].
  destruct s1 as [n1 b1 q1 o1 i1 l1 m1]. cbn in Hlast. subst l1.
  destruct (m_observer s); destruct e as [[] k]; cbn; now split_and!.
Qed.

Lemma drags_retained (d : Q) (b : bool) (drags : list NSEvent) :
  Forall (fun e => event_type e = NSLeftMouseDragged) drags ->
  forall (s : WaitState) (previous : NSEvent),
    m_event_checking_enabled s = 0 ->
    m_last_mouse_event s = Some previous ->
    m_event_checking_enabled (wait_run schedules (fetch_each d b drags) s).1 = 0
    /\ retained (wait_run schedules (fetch_each d b drags) s).2 = drags
    /\ released (wait_run schedules (fetch_each d b drags) s).2 = []
    /\ m_last_mouse_event (wait_run schedules (fetch_each d b drags) s).1
       = Some (List.last drags previous).
Proof.
  induction 1 as [|e drags He Hdrags IH]; intros s previous Hen Hlast.
  - cbn. now split_and!.
  - unfold fetch_each. cbn [map wait_run]. fold (fetch_each d b drags).
    pose proof (fetch_step d b e s Hen) as [Hen1 Hstep]. rewrite He in Hstep.
    destruct Hstep as (Hr & Hl & Hlast1).
    destruct (wait_step schedules (OpWait d b (Some e)) s) as [s1 tr1].
    cbn [fst snd] in *.
    destruct (IH s1 e Hen1 Hlast1) as (I0 & I1 & I2 & I3).
    destruct (wait_run schedules (fetch_each d b drags) s1) as [s2 tr2].
    cbn [fst snd] in *.
    rewrite retained_app, released_app, Hr, Hl, I1, I2, I3.
    split_and!; try reflexivity; [assumption|].
    now rewrite last_cons_default.
Qed.

(** X17. Over the WaitForEvent calls that fetch a left-mouse-down event, any
    number of left-mouse-dragged events and a left-mouse-up event, with event
    checking enabled, every down and dragged event is retained and stored as
    the last mouse event without the event stored before being released; the
    up event releases only the last of them and clears the store. *)
Theorem mouse_events_retained_and_released
    (d : Q) (b : bool) (down up : NSEvent) (drags : list NSEvent) (s : WaitState) :
  m_event_checking_enabled s = 0 ->
  event_type down = NSLeftMouseDown ->
  Forall (fun e => event_type e = NSLeftMouseDragged) drags ->
  event_type up = NSLeftMouseUp ->
  retained (wait_run schedules (fetch_each d b (down :: drags ++ [up])) s).2
  = down :: drags
  /\ released (wait_run schedules (fetch_each d b (down :: drags ++ [up])) s).2
     = [Some (List.last drags down)]
  /\ m_last_mouse_event
       (wait_run schedules (fetch_each d b (down :: drags ++ [up])) s).1 = None.
Proof.
  intros Hen Hdown Hdrags Hup.
  unfold fetch_each. rewrite map_cons, map_app. cbn [map wait_run].
  fold (fetch_each d b drags).
  pose proof (fetch_step d b down s Hen) as [Hen1 Hstep]. rewrite Hdown in Hstep.
  destruct Hstep as (Hr & Hl & Hlast1).
  destruct (wait_step schedules (OpWait d b (Some down)) s) as [s1 tr1].
  cbn [fst snd] in *.
  assert (Happ : forall ops1 ops2 s0,
            wait_run schedules (ops1 ++ ops2) s0
            = let '(sa, ta) := wait_run schedules ops1 s0 in
              let '(sb, tb) := wait_run schedules ops2 sa in (sb, ta ++ tb)).
  { induction ops1 as [|op ops1 IH]; intros ops2 s0.
    - cbn. now destruct (wait_run schedules ops2 s0).
    - cbn [app wait_run]. destruct (wait_step schedules op s0) as [sx tx].
      rewrite IH. destruct (wait_run schedules ops1 sx) as [sa ta].
      destruct (wait_run schedules ops2 sa) as [sb tb]. now rewrite app_assoc. }
  rewrite Happ.
  destruct (drags_retained d b drags Hdrags s1 down Hen1 Hlast1)
    as (Hen2 & Hr2 & Hl2 & Hlast2).
  destruct (wait_run schedules (fetch_each d b drags) s1) as [s2 tr2].
  cbn [fst snd] in *. cbn [wait_run].
  pose proof (fetch_step d b up s2 Hen2) as [_ Hstep]. rewrite Hup in Hstep.
  destruct Hstep as (Hr3 & Hl3 & Hlast3).
  destruct (wait_step schedules (OpWait d b (Some up)) s2) as [s3 tr3].
  cbn [fst snd] in *.
  rewrite !retained_app, !released_app, Hr, Hl, Hr2, Hl2, Hr3, Hl3, Hlast2.
  cbn. rewrite !app_nil_r. now split_and!.
Qed.

(** *** The event-checking counter *)

(** X18. EnableEventChecking adds one to the counter, DisableEventChecking
    takes one off, and WaitForEvent goes ahead only while the counter is
    zero: after any sequence of calls event checking is on exactly when the
    counter at the start plus the Enable calls minus the Disable calls is
    zero as a uint32_t. From a state with checking on, either call alone
    turns it off. *)
Theorem event_checking_counts_calls (ops : list WaitOp) (s : WaitState) :
  in_uint32 (m_event_checking_enabled s) ->
  IsEventCheckingEnabled (wait_run schedules ops s).1
  = (wrap_uint32 (m_event_checking_enabled s + enable_balance ops) =? 0)
  /\ (IsEventCheckingEnabled s = true ->
      IsEventCheckingEnabled (EnableEventChecking s) = false
      /\ IsEventCheckingEnabled (DisableEventChecking s) = false).
Proof.
  intros Hrange. split.
  - unfold IsEventCheckingEnabled. now rewrite (wait_run_counter schedules ops s Hrange).
  - unfold IsEventCheckingEnabled. intros Hon. apply Z.eqb_eq in Hon.
    destruct s as [n b q o i l m]. cbn in *. subst n. now split.
Qed.

End WaitLoopMore.

Section WaitRunsMore.
Import Wait WaitMore.

Lemma break_event_posted_once_witness :
  forallb (fun op => negb (is_wait op)) schedule_and_break = true
  /\ length (List.filter is_post_break
               (wait_run a_schedules_c schedule_and_break quiet_state).2) = 1%nat.
Proof.
  split; [reflexivity|].
  exact (proj1 (break_event_posted_once a_schedules_c schedule_and_break
                  quiet_state eq_refl)).
Defined.

Lemma mouse_events_retained_and_released_witness :
  retained (wait_run a_schedules_c
              (fetch_each 0 false [left_down; left_drag_2; left_drag_3; left_up])
              quiet_state).2
  = [left_down; left_drag_2; left_drag_3]
  /\ released (wait_run a_schedules_c
                 (fetch_each 0 false [left_down; left_drag_2; left_drag_3; left_up])
                 quiet_state).2
     = [Some left_drag_3].
Proof.
  destruct (mouse_events_retained_and_released a_schedules_c 0 false
              left_down left_up [left_drag_2; left_drag_3] quiet_state eq_refl eq_refl
              ltac:(repeat constructor) eq_refl) as (Hr & Hl & _).
  split; [exact Hr | exact Hl].
Defined.

Lemma event_checking_counts_calls_witness :
  in_uint32 (m_event_checking_enabled quiet_state)
  /\ IsEventCheckingEnabled (wait_run a_schedules_c disable_then_enable quiet_state).1
     = true
  /\ IsEventCheckingEnabled (EnableEventChecking quiet_state) = false.
Proof.
  assert (Hrange : in_uint32 (m_event_checking_enabled quiet_state))
    by (vm_compute; split; [discriminate | reflexivity]).
  destruct (event_checking_counts_calls a_schedules_c disable_then_enable
              quiet_state Hrange) as [Hrun Hcalls].
  split_and!; [exact Hrange | exact Hrun | exact (proj1 (Hcalls eq_refl))].
Defined.

End WaitRunsMore.

(** ** Screen rectangle mapping *)

Section ScreenRectangles.
Import Coord Rect.

(** At the desktop height 900.3 the rectangle at (5, -8192) of width 10 and
    height 0 comes back with y = -8191. *)
Lemma screen_rectangle_at_900_3 :
  MCRectangle_valid (MCRectangleMake 5 (-8192) 10 0)
  /\ MapScreenNSRectToMCRectangle desktop_900_3
       (MapScreenMCRectangleToNSRect desktop_900_3 (MCRectangleMake 5 (-8192) 10 0))
     = MCRectangleMake 5 (-8191) 10 0.
Proof.
  split; [unfold MCRectangle_valid, in_int16; simpl; lia|].
  vm_compute. reflexivity.
Qed.

(** X19. For a desktop height that is a whole number H of at most 2^52 in
    magnitude and every rectangle with int16_t x and y and width and height
    below 2^15, mapping the rectangle to an NSRect and back gives the
    rectangle. The NSRect's origin is the image, under the point mapping, of
    the rectangle's bottom-left corner (x, y + height), its top edge lies at
    H - y, and width and height are unchanged. *)
Theorem screen_rectangle_roundtrip (H : Z) (r : MCRectangle) :
  - 2 ^ 52 <= H <= 2 ^ 52 ->
  MCRectangle_valid r ->
  MapScreenNSRectToMCRectangle (CGFloat_of_int H)
    (MapScreenMCRectangleToNSRect (CGFloat_of_int H) r) = r
  /\ NSMakePoint (origin_x (MapScreenMCRectangleToNSRect (CGFloat_of_int H) r))
                 (origin_y (MapScreenMCRectangleToNSRect (CGFloat_of_int H) r))
     = MapScreenMCPointToNSPoint (CGFloat_of_int H)
         (MCPointMake (rect_x r) (rect_y r + rect_height r))
  /\ top_edge (MapScreenMCRectangleToNSRect (CGFloat_of_int H) r)
     = CGFloat_of_int (H - rect_y r)
  /\ size_width (MapScreenMCRectangleToNSRect (CGFloat_of_int H) r)
     = CGFloat_of_int (rect_width r)
  /\ size_height (MapScreenMCRectangleToNSRect (CGFloat_of_int H) r)
     = CGFloat_of_int (rect_height r).
Proof.
  destruct r as [x y w ht]. intros HH (Hx & Hy & Hw & Hh). cbn in Hx, Hy, Hw, Hh.
  unfold in_int16 in Hx, Hy.
  change (2 ^ 15) with 32768 in Hx, Hy, Hw, Hh.
  change (2 ^ 52) with 4503599627370496 in HH.
  assert (Horigin : CGFloat_sub (CGFloat_of_int H) (CGFloat_of_int (y + ht))
                    = CGFloat_of_int (H - (y + ht))).
  { apply CGFloat_sub_int; change (2 ^ 53) with 9007199254740992; lia. }
  assert (Htop : CGFloat_add (CGFloat_of_int (H - (y + ht))) (CGFloat_of_int ht)
                 = CGFloat_of_int (H - y)).
  { rewrite CGFloat_add_int by (change (2 ^ 53) with 9007199254740992; lia).
    f_equal. lia. }
  assert (Hback : CGFloat_sub (CGFloat_of_int H) (CGFloat_of_int (H - y))
                  = CGFloat_of_int y).
  { rewrite CGFloat_sub_int by (change (2 ^ 53) with 9007199254740992; lia).
    f_equal. lia. }
  unfold MapScreenNSRectToMCRectangle, MapScreenMCRectangleToNSRect, top_edge,
    MapScreenMCPointToNSPoint.
  cbn [origin_x origin_y size_width size_height rect_x rect_y rect_width rect_height
       MCPoint_x MCPoint_y].
  rewrite Horigin, Htop, Hback.
  rewrite !int16_t_of_int by (unfold in_int16; change (2 ^ 15) with 32768; lia).
  split_and!; try reflexivity.
  unfold wrap_uint16. rewrite !Z.mod_small by (change (2 ^ 16) with 65536; lia).
  reflexivity.
Qed.

Lemma screen_rectangle_roundtrip_witness :
  - 2 ^ 52 <= 900 <= 2 ^ 52
  /\ MCRectangle_valid (MCRectangleMake 100 250 640 480)
  /\ MapScreenNSRectToMCRectangle (CGFloat_of_int 900)
       (MapScreenMCRectangleToNSRect (CGFloat_of_int 900) (MCRectangleMake 100 250 640 480))
     = MCRectangleMake 100 250 640 480.
Proof.
  assert (Hh : - 2 ^ 52 <= 900 <= 2 ^ 52) by (simpl; lia).
  assert (Hvalid : MCRectangle_valid (MCRectangleMake 100 250 640 480))
    by (unfold MCRectangle_valid, in_int16; simpl; lia).
  split; [exact Hh|]. split; [exact Hvalid|].
  exact (proj1 (screen_rectangle_roundtrip 900 _ Hh Hvalid)).
Defined.

End ScreenRectangles.

(** ** Screen rectangles and the desktop height *)

Section ScreenGeometry.
Import Coord Screen.





End ScreenGeometry.

(** ** Key codes *)

Section KeyCodes.
Import Keys.

Lemma MapKeyCode_table (h : KeyHost) (n : nat) (flags : Z) :
  (n < 128)%nat ->
  MCMacPlatformMapKeyCode h (Z.of_nat n) flags
  = if member (Z.of_nat n) undefined_keycodes then None
    else Some (nth n (if negb (Z.land flags
                                 (Z.lor (NSShiftKeyMask h) (NSAlphaShiftKeyMask h))
                               =? 0)
                      then shift_keysyms else keysyms) 0).
Proof.
  intros Hn. unfold MCMacPlatformMapKeyCode.
  replace (0x7f <? Z.of_nat n) with false by (symmetry; apply Z.ltb_ge; lia).
  rewrite Nat2Z.id.
  generalize (negb (Z.land flags (Z.lor (NSShiftKeyMask h) (NSAlphaShiftKeyMask h))
                    =? 0)).
  intros shifted.
  do 128 (destruct n as [|n]; [now destruct shifted|]).
  lia.
Qed.

Lemma MapKeyCode_result (h : KeyHost) (p_mac_keycode flags : Z) :
  0 <= p_mac_keycode ->
  MCMacPlatformMapKeyCode h p_mac_keycode flags
  = if (0x7f <? p_mac_keycode) || member p_mac_keycode undefined_keycodes
    then None
    else Some (nth (Z.to_nat p_mac_keycode)
                 (if negb (Z.land flags
                             (Z.lor (NSShiftKeyMask h) (NSAlphaShiftKeyMask h))
                           =? 0)
                  then shift_keysyms else keysyms) 0).
Proof.
  intros Hpos. destruct (0x7f <? p_mac_keycode) eqn:Hbig.
  - unfold MCMacPlatformMapKeyCode. now rewrite Hbig.
  - apply Z.ltb_ge in Hbig. cbn [orb].
    rewrite <- (Z2Nat.id p_mac_keycode Hpos) at 1 2.
    apply MapKeyCode_table. lia.
Qed.

(** X21. MCMacPlatformMapKeyCode fails exactly for the key codes above 0x7f
    and for the nine codes 0x34, 0x42, 0x44, 0x46, 0x4D, 0x6C, 0x6E, 0x70 and
    0x7F that s_mac_keycode_map leaves undefined; for every other code it
    succeeds with the entry of shift_keysyms when the shift or the caps-lock
    bit is set in the flags and with the entry of keysyms otherwise, the
    entry being inside either table. *)
Theorem MCMacPlatformMapKeyCode_lookup (h : KeyHost) (p_mac_keycode flags : Z) :
  0 <= p_mac_keycode ->
  MCMacPlatformMapKeyCode h p_mac_keycode flags
  = if (0x7f <? p_mac_keycode) || member p_mac_keycode undefined_keycodes
    then None
    else Some (nth (Z.to_nat p_mac_keycode)
                 (if negb (Z.land flags
                             (Z.lor (NSShiftKeyMask h) (NSAlphaShiftKeyMask h))
                           =? 0)
                  then shift_keysyms else keysyms) 0).
Proof. apply MapKeyCode_result. Qed.

Lemma MCMacPlatformMapKeyCode_lookup_witness :
  0 <= 0x12
  /\ MCMacPlatformMapKeyCode shift_A_1_host 0x12 131072 = Some 0x21.
Proof.
  assert (Hpos : 0 <= 0x12) by discriminate.
  split; [exact Hpos|].
  exact (MCMacPlatformMapKeyCode_lookup shift_A_1_host 0x12 131072 Hpos).
Defined.

(** X22. Whenever MCMacPlatformMapKeyCode gives a lower-case letter (0x61 to
    0x7A) for a key code without shift or caps lock, it gives the
    corresponding capital letter, 0x20 below, for the same key code with
    either of them. *)
Theorem shifted_letters_are_capitals
    (h : KeyHost) (p_mac_keycode flags shifted_flags c : Z) :
  0 <= p_mac_keycode ->
  Z.land flags (Z.lor (NSShiftKeyMask h) (NSAlphaShiftKeyMask h)) = 0 ->
  Z.land shifted_flags (Z.lor (NSShiftKeyMask h) (NSAlphaShiftKeyMask h)) <> 0 ->
  MCMacPlatformMapKeyCode h p_mac_keycode flags = Some c ->
  0x61 <= c <= 0x7A ->
  MCMacPlatformMapKeyCode h p_mac_keycode shifted_flags = Some (c - 0x20).
Proof.
  intros Hpos Hplain Hshift Hc Hletter.
  rewrite (MapKeyCode_result h _ flags Hpos) in Hc.
  rewrite (MapKeyCode_result h _ shifted_flags Hpos).
  rewrite Hplain in Hc. rewrite (proj2 (Z.eqb_neq _ _) Hshift).
  cbn [Z.eqb negb] in Hc |- *.
  destruct (0x7f <? p_mac_keycode) eqn:Hbig; [discriminate|].
  apply Z.ltb_ge in Hbig. cbn [orb] in Hc |- *.
  rewrite <- (Z2Nat.id p_mac_keycode Hpos) in Hc |- *.
  rewrite !Nat2Z.id in *.
  assert (Hn : (Z.to_nat p_mac_keycode < 128)%nat) by lia.
  revert Hn Hc. generalize (Z.to_nat p_mac_keycode). intros n Hn.
  do 128 (destruct n as [|n];
          [cbn; intros Hc; try discriminate; injection Hc as <-;
           first [reflexivity | lia]|]).
  lia.
Qed.

Lemma shifted_letters_are_capitals_witness :
  MCMacPlatformMapKeyCode shift_A_1_host 0 0 = Some 0x61
  /\ MCMacPlatformMapKeyCode shift_A_1_host 0 131072 = Some 0x41.
Proof.
  split; [reflexivity|].
  exact (shifted_letters_are_capitals shift_A_1_host 0 0 131072 0x61
           ltac:(discriminate) eq_refl ltac:(discriminate) eq_refl
           ltac:(split; discriminate)).
Defined.

Lemma key_state_loop_unshifted (h : KeyHost) (t_flags : Z) (n : nat) :
  Z.land t_flags (Z.lor (NSShiftKeyMask h) (NSAlphaShiftKeyMask h)) = 0 ->
  forall k : nat,
    (k + n <= 128)%nat ->
    key_state_loop h t_flags n (Z.of_nat k)
    = flat_map (fun i : nat =>
                  if CGEventSourceKeyState h (Z.of_nat i)
                     && negb (member (Z.of_nat i) undefined_keycodes)
                  then [nth i keysyms 0] else [])
        (seq k n).
Proof.
  intros Hplain. induction n as [|n IH]; intros k Hk; [reflexivity|].
  cbn [key_state_loop seq flat_map].
  rewrite (MapKeyCode_table h k t_flags) by lia.
  rewrite Hplain. cbn [Z.eqb negb].
  replace (Z.of_nat k + 1) with (Z.of_nat (S k)) by lia.
  rewrite (IH (S k)) by lia. f_equal.
  destruct (CGEventSourceKeyState h (Z.of_nat k)); [|reflexivity].
  now destruct (member (Z.of_nat k) undefined_keycodes).
Qed.

Lemma keys_down_length (h : KeyHost) (n k : nat) :
  (length (flat_map (fun i : nat =>
                       if CGEventSourceKeyState h (Z.of_nat i)
                          && negb (member (Z.of_nat i) undefined_keycodes)
                       then [nth i keysyms 0%Z] else [])
             (seq k n)) <= n)%nat.
Proof.
  revert k. induction n as [|n IH]; intros k; [reflexivity|].
  cbn [seq flat_map]. rewrite length_app. specialize (IH (S k)).
  destruct (_ && _); cbn [length]; lia.
Qed.

(** X23. GetKeyState stores the modifier flags in a bool before passing them
    on, so with modifier masks that do not use bit 0 the keys are always
    reported with their unshifted key symbols, whatever the modifier flags:
    the result is the unshifted symbol of every key that is down among the
    key codes 0 to 126 that the map defines, in key code order, at most 127
    of them in the array of 128. *)
Theorem GetKeyState_reports_unshifted (h : KeyHost) :
  Z.land 1 (Z.lor (NSShiftKeyMask h) (NSAlphaShiftKeyMask h)) = 0 ->
  GetKeyState h = (if MCMemoryNewArray h then Some (keys_down h 127) else None)
  /\ (forall v : Z, GetKeyState (set_modifierFlags v h) = GetKeyState h)
  /\ (length (keys_down h 127) <= 127)%nat.
Proof.
  intros Hmasks.
  assert (Hstate : forall g : KeyHost,
            NSShiftKeyMask g = NSShiftKeyMask h ->
            NSAlphaShiftKeyMask g = NSAlphaShiftKeyMask h ->
            GetKeyState g
            = if MCMemoryNewArray g then Some (keys_down g 127) else None).
  { intros g Hs Ha. unfold GetKeyState, keys_down.
    destruct (MCMemoryNewArray g); [|reflexivity]. cbn [negb]. f_equal.
    assert (Hone : Z.land 1 (Z.lor (NSShiftKeyMask g) (NSAlphaShiftKeyMask g)) = 0)
      by now rewrite Hs, Ha.
    destruct (negb (modifierFlags g =? 0)).
    - apply (key_state_loop_unshifted g 1 127 Hone 0%nat). lia.
    - apply (key_state_loop_unshifted g 0 127 (Z.land_0_l _) 0%nat). lia. }
  split_and!.
  - now apply Hstate.
  - intros v. rewrite (Hstate h eq_refl eq_refl).
    now rewrite (Hstate (set_modifierFlags v h) eq_refl eq_refl).
  - apply keys_down_length.
Qed.

Lemma GetKeyState_reports_unshifted_witness :
  Z.land 1 (Z.lor (NSShiftKeyMask shift_A_1_host) (NSAlphaShiftKeyMask shift_A_1_host))
  = 0
  /\ GetKeyState shift_A_1_host = Some [0x61; 0x31].
Proof.
  split; [reflexivity|].
  exact (proj1 (GetKeyState_reports_unshifted shift_A_1_host eq_refl)).
Defined.

End KeyCodes.

(** ** The window being moved *)

Section MovingWindow.
Import Pointer PointerMore Moving.

Lemma finished_before_release_within (n : nat) :
  forall a b : list Effect,
    (length a <= n)%nat ->
    finished_before_release a = true ->
    finished_before_release b = true ->
    finished_before_release (a ++ b) = true.
Proof.
  induction n as [|n IH]; intros a b Hlen Ha Hb;
    (destruct a as [|e a]; [exact Hb|]); cbn [length] in Hlen; [lia|].
  destruct e as [m|w|w|w|w]; cbn [app finished_before_release] in Ha |- *;
    try (apply IH; [lia | assumption | assumption]);
    try discriminate.
  destruct a as [|[m|w'|w'|w'|w'] a]; try discriminate.
  cbn [app]. apply andb_true_iff in Ha as [Hw Ha]. rewrite Hw. cbn [andb].
  cbn [length] in Hlen. apply IH; [lia | assumption | assumption].
Qed.

Lemma finished_before_release_app (a b : list Effect) :
  finished_before_release a = true ->
  finished_before_release b = true ->
  finished_before_release (a ++ b) = true.
Proof. now apply (finished_before_release_within (length a)). Qed.

Lemma mouse_effects_quiet (tr : list Notification) :
  flat_map handle_effect (map Mouse tr) = []
  /\ finished_before_release (map Mouse tr) = true.
Proof. induction tr as [|n tr [IH1 IH2]]; now split. Qed.

Lemma moving_step_handles (op : MovingOp) (c : Core) :
  alternates retain_release (m_moving_window c)
    (flat_map handle_effect (moving_step op c).2)
  = Some (m_moving_window (moving_step op c).1)
  /\ finished_before_release (moving_step op c).2 = true.
Proof.
  destruct c as [p m]; destruct op as [w1|w1|h g [k ew]];
    unfold moving_step, ApplicationWindowStartedMoving,
      ApplicationWindowStoppedMoving, ApplicationSendEvent;
    cbn [m_moving_window pointer kind event_window].
  - destruct m as [w|]; cbn; rewrite ?window_eqb_refl, ?Nat.eqb_refl; now split.
  - destruct m as [w|]; cbn; rewrite ?window_eqb_refl, ?Nat.eqb_refl; now split.
  - destruct k.
    + destruct (HandleMouseSync h p) as [p1 tr1]. cbn [fst snd m_moving_window].
      destruct (mouse_effects_quiet tr1) as [-> ->]. now split.
    + destruct m as [w|]; [destruct (bool_decide _)|]; cbn; now split.
    + destruct m as [w|]; [destruct (bool_decide _)|]; cbn;
        rewrite ?window_eqb_refl, ?Nat.eqb_refl; now split.
    + destruct m as [w|]; [destruct (bool_decide _)|]; cbn; now split.
Qed.

(** X24. Over any sequence of ApplicationWindowStartedMoving,
    ApplicationWindowStoppedMoving and ApplicationSendEvent calls, the moving
    window's Retain and Release alternate: a window is released only if it
    is the one retained last, each release comes right after
    windowMoveFinished for the same window, and the window held at the end
    is m_moving_window. *)
Theorem moving_window_held_once (ops : list MovingOp) (c : Core) :
  alternates retain_release (m_moving_window c)
    (flat_map handle_effect (moving_run ops c).2)
  = Some (m_moving_window (moving_run ops c).1)
  /\ finished_before_release (moving_run ops c).2 = true.
Proof.
  revert c. induction ops as [|op ops IH]; intros c; [now split|].
  cbn [moving_run]. destruct (moving_step_handles op c) as [Hstep Hfin].
  destruct (moving_step op c) as [c1 tr1]. cbn [fst snd] in *.
  destruct (IH c1) as [IH1 IH2]. destruct (moving_run ops c1) as [c2 tr2].
  cbn [fst snd] in *. rewrite flat_map_app, alternates_app, Hstep, IH1.
  split; [reflexivity | now apply finished_before_release_app].
Qed.

End MovingWindow.

(** ** The backdrop window *)

Section BackdropWindow.
Import Pointer PointerMore Backdrop.

Lemma backdrop_loop_chain (t_backdrop : NSWindow) (windows : WindowList) :
  Forall (fun x => x.1 <> -1) windows ->
  forall above : Z,
    above <> -1 ->
    backdrop_loop t_backdrop windows above
    = (last_number above (other_windows t_backdrop windows),
       chain above (other_windows t_backdrop windows)).
Proof.
  induction 1 as [|[id w] windows Hid Hall IH]; intros above Habove; [reflexivity|].
  cbn [backdrop_loop other_windows List.filter snd].
  destruct (bool_decide (w = Some t_backdrop)); cbn [negb].
  - apply IH. assumption.
  - rewrite (proj2 (Z.eqb_neq _ _) Habove). cbn [negb].
    fold (other_windows t_backdrop windows).
    rewrite (IH id Hid). cbn [chain app]. f_equal.
    unfold last_number. cbn [map fst]. now rewrite last_cons_default.
Qed.

Lemma backdrop_loop_first (t_backdrop : NSWindow) (windows : WindowList) :
  Forall (fun x => x.1 <> -1) windows ->
  backdrop_loop t_backdrop windows (-1)
  = (last_number (-1) (other_windows t_backdrop windows),
     match other_windows t_backdrop windows with
     | [] => []
     | (id, _) :: rest => chain id rest
     end).
Proof.
  induction 1 as [|[id w] windows Hid Hall IH]; [reflexivity|].
  cbn [backdrop_loop other_windows List.filter snd].
  destruct (bool_decide (w = Some t_backdrop)); cbn [negb].
  - exact IH.
  - cbn [Z.eqb negb]. fold (other_windows t_backdrop windows).
    rewrite (backdrop_loop_chain t_backdrop windows Hall id Hid). cbn [app].
    f_equal. unfold last_number. cbn [map fst]. now rewrite last_cons_default.
Qed.

(** X25. With a backdrop window and no window numbered -1, SyncBackdrop
    disables screen updates, orders the backdrop out, orders every window of
    the list other than the backdrop, from the second on, directly below
    the one before it in the list, then orders the backdrop below the last
    of them (below number -1 when there is none), and enables screen
    updates again. Without a backdrop window it does nothing. *)
Theorem SyncBackdrop_orders_chain
    (GetHandle : Window -> NSWindow) (windows : WindowList) (b : Window) :
  Forall (fun x => x.1 <> -1) windows ->
  SyncBackdrop GetHandle windows (Some b)
  = [NSDisableScreenUpdates; orderOut (GetHandle b)]
    ++ match other_windows (GetHandle b) windows with
       | [] => []
       | (id, _) :: rest => chain id rest
       end
    ++ [orderWindowBelow (Some (GetHandle b))
          (last_number (-1) (other_windows (GetHandle b) windows));
        NSEnableScreenUpdates]
  /\ SyncBackdrop GetHandle windows None = [].
Proof.
  intros Hids. split; [|reflexivity].
  unfold SyncBackdrop. now rewrite (backdrop_loop_first (GetHandle b) windows Hids).
Qed.

Lemma SyncBackdrop_orders_chain_witness :
  Forall (fun x => x.1 <> -1) three_windows
  /\ SyncBackdrop (fun w => w) three_windows (Some 12%nat)
     = [NSDisableScreenUpdates; orderOut 12%nat;
        orderWindowBelow (Some 13%nat) 101;
        orderWindowBelow (Some 12%nat) 103; NSEnableScreenUpdates].
Proof.
  assert (Hids : Forall (fun x => x.1 <> -1) three_windows)
    by (repeat constructor; discriminate).
  split; [exact Hids|].
  exact (proj1 (SyncBackdrop_orders_chain (fun w => w) three_windows 12%nat Hids)).
Defined.

Lemma SyncBackdrop_handles (GetHandle : Window -> NSWindow) (windows : WindowList)
    (b : option Window) :
  flat_map handle_effect (SyncBackdrop GetHandle windows b) = [].
Proof.
  unfold SyncBackdrop. destruct b as [b|]; [|reflexivity].
  assert (Hloop : forall l above,
            flat_map handle_effect (backdrop_loop (GetHandle b) l above).2 = []).
  { induction l as [|[id w] l IH]; intros above; [reflexivity|].
    cbn [backdrop_loop]. destruct (bool_decide _); [apply IH|].
    specialize (IH id). destruct (backdrop_loop (GetHandle b) l id) as [a tr].
    cbn [snd] in *. rewrite flat_map_app, IH. now destruct (negb _). }
  specialize (Hloop windows (-1)).
  destruct (backdrop_loop (GetHandle b) windows (-1)) as [a tr]. cbn [snd] in Hloop.
  rewrite !flat_map_app, Hloop. reflexivity.
Qed.

(** X26. Over any sequence of ConfigureBackdrop calls, the backdrop window's
    Retain and Release alternate, the window held at the end is
    m_backdrop_window, and it is the window of the last call. Each call
    releases the window held before it, if there is one, and then retains
    the window it is given, if there is one, and does nothing else to a
    handle; so a call for the window that is already the backdrop releases
    it before retaining it again. *)
Theorem backdrop_held_once (GetHandle : Window -> NSWindow)
    (calls : list (WindowList * option Window)) (m_backdrop_window : option Window) :
  alternates retain_release m_backdrop_window
    (flat_map handle_effect (configure_run GetHandle calls m_backdrop_window).2)
  = Some (configure_run GetHandle calls m_backdrop_window).1
  /\ (configure_run GetHandle calls m_backdrop_window).1
     = List.last (map snd calls) m_backdrop_window
  /\ (forall (windows : WindowList) (p held : option Window),
        flat_map handle_effect (ConfigureBackdrop GetHandle windows p held).2
        = match held with Some w => [Release w] | None => [] end
          ++ match p with Some w => [Retain w] | None => [] end)
  /\ (forall (windows : WindowList) (w : Window),
        flat_map handle_effect (ConfigureBackdrop GetHandle windows (Some w) (Some w)).2
        = [Release w; Retain w]).
Proof.
  assert (Hcall : forall (windows : WindowList) (p held : option Window),
            flat_map handle_effect (ConfigureBackdrop GetHandle windows p held).2
            = match held with Some w => [Release w] | None => [] end
              ++ match p with Some w => [Retain w] | None => [] end).
  { intros windows p held. unfold ConfigureBackdrop. cbn [snd].
    rewrite !flat_map_app, SyncBackdrop_handles, app_nil_r.
    now destruct held, p. }
  assert (Hrun : forall b,
            alternates retain_release b
              (flat_map handle_effect (configure_run GetHandle calls b).2)
            = Some (configure_run GetHandle calls b).1
            /\ (configure_run GetHandle calls b).1 = List.last (map snd calls) b).
  { induction calls as [|[windows p] calls IH]; intros b; [now split|].
    cbn [configure_run]. unfold ConfigureBackdrop.
    destruct (IH p) as [IH1 IH2].
    destruct (configure_run GetHandle calls p) as [b2 tr2]. cbn [fst snd] in *.
    rewrite !flat_map_app, SyncBackdrop_handles, app_nil_r, !alternates_app.
    split.
    - destruct b as [w|], p as [w'|]; cbn; rewrite ?window_eqb_refl; exact IH1.
    - cbn [map snd]. now rewrite last_cons_default. }
  destruct (Hrun m_backdrop_window) as [Halt Hlast].
  split_and!; [exact Halt | exact Hlast | exact Hcall |].
  intros windows w. exact (Hcall windows (Some w) (Some w)).
Qed.

(** Window 12 is made the backdrop twice: it is released before it is
    retained again. *)
Lemma backdrop_held_once_witness :
  flat_map handle_effect
    (configure_run (fun w => w)
       [(three_windows, Some 12%nat); (three_windows, Some 12%nat)] None).2
  = [Retain 12%nat; Release 12%nat; Retain 12%nat]
  /\ flat_map handle_effect
       (ConfigureBackdrop (fun w => w) three_windows (Some 12%nat) (Some 12%nat)).2
     = [Release 12%nat; Retain 12%nat].
Proof.
  split; [reflexivity|].
  exact (proj2 (proj2 (proj2 (backdrop_held_once (fun w => w) [] None)))
           three_windows 12%nat).
Defined.

End BackdropWindow.
